(** * LiteNet: kernel exponential family on network features

    A verification development for [src/LiteNet.py]: the Gaussian kernel and
    its derivatives, the feature networks with their input Jacobians, the
    second-derivative extraction of [Network.get_sec_data], the score
    objectives of [KernelNetModel] and the consistency check of
    [DeepNetwork].

    Modelling conventions.

    - Scalars are real numbers ([R]): every statement below is about exact
      arithmetic, not about float32 rounding.
    - A tensor is a nested list in row-major order.  A tensor whose static
      shape the code reads ([X.shape[1]], [D.shape[-1].value]) carries its
      column count next to its rows ([tensor2]).
    - The code builds a TensorFlow graph and the host evaluates it under a
      feed.  The part of the graph that [tf.gradients] differentiates (the
      network applied to the placeholder [son.batch]) is kept symbolic
      ([expr]); everything downstream is represented by its value under the
      feed, which is an explicit argument here.
    - [tf.gradients] is modelled on scalar nodes: it follows the value
      inputs of sums, products, [tf.maximum] and [tf.where], never the
      comparison that selects a branch, and reports [None] when no such
      path reaches the placeholder.
    - [tf.matrix_solve] is a primitive of the host and a parameter here.
    - Python exceptions are values of [Error]; methods that mutate [self]
      are state-passing functions in the monad [M].
    - The bandwidth [sigma] of the kernel is a Python number, an [int] or
      a [float]: a division by it raises [ZeroDivisionError] when it is
      zero, and Python 2 divides two ints by floor division.  A tensor
      divided by a number raises nothing. *)

From Stdlib Require Import Reals Lra Lia List Arith Bool.
From Stdlib Require String DecimalString.
Import ListNotations.
Local Open Scope R_scope.

(** ** Errors and the state-and-exception monad *)

Inductive Error : Type :=
| AssertionError
| TypeError
| NameError
| IndexError
| AttributeError
| ValueError
| InvalidArgumentError
| ZeroDivisionError.

Definition M (S A : Type) : Type := S -> Error + (A * S).

Definition ret {S A} (a : A) : M S A := fun s => inr (a, s).

Definition bind {S A B} (c : M S A) (k : A -> M S B) : M S B :=
  fun s => match c s with
           | inl e => inl e
           | inr (a, s') => k a s'
           end.

Definition raise {S A} (e : Error) : M S A := fun _ => inl e.

Definition get {S} : M S S := fun s => inr (s, s).

(** [assert c] of Python: nothing when [c] holds, [AssertionError] otherwise. *)
Definition assert_ {S} (c : bool) : M S unit :=
  if c then ret tt else raise AssertionError.

Declare Scope monad_scope.
Delimit Scope monad_scope with monad.
Notation "x <- c ;; k" := (bind c (fun x => k))
  (at level 61, c at next level, right associativity) : monad_scope.
Notation "' p <- c ;; k" := (bind c (fun x => let p := x in k))
  (at level 61, p pattern, c at next level, right associativity) : monad_scope.
Notation "c ;;; k" := (bind c (fun _ => k))
  (at level 61, right associativity) : monad_scope.
Local Open Scope monad_scope.

(** ** Python numbers *)

Module Python.

(** A number of the host language: an [int] or a [float]. *)
Inductive number : Type :=
| Int (z : Z)
| Float (r : R).

Definition value (x : number) : R :=
  match x with
  | Int z => IZR z
  | Float r => r
  end.

(** [x * y]: an [int] when both are, a [float] otherwise. *)
Definition mul (x y : number) : number :=
  match x, y with
  | Int a, Int b => Int (a * b)
  | _, _ => Float (value x * value y)
  end.

(** [x ** n] for a literal [n >= 0]. *)
Definition pow (x : number) (n : nat) : number :=
  match x with
  | Int a => Int (a ^ Z.of_nat n)
  | Float r => Float (r ^ n)
  end.

(** [x / y] of Python 2: floor division of two ints, true division when
    one of them is a float; [ZeroDivisionError] when [y] is zero. *)
Definition div {S} (x y : number) : M S number :=
  match x, y with
  | Int a, Int b =>
      if Z.eqb b 0 then raise ZeroDivisionError else ret (Int (a / b))
  | _, _ =>
      if Req_EM_T (value y) 0 then raise ZeroDivisionError
      else ret (Float (value x / value y))
  end.

End Python.

(** ** Tensors as nested lists *)

Module Tensor.

(** [[f 0; ...; f (n-1)]]: a tensor axis of static length [n]. *)
Definition tabulate {A : Type} (n : nat) (f : nat -> A) : list A :=
  map f (seq 0 n).

(** [tf.reduce_sum] over an axis of static length [n]. *)
Definition rsum (n : nat) (f : nat -> R) : R :=
  fold_right Rplus 0 (tabulate n f).

Definition get1 (v : list R) (i : nat) : R := nth i v 0.
Definition get2 (m : list (list R)) (i j : nat) : R := get1 (nth i m []) j.
Definition get3 (t : list (list (list R))) (i j k : nat) : R :=
  get2 (nth i t []) j k.
Definition get4 (t : list (list (list (list R)))) (i j k l : nat) : R :=
  get3 (nth i t []) j k l.

(** A rank-2 tensor together with its static second dimension. *)
Record tensor2 (T : Type) : Type := mk2 {
  t_rows : list (list T);
  t_ncols : nat
}.
Arguments mk2 {T} _ _.
Arguments t_rows {T} _.
Arguments t_ncols {T} _.

(** Static first dimension. *)
Definition t_nrows {T} (X : tensor2 T) : nat := length (t_rows X).

Definition at2 (X : tensor2 R) (i k : nat) : R := get2 (t_rows X) i k.

(** The value is a well-formed tensor of shape [(m, d)]. *)
Definition shaped (m d : nat) (X : tensor2 R) : Prop :=
  t_ncols X = d /\ length (t_rows X) = m /\
  Forall (fun r => length r = d) (t_rows X).



(** [tf.eye n]. *)
Definition eye (n : nat) : list (list R) :=
  tabulate n (fun k => tabulate n (fun l => if Nat.eqb k l then 1 else 0)).

End Tensor.
Import Tensor.

(** ** The differentiable graph and [tf.gradients] *)

Module Graph.

(** Scalar nodes of the graph that depend on the placeholder [son.batch].
    [Var j k] is entry [[j, k]] of the placeholder; [Const] is a value
    with no path to it (a [tf.Variable], a Python float, a fed constant).
    [Sel a b p q] is [tf.where(a >= b, p, q)], the node the gradient of
    [tf.maximum] creates. *)
Inductive expr : Type :=
| Const (c : R)
| Var (j k : nat)
| Add (a b : expr)
| Mul (a b : expr)
| Max (a b : expr)
| Sel (a b p q : expr).

(** Value of a node when the placeholder is fed [feed]. *)
Fixpoint eval (feed : list (list R)) (e : expr) : R :=
  match e with
  | Const c => c
  | Var j k => get2 feed j k
  | Add a b => eval feed a + eval feed b
  | Mul a b => eval feed a * eval feed b
  | Max a b => Rmax (eval feed a) (eval feed b)
  | Sel a b p q =>
      if Rle_dec (eval feed b) (eval feed a) then eval feed p else eval feed q
  end.

Definition or_zero (o : option expr) : expr :=
  match o with
  | Some e => e
  | None => Const 0
  end.

(** Backpropagation from the scalar [e] to entry [[j, k]] of the
    placeholder.  [None] is TensorFlow's "no differentiable path":
    constants have none, and the comparison that selects a branch of
    [tf.maximum] / [tf.where] is not differentiable, so a [Sel] is
    reached only through its two value inputs.  The gradient of
    [tf.maximum(a, b)] goes to [a] where [a >= b] and to [b] elsewhere. *)
Fixpoint diff (e : expr) (j k : nat) : option expr :=
  match e with
  | Const _ => None
  | Var j' k' => if Nat.eqb j j' && Nat.eqb k k' then Some (Const 1) else None
  | Add a b =>
      match diff a j k, diff b j k with
      | None, None => None
      | Some a', None => Some a'
      | None, Some b' => Some b'
      | Some a', Some b' => Some (Add a' b')
      end
  | Mul a b =>
      match diff a j k, diff b j k with
      | None, None => None
      | Some a', None => Some (Mul a' b)
      | None, Some b' => Some (Mul a b')
      | Some a', Some b' => Some (Add (Mul a' b) (Mul a b'))
      end
  | Max a b =>
      match diff a j k, diff b j k with
      | None, None => None
      | da, db => Some (Sel a b (or_zero da) (or_zero db))
      end
  | Sel a b p q =>
      match diff p j k, diff q j k with
      | None, None => None
      | dp, dq => Some (Sel a b (or_zero dp) (or_zero dq))
      end
  end.

(** [tf.reduce_sum] of symbolic scalars. *)
Definition esum (n : nat) (f : nat -> expr) : expr :=
  fold_right Add (Const 0) (tabulate n f).

Definition eget2 (m : list (list expr)) (i j : nat) : expr :=
  nth j (nth i m []) (Const 0).

Definition is_none {A} (o : option A) : bool :=
  match o with
  | None => true
  | Some _ => false
  end.

(** A placeholder of static shape [(n, d)]. *)
Record placeholder : Type := mkph { ph_n : nat; ph_d : nat }.

(** The symbolic tensor of a placeholder. *)
Definition ph_tensor (x : placeholder) : tensor2 expr :=
  mk2 (tabulate (ph_n x) (fun j => tabulate (ph_d x) (fun k => Var j k)))
      (ph_d x).

(** A tensor of known values seen as graph nodes. *)
Definition const_tensor (v : tensor2 R) : tensor2 expr :=
  mk2 (map (map Const) (t_rows v)) (t_ncols v).

Definition eval2 (feed : list (list R)) (t : list (list expr))
  : list (list R) :=
  map (map (eval feed)) t.

Definition eval3 (feed : list (list R)) (t : list (list (list expr)))
  : list (list (list R)) :=
  map (eval2 feed) t.

(** [tf.gradients(f, x)[0]] for a scalar [f] and the placeholder [x]:
    [None] when no entry of [x] has a differentiable path to [f],
    otherwise the tensor of partial derivatives, with zero where a
    single entry has no path. *)
Definition tf_gradients (f : expr) (x : placeholder)
  : option (list (list expr)) :=
  let G := tabulate (ph_n x) (fun j =>
             tabulate (ph_d x) (fun k => diff f j k)) in
  if forallb (forallb is_none) G then None
  else Some (map (map or_zero) G).

(** [tf.zeros_like(x)]. *)
Definition zeros_like (x : placeholder) : list (list expr) :=
  tabulate (ph_n x) (fun _ => tabulate (ph_d x) (fun _ => Const 0)).

End Graph.
Import Graph.

(** ** class GaussianKernel *)

Module GaussianKernel.

(** The object: the bandwidth [self.sigma], a Python number, and the
    three fields [__init__] sets to [None]; [pdist2] is overwritten by
    every distance computation. *)
Record t : Type := mk {
  sigma_obj : Python.number;
  pdist2 : option (list (list R));
  grad : option (list (list (list R)));
  hess : option (list (list (list (list R))))
}.

(** The value of [self.sigma], as the tensor operations see it. *)
Definition sigma (self : t) : R := Python.value (sigma_obj self).
Arguments sigma !self /.

(** [__init__(self, ndim, sigma = 1.0, X = None, npoint = None)]. *)
Definition init (ndim : nat) (sigma : Python.number) : t :=
  mk sigma None None None.

(** [self.pdist2 = p]. *)
Definition set_pdist2 (p : list (list R)) : M t unit :=
  fun self => inr (tt, mk (sigma_obj self) (Some p) (grad self) (hess self)).

(** [get_pdist2(self, X, Y)] on rank-2 inputs (the two rank-1 promotions
    do not apply to a [tensor2]). *)
Definition get_pdist2 (X Y : tensor2 R) : M t (list (list R)) :=
  assert_ (Nat.eqb (t_ncols X) (t_ncols Y)) ;;;
  let m := t_nrows X in
  let n := t_nrows Y in
  (* tf.reduce_sum(X**2, axis=1, keep_dims=True) *)
  let XX := tabulate m (fun i => rsum (t_ncols X) (fun k => at2 X i k ^ 2)) in
  (* tf.matmul(X, Y, transpose_b = True) *)
  let XY := tabulate m (fun i => tabulate n (fun j =>
              rsum (t_ncols X) (fun k => at2 X i k * at2 Y j k))) in
  (* pdist2 -= 2.0 * ... *)
  let p1 := tabulate m (fun i => tabulate n (fun j =>
              get1 XX i - 2 * get2 XY i j)) in
  (* tf.matrix_transpose(tf.reduce_sum(Y**2, axis=1, keep_dims=True)) *)
  let YY := tabulate n (fun j => rsum (t_ncols Y) (fun k => at2 Y j k ^ 2)) in
  (* pdist2 += ... *)
  let p2 := tabulate m (fun i => tabulate n (fun j =>
              get2 p1 i j + get1 YY j)) in
  set_pdist2 p2 ;;;
  ret p2.

(** [get_gram_matrix(self, X, Y)]: the quotient [-0.5/sigma] is taken
    by the host language, after the distances are stored. *)
Definition get_gram_matrix (X Y : tensor2 R) : M t (list (list R)) :=
  pdist2 <- get_pdist2 X Y ;;
  self <- get ;;
  let sigma := sigma_obj self in
  c <- Python.div (Python.Float (- 0.5)) sigma ;;
  ret (map (map (fun p => exp (Python.value c * p))) pdist2).

(** [(tf.expand_dims(X, 1) - tf.expand_dims(Y, 0))/self.sigma], of shape
    [(m, n, d)]. *)
Definition diff_over_sigma (sigma : R) (X Y : tensor2 R)
  : list (list (list R)) :=
  tabulate (t_nrows X) (fun i => tabulate (t_nrows Y) (fun j =>
    tabulate (t_ncols X) (fun k => (at2 X i k - at2 Y j k) / sigma))).

(** [tf.einsum('ijk,ijl->ijkl', D, D)]. *)
Definition outer (m n d : nat) (D : list (list (list R)))
  : list (list (list (list R))) :=
  tabulate m (fun i => tabulate n (fun j =>
    tabulate d (fun k => tabulate d (fun l => get3 D i j k * get3 D i j l)))).

(** [tf.eye(d)/self.sigma]. *)
Definition eye_over_sigma (sigma : R) (d : nat) : list (list R) :=
  map (map (fun e => e / sigma)) (eye d).

(** [get_grad_gram(self, X, Y)]: returns [K] and [gram[:,:,None]]. *)
Definition get_grad_gram (X Y : tensor2 R)
  : M t (list (list (list R)) * list (list (list R))) :=
  gram <- get_gram_matrix X Y ;;
  self <- get ;;
  let m := t_nrows X in
  let n := t_nrows Y in
  let d := t_ncols X in
  let D := diff_over_sigma (sigma self) X Y in
  let K := tabulate m (fun i => tabulate n (fun j =>
             tabulate d (fun k => get2 gram i j * get3 D i j k))) in
  ret (K, map (map (fun g => [g])) gram).

(** [get_grad(self, X, Y)]. *)
Definition get_grad (X Y : tensor2 R) : M t (list (list (list R))) :=
  ' (K, _) <- get_grad_gram X Y ;;
  ret K.

(** [get_hess(self, X, Y)]. *)
Definition get_hess (X Y : tensor2 R)
  : M t (list (list (list (list R)))) :=
  gram <- get_gram_matrix X Y ;;
  self <- get ;;
  let m := t_nrows X in
  let n := t_nrows Y in
  let d := t_ncols X in
  let D := diff_over_sigma (sigma self) X Y in
  let D2 := outer m n d D in
  let I := eye_over_sigma (sigma self) d in
  let K := tabulate m (fun i => tabulate n (fun j =>
             tabulate d (fun k => tabulate d (fun l =>
               get2 gram i j * (get4 D2 i j k l - get2 I k l))))) in
  ret K.

(** [get_grad_hess(self, X, Y)]. *)
Definition get_grad_hess (X Y : tensor2 R)
  : M t (list (list (list R)) * list (list (list (list R)))) :=
  gram <- get_gram_matrix X Y ;;
  self <- get ;;
  let m := t_nrows X in
  let n := t_nrows Y in
  let d := t_ncols X in
  let D := diff_over_sigma (sigma self) X Y in
  let K1 := tabulate m (fun i => tabulate n (fun j =>
              tabulate d (fun k => get2 gram i j * get3 D i j k))) in
  let D2 := outer m n d D in
  let I := eye_over_sigma (sigma self) d in
  let K2 := tabulate m (fun i => tabulate n (fun j =>
              tabulate d (fun k => tabulate d (fun l =>
                get2 gram i j * (get4 D2 i j k l - get2 I k l))))) in
  ret (K1, K2).

(** [get_two_grad_cross_hess(self, X, Y)]. *)
Definition get_two_grad_cross_hess (X Y : tensor2 R)
  : M t (list (list (list R)) * list (list (list R)) *
         list (list (list (list R))) * list (list R)) :=
  gram <- get_gram_matrix X Y ;;
  self <- get ;;
  let m := t_nrows X in
  let n := t_nrows Y in
  let d := t_ncols X in
  let D := diff_over_sigma (sigma self) X Y in
  let K2 := tabulate m (fun i => tabulate n (fun j =>
              tabulate d (fun k => get2 gram i j * get3 D i j k))) in
  let K1 := map (map (map Ropp)) K2 in
  let D2 := outer m n d D in
  let I := eye_over_sigma (sigma self) d in
  let K3 := tabulate m (fun i => tabulate n (fun j =>
              tabulate d (fun k => tabulate d (fun l =>
                get2 gram i j * (get2 I k l - get4 D2 i j k l))))) in
  ret (K1, K2, K3, gram).

End GaussianKernel.

(** ** class Network and its subclasses LinearNetwork, LinearReLUNetwork *)

Module Network.

(** The two piecewise-linear subclasses.  [lin_grads] is the two-element
    list of the constructor, as the pair [(lin_grads[0], lin_grads[1])]. *)
Inductive kind : Type :=
| LinearNetwork
| LinearReLUNetwork (lin_grads : R * R).

(** The object.  Both subclasses multiply the rank-2 batch by [W] with
    [tf.matmul] and index [W[None,:,:]], so [ndim_in] is a one-element
    tuple [(ndim_in,)]; [ndim_out] is the tuple [(ndim_out,)]; [W] is the
    variable of shape [(ndim_out, ndim_in)] and [b] the row of the
    variable of shape [(1, ndim_out)]. *)
Record t : Type := mk {
  cls : kind;
  ndim_in : nat;
  ndim_out : nat;
  batch_size : nat;
  W : list (list R);
  b : list R
}.

(** [reshape_data_tensor(self, x)] on a rank-2 tensor: its rank differs
    from [len(self.ndim_in)], so only the [else] branch applies. *)
Definition reshape_data_tensor {S T} (self : t) (x : tensor2 T)
  : M S (tensor2 T * bool) :=
  if negb (Nat.eqb (t_ncols x) (ndim_in self)) then raise NameError
  else ret (x, false).

(** [tf.matmul(data, W, transpose_b = True)] followed by [out += b]. *)
Definition affine (self : t) (data : tensor2 expr) : list (list expr) :=
  tabulate (t_nrows data) (fun j => tabulate (ndim_out self) (fun o =>
    Add (esum (ndim_in self) (fun k =>
           Mul (eget2 (t_rows data) j k) (Const (get2 (W self) o k))))
        (Const (get1 (b self) o)))).

(** [forward_tensor(self, data, param = None)] of the two subclasses;
    [single] is false on rank-2 data, so [out[0]] is never taken. *)
Definition forward_tensor {S} (self : t) (data : tensor2 expr)
  : M S (tensor2 expr) :=
  ' (data, single) <- reshape_data_tensor self data ;;
  let out := affine self data in
  match cls self with
  | LinearNetwork => ret (mk2 out (ndim_out self))
  | LinearReLUNetwork (g0, g1) =>
      (* tf.maximum(out * self.lin_grads[1], out * self.lin_grads[0]) *)
      let out := map (map (fun z =>
                   Max (Mul z (Const g1)) (Mul z (Const g0)))) out in
      ret (mk2 out (ndim_out self))
  end.

(** Value of a symbolic tensor under a feed of the placeholder. *)
Definition value (feed : list (list R)) (y : tensor2 expr) : tensor2 R :=
  mk2 (eval2 feed (t_rows y)) (t_ncols y).

(** [forward_tensor] applied to a tensor of known values. *)
Definition forward_value {S} (self : t) (data : tensor2 R)
  : M S (tensor2 R) :=
  y <- forward_tensor self (const_tensor data) ;;
  ret (value [] y).

(** class SumOutputNet: the batch placeholder, the network output on it
    and its sum over the batch axis. *)
Record SumOutputNet : Type := mkson {
  batch : placeholder;
  output : tensor2 expr;
  sum_output : list expr
}.

(** [SumOutputNet.__init__(self, net)]. *)
Definition SumOutputNet_init {S} (net : t) : M S SumOutputNet :=
  let batch := mkph (batch_size net) (ndim_in net) in
  output <- forward_tensor net (ph_tensor batch) ;;
  let sum_output := tabulate (t_ncols output) (fun o =>
                      esum (t_nrows output) (fun j =>
                        eget2 (t_rows output) j o)) in
  ret (mkson batch output sum_output).

(** [tf.stack] of the gradients: a [None] among them is not a tensor. *)
Fixpoint stack_gradients {S} (gs : list (option (list (list expr))))
  : M S (list (list (list expr))) :=
  match gs with
  | [] => ret []
  | None :: _ => raise ValueError
  | Some g :: gs' =>
      rest <- stack_gradients gs' ;;
      ret (g :: rest)
  end.

(** [Network.get_grad_data(self)], the method of the base class. *)
Definition Network_get_grad_data {S} (self : t)
  : M S (list (list (list expr)) * tensor2 expr * placeholder) :=
  son <- SumOutputNet_init self ;;
  grad <- stack_gradients
            (tabulate (ndim_out self) (fun oi =>
               tf_gradients (nth oi (sum_output son) (Const 0)) (batch son))) ;;
  ret (grad, output son, batch son).

(** [_grad_zero(f, x)]: [x] is a list of placeholders. *)
Definition _grad_zero (f : expr) (x : list placeholder)
  : list (list (list expr)) :=
  map (fun xi => match tf_gradients f xi with
                 | None => zeros_like xi
                 | Some g => g
                 end) x.

(** [Network.get_sec_data(self)], inherited by both subclasses.  With
    [ndim_in = (d,)] the raveled index [i] unravels to [(i,)], so the
    gathered indices are [[j, i]] for [j] in the batch. *)
Definition get_sec_data {S} (self : t)
  : M S (list (list (list expr)) * list (list (list expr)) *
         tensor2 expr * placeholder) :=
  son <- SumOutputNet_init self ;;
  grad <- stack_gradients
            (tabulate (ndim_out self) (fun oi =>
               tf_gradients (nth oi (sum_output son) (Const 0)) (batch son))) ;;
  (* sum_grad = tf.reduce_sum(grad, 1); g_flat = tf.reshape(sum_grad, ...) *)
  let g_flat := tabulate (ndim_out self) (fun oi =>
                  tabulate (ndim_in self) (fun i =>
                    esum (batch_size self) (fun j =>
                      eget2 (nth oi grad []) j i))) in
  let sec := tabulate (ndim_out self) (fun oi =>
               tabulate (ndim_in self) (fun i =>
                 (* tf.gather_nd(..., [[j, i] for j]) *)
                 tabulate (batch_size self) (fun j =>
                   eget2 (nth 0 (_grad_zero (eget2 g_flat oi i) [batch son]) [])
                         j i))) in
  (* tf.transpose(sec_stack, perm=[0,2,1]) and the final reshape *)
  let sec_stack := tabulate (ndim_out self) (fun oi =>
                     tabulate (batch_size self) (fun j =>
                       tabulate (ndim_in self) (fun i =>
                         nth j (nth i (nth oi sec []) []) (Const 0)))) in
  ret (sec_stack, grad, output son, batch son).


(** [tf.transpose(grad, [1,0,2])] of a tensor of shape [(n, a, d)]. *)
Definition transpose102 (a n d : nat) (g : list (list (list R)))
  : list (list (list R)) :=
  tabulate a (fun o => tabulate n (fun j => tabulate d (fun k =>
    get3 g j o k))).

(** [LinearNetwork.get_grad_data(self)]. *)
Definition LinearNetwork_get_grad_data {S} (self : t)
  (feed : list (list R))
  : M S (list (list (list R)) * tensor2 R * placeholder) :=
  let data := mkph (batch_size self) (ndim_in self) in
  ' (x, single) <- reshape_data_tensor self (ph_tensor data) ;;
  output <- forward_tensor self x ;;
  (* tf.tile(W[None,:,:], [self.batch_size, 1, 1]) *)
  let grad := tabulate (batch_size self) (fun _ => W self) in
  let grad := transpose102 (ndim_out self) (batch_size self)
                           (ndim_in self) grad in
  ret (grad, value feed output, data).

(** [tf.cast(o > 0, 'float32')] and [tf.cast(o <= 0, 'float32')]. *)
Definition cast_gt0 (o : R) : R := if Rlt_dec 0 o then 1 else 0.
Definition cast_le0 (o : R) : R := if Rle_dec o 0 then 1 else 0.

(** [LinearReLUNetwork.get_grad_input(self, i, o)], shape
    [(batch, ndim_out, ndim_in)]. *)
Definition get_grad_input (self : t) (lin_grads : R * R) (o : tensor2 R)
  : list (list (list R)) :=
  tabulate (t_nrows o) (fun j => tabulate (ndim_out self) (fun oi =>
    tabulate (ndim_in self) (fun k =>
      (snd lin_grads * cast_gt0 (at2 o j oi) +
       fst lin_grads * cast_le0 (at2 o j oi)) * get2 (W self) oi k))).

(** [LinearReLUNetwork.get_grad_data(self)]. *)
Definition LinearReLUNetwork_get_grad_data {S} (self : t)
  (lin_grads : R * R) (feed : list (list R))
  : M S (list (list (list R)) * tensor2 R * placeholder) :=
  let data := mkph (batch_size self) (ndim_in self) in
  ' (x, _) <- reshape_data_tensor self (ph_tensor data) ;;
  out <- forward_tensor self x ;;
  let out := value feed out in
  let grad := get_grad_input self lin_grads out in
  let grad := transpose102 (ndim_out self) (batch_size self)
                           (ndim_in self) grad in
  ret (grad, out, data).

(** [self.network.get_grad_data()]: both subclasses override the method
    of the base class. *)
Definition get_grad_data {S} (self : t) (feed : list (list R))
  : M S (list (list (list R)) * tensor2 R * placeholder) :=
  match cls self with
  | LinearNetwork => LinearNetwork_get_grad_data self feed
  | LinearReLUNetwork lin_grads =>
      LinearReLUNetwork_get_grad_data self lin_grads feed
  end.

End Network.

(** ** class Network: the inherited methods, for any subclass *)

Module BaseNetwork.

Section Methods.

Context {S : Type}.

(** What the methods of the base class read of [self]: the three shape
    fields (with [ndim_in = (ndim_in,)] and [ndim_out = (ndim_out,)]) and
    the subclass's [forward_tensor]. *)
Variables (ndim_in ndim_out batch_size : nat).
Variable forward_tensor : tensor2 expr -> M S (tensor2 expr).

(** [SumOutputNet.__init__(self, net)]. *)
Definition SumOutputNet_init : M S Network.SumOutputNet :=
  let batch := mkph batch_size ndim_in in
  output <- forward_tensor (ph_tensor batch) ;;
  let sum_output := tabulate (t_ncols output) (fun o =>
                      esum (t_nrows output) (fun j =>
                        eget2 (t_rows output) j o)) in
  ret (Network.mkson batch output sum_output).

(** [Network.get_grad_data(self)]. *)
Definition get_grad_data
  : M S (list (list (list expr)) * tensor2 expr * placeholder) :=
  son <- SumOutputNet_init ;;
  grad <- Network.stack_gradients
            (tabulate ndim_out (fun oi =>
               tf_gradients (nth oi (Network.sum_output son) (Const 0))
                            (Network.batch son))) ;;
  ret (grad, Network.output son, Network.batch son).

(** [Network.get_sec_data(self)]. *)
Definition get_sec_data
  : M S (list (list (list expr)) * list (list (list expr)) *
         tensor2 expr * placeholder) :=
  son <- SumOutputNet_init ;;
  grad <- Network.stack_gradients
            (tabulate ndim_out (fun oi =>
               tf_gradients (nth oi (Network.sum_output son) (Const 0))
                            (Network.batch son))) ;;
  (* sum_grad = tf.reduce_sum(grad, 1); g_flat = tf.reshape(sum_grad, ...) *)
  let g_flat := tabulate ndim_out (fun oi =>
                  tabulate ndim_in (fun i =>
                    esum batch_size (fun j =>
                      eget2 (nth oi grad []) j i))) in
  let sec := tabulate ndim_out (fun oi =>
               tabulate ndim_in (fun i =>
                 (* tf.gather_nd(..., [[j, i] for j]) *)
                 tabulate batch_size (fun j =>
                   eget2 (nth 0 (Network._grad_zero (eget2 g_flat oi i)
                                   [Network.batch son]) [])
                         j i))) in
  (* tf.transpose(sec_stack, perm=[0,2,1]) and the final reshape *)
  let sec_stack := tabulate ndim_out (fun oi =>
                     tabulate batch_size (fun j =>
                       tabulate ndim_in (fun i =>
                         nth j (nth i (nth oi sec []) []) (Const 0)))) in
  ret (sec_stack, grad, Network.output son, Network.batch son).

End Methods.

End BaseNetwork.

(** ** class SquareNetwork *)

Module SquareNetwork.

(** The object: the fields of a [LinearNetwork]. *)
Record t : Type := mk {
  ndim_in : nat;
  ndim_out : nat;
  batch_size : nat;
  W : list (list R);
  b : list R
}.

(** [reshape_data_tensor(self, x)], inherited, on a rank-2 tensor. *)
Definition reshape_data_tensor {S T} (self : t) (x : tensor2 T)
  : M S (tensor2 T * bool) :=
  if negb (Nat.eqb (t_ncols x) (ndim_in self)) then raise NameError
  else ret (x, false).

(** [forward_tensor(self, data, param = None)].  The node [out ** 2.0] is
    represented by the product [out * out]: the two have the same value,
    and [tf.gradients] gives both derivatives of the same value at every
    order ([2 * out] and [2] times those of [out]). *)
Definition forward_tensor {S} (self : t) (data : tensor2 expr)
  : M S (tensor2 expr) :=
  ' (data, single) <- reshape_data_tensor self data ;;
  (* out = tf.matmul(data, W, transpose_b = True); out += b *)
  let out := tabulate (t_nrows data) (fun j =>
               tabulate (ndim_out self) (fun o =>
                 Add (esum (ndim_in self) (fun k =>
                        Mul (eget2 (t_rows data) j k)
                            (Const (get2 (W self) o k))))
                     (Const (get1 (b self) o)))) in
  (* out = out ** 2.0 *)
  let out := map (map (fun z => Mul z z)) out in
  ret (mk2 out (ndim_out self)).

(** [get_grad_data(self)] and [get_sec_data(self)]: the class defines
    neither, so the methods of [Network] run. *)
Definition get_grad_data {S} (self : t)
  : M S (list (list (list expr)) * tensor2 expr * placeholder) :=
  BaseNetwork.get_grad_data (ndim_in self) (ndim_out self) (batch_size self)
    (forward_tensor self).

Definition get_sec_data {S} (self : t)
  : M S (list (list (list expr)) * list (list (list expr)) *
         tensor2 expr * placeholder) :=
  BaseNetwork.get_sec_data (ndim_in self) (ndim_out self) (batch_size self)
    (forward_tensor self).

End SquareNetwork.

(** ** class KernelNetModel *)

Module KernelNetModel.

(** The object.  [X] is absent until [set_points] (or a score method)
    stores the network output on the basis points. *)
Record t : Type := mk {
  alpha : list R;
  npoint : nat;
  ndim : nat;
  ndim_in : nat;
  network : Network.t;
  kernel : GaussianKernel.t;
  X : option (tensor2 R)
}.

(** [self.X = x]. *)
Definition set_X (x : tensor2 R) : M t unit :=
  fun self => inr (tt, mk (alpha self) (npoint self) (ndim self)
                          (ndim_in self) (network self) (kernel self)
                          (Some x)).

(** [self.alpha = a]. *)
Definition set_alpha (a : list R) : M t unit :=
  fun self => inr (tt, mk a (npoint self) (ndim self) (ndim_in self)
                          (network self) (kernel self) (X self)).

(** A method of [self.kernel], run on the kernel the model owns. *)
Definition with_kernel {A} (c : M GaussianKernel.t A) : M t A :=
  fun self =>
    match c (kernel self) with
    | inl e => inl e
    | inr (a, k) =>
        inr (a, mk (alpha self) (npoint self) (ndim self) (ndim_in self)
                   (network self) k (X self))
    end.

(** Reading [self.X]. *)
Definition get_X : M t (tensor2 R) :=
  self <- get ;;
  match X self with
  | Some x => ret x
  | None => raise AttributeError
  end.

(** A placeholder of shape [(n, d)] under its feed [v], a value of that
    shape (the host accepts no other). *)
Definition fed (n d : nat) (v : list (list R)) : tensor2 R :=
  mk2 (tabulate n (fun i => tabulate d (fun k => get2 v i k))) d.

(** [_process_data(self, data)]. *)
Definition _process_data (data : tensor2 R) : M t (tensor2 R) :=
  self <- get ;;
  Network.forward_value (network self) data.

(** [set_points(self, points)]. *)
Definition set_points (points : tensor2 R) : M t unit :=
  self <- get ;;
  assert_ (Nat.eqb (t_ncols points) (ndim_in self)) ;;;
  x <- Network.forward_value (network self) points ;;
  set_X x.

(** [__init__(self, kernel, network, alpha, points = None)]. *)
Definition init (kernel : GaussianKernel.t) (network : Network.t)
  (alpha : list R) (points : option (tensor2 R)) : Error + t :=
  let self := mk alpha (length alpha) (Network.ndim_out network)
                 (Network.ndim_in network) network kernel None in
  match points with
  | None => inr self
  | Some p => match set_points p self with
              | inl e => inl e
              | inr (_, self') => inr self'
              end
  end.

(** [evaluate_kernel_fun(self, Y)] on rank-2 [Y]:
    [tf.einsum('i,ij', self.alpha, gram)]. *)
Definition evaluate_kernel_fun (Y : tensor2 R) : M t (list R) :=
  x <- get_X ;;
  gram <- with_kernel (GaussianKernel.get_gram_matrix x Y) ;;
  self <- get ;;
  ret (tabulate (t_nrows Y) (fun j =>
         rsum (npoint self) (fun i => get1 (alpha self) i * get2 gram i j))).

(** [get_kernel_fun_grad_hess(self, Y)]: the two reductions over the
    basis-point axis, which [alpha] indexes. *)
Definition get_kernel_fun_grad_hess (Y : tensor2 R)
  : M t (list (list R) * list (list (list R))) :=
  x <- get_X ;;
  ' (K1, K2) <- with_kernel (GaussianKernel.get_grad_hess x Y) ;;
  self <- get ;;
  let n := t_nrows Y in
  let d := t_ncols x in
  let grad := tabulate n (fun j => tabulate d (fun k =>
                rsum (npoint self) (fun i =>
                  get1 (alpha self) i * get3 K1 i j k))) in
  let hess := tabulate n (fun j => tabulate d (fun k => tabulate d (fun l =>
                rsum (npoint self) (fun i =>
                  get1 (alpha self) i * get4 K2 i j k l)))) in
  ret (grad, hess).



(** A call [f(args)] of a bound method declared with exactly two
    parameters after [self]: with any other number of arguments Python
    raises [TypeError] before the body runs. *)
Definition call2 {S A T} (f : T -> T -> M S A) (args : list T) : M S A :=
  match args with
  | [x; y] => f x y
  | _ => raise TypeError
  end.

(** [tf.squeeze] removes every axis of size one: from static shape
    [(n, 1)] the result has rank 1, or rank 0 when [n = 1]. *)
Inductive squeezed : Type :=
| Rank0 (x : R)
| Rank1 (v : list R).

Definition squeeze (n : nat) (a : list (list R)) : squeezed :=
  if Nat.eqb n 1 then Rank0 (get2 a 0 0)
  else Rank1 (tabulate n (fun i => get2 a i 0)).

(** The static shape of [tf.squeeze] on a tensor of static shape
    [(n, 1)]. *)
Definition squeeze_shape (n : nat) : list nat :=
  if Nat.eqb n 1 then [] else [n].

(** [tf.assign(self.alpha, value)] when the node is built: the variable
    has static shape [(npoint,)] and the static shape of [value] is
    validated against it. *)
Definition assign_check (shape : list nat) : M t unit :=
  self <- get ;;
  match shape with
  | [n] => if Nat.eqb n (npoint self) then ret tt else raise ValueError
  | _ => raise ValueError
  end.

(** [self.alpha = tf.assign(self.alpha, value)] when the host runs the
    node. *)
Definition assign_alpha (value : squeezed) : M t (list R) :=
  match value with
  | Rank1 v => set_alpha v ;;; ret v
  | Rank0 _ => raise ValueError
  end.

(** [_kernel_score_stats(self, Y)].  In [1/sigma] the numerator is an
    int: the host language divides by floor division when [sigma] is an
    int too. *)
Definition _kernel_score_stats (Y : tensor2 R)
  : M t (list R * list (list R)) :=
  X <- get_X ;;
  self <- get ;;
  let sigma := GaussianKernel.sigma_obj (kernel self) in
  let D := ndim self in
  K <- with_kernel (GaussianKernel.get_gram_matrix X Y) ;;
  let m := t_nrows X in
  let n := t_nrows Y in
  let d := t_ncols X in
  (* S = tf.expand_dims(X,1) - tf.expand_dims(Y,0) *)
  let S := tabulate m (fun i => tabulate n (fun j => tabulate d (fun l =>
             at2 X i l - at2 Y j l))) in
  (* b = -D * tf.reduce_sum(K,1) *)
  let b := tabulate m (fun i => - INR D * rsum n (fun j => get2 K i j)) in
  (* b += 1/sigma * tf.reduce_sum(K * tf.reduce_sum(S**2, 2), 1) *)
  c <- Python.div (Python.Int 1) sigma ;;
  let b := tabulate m (fun i =>
             get1 b i + Python.value c * rsum n (fun j =>
               get2 K i j * rsum d (fun l => get3 S i j l ^ 2))) in
  (* A = S * K_exp *)
  let A := tabulate m (fun i => tabulate n (fun j => tabulate d (fun l =>
             get3 S i j l * get2 K i j))) in
  (* SA = tf.einsum('ikl,jkl->ij', A, A) *)
  let SA := tabulate m (fun i => tabulate m (fun j =>
              rsum n (fun k => rsum d (fun l =>
                get3 A i k l * get3 A j k l)))) in
  let C := SA in
  ret (b, C).

(** [kernel_score(self, data)].  The two coefficients are quotients of
    the host language, by the int [ndata] and by [sigma]. *)
Definition kernel_score (data : tensor2 R) : M t R :=
  Y <- _process_data data ;;
  let ndata := Python.Int (Z.of_nat (t_nrows data)) in
  self <- get ;;
  let alpha := alpha self in
  let sigma := GaussianKernel.sigma_obj (kernel self) in
  ' (b, C) <- _kernel_score_stats Y ;;
  let np := npoint self in
  (* 1.0 / ndata / sigma *)
  c1 <- Python.div (Python.Float 1) ndata ;;
  c1 <- Python.div c1 sigma ;;
  (* 0.5 / ndata / sigma**2 *)
  c2 <- Python.div (Python.Float 0.5) ndata ;;
  c2 <- Python.div c2 (Python.pow sigma 2) ;;
  ret (Python.value c1 * rsum np (fun i => get1 alpha i * get1 b i) +
       Python.value c2 *
         rsum np (fun i => rsum np (fun j =>
           get1 alpha i * get2 C i j * get1 alpha j))).

(** The statement [D = 1.0/sigma*self.kernel.pdist2 - ndim] of
    [score_original], which reads the field [pdist2] of the kernel. *)
Definition score_original_D (sigma : Python.number) (ndim : nat)
  : M t (list (list R)) :=
  c <- Python.div (Python.Float 1) sigma ;;
  self <- get ;;
  match GaussianKernel.pdist2 (kernel self) with
  | None => raise TypeError
  | Some pdist2 =>
      ret (map (map (fun p => Python.value c * p - INR ndim)) pdist2)
  end.

Section Kernel.

(** The method [get_gram_matrix] of the object [self.kernel]: the call
    [self.kernel.get_gram_matrix(self.X, Y)] is dispatched on the kernel
    the model was built with. *)
Variable get_gram_matrix :
  tensor2 R -> tensor2 R -> M GaussianKernel.t (list (list R)).

(** [score_original], up to the Gram matrix: the network output [Y] and
    [K = self.kernel.get_gram_matrix(self.X, Y)]. *)
Definition score_original_K (data : tensor2 R)
  : M t (tensor2 R * list (list R)) :=
  self <- get ;;
  Y <- Network.forward_value (network self) data ;;
  X <- get_X ;;
  K <- with_kernel (get_gram_matrix X Y) ;;
  ret (Y, K).

(** [score_original(self, data)], for the kernel method above. *)
Definition score_original_with (data : tensor2 R) : M t R :=
  self <- get ;;
  let sigma := Python.mul (GaussianKernel.sigma_obj (kernel self))
                 (Python.Int 1) in
  let N := Python.Int (Z.of_nat (t_nrows data)) in
  let alpha := alpha self in
  let ndim := ndim self in
  ' (Y, K) <- score_original_K data ;;
  D <- score_original_D sigma ndim ;;
  X <- get_X ;;
  let m := t_nrows X in
  let n := t_nrows Y in
  let d := t_ncols X in
  (* J = tf.reduce_sum(tf.expand_dims(alpha,1) * K * D) * 1.0 / N / sigma *)
  let J := rsum m (fun i => rsum n (fun j =>
             get1 alpha i * get2 K i j * get2 D i j))
           * 1 / Python.value N / Python.value sigma in
  let S := tabulate m (fun i => tabulate n (fun j => tabulate d (fun l =>
             at2 X i l - at2 Y j l))) in
  (* 0.5/N/(sigma**2) *)
  c <- Python.div (Python.Float 0.5) N ;;
  c <- Python.div c (Python.pow sigma 2) ;;
  (* tf.reduce_sum(alpha_exp * S * K_exp, 0) *)
  let T := tabulate n (fun j => tabulate d (fun l =>
             rsum m (fun i => get1 alpha i * get3 S i j l * get2 K i j))) in
  let J := J + Python.value c *
                 rsum n (fun j => rsum d (fun l => get2 T j l ^ 2)) in
  ret J.

End Kernel.

(** [score_original(self, data)] on a model whose kernel is a
    [GaussianKernel]. *)
Definition score_original (data : tensor2 R) : M t R :=
  score_original_with GaussianKernel.get_gram_matrix data.

Section Solve.

(** [tf.matrix_solve(A, rhs)], a primitive of the host: the solution
    of shape [(n, 1)], or [None] when the host rejects the matrix as
    not invertible. *)
Variable matrix_solve :
  list (list R) -> list (list R) -> option (list (list R)).

Definition solve (A rhs : list (list R)) : M t (list (list R)) :=
  match matrix_solve A rhs with
  | Some x => ret x
  | None => raise InvalidArgumentError
  end.

(** [get_opt_alpha(self)], in the representation of [score]. *)
Definition get_opt_alpha (points data : list (list R))
  : M t (list R * R) :=
  self <- get ;;
  let points := fed (npoint self) (ndim_in self) points in
  p <- _process_data points ;;
  set_points p ;;;
  ' (d2ydx2, dydx, y, _) <- Network.get_sec_data (network self) ;;
  let d2ydx2 := eval3 data d2ydx2 in
  let dydx := eval3 data dydx in
  let y := Network.value data y in
  (* gradK = self.kernel.get_grad(y); hessK = self.kernel.get_hess(y) *)
  gradK <- with_kernel (call2 GaussianKernel.get_grad [y]) ;;
  hessK <- with_kernel (call2 GaussianKernel.get_hess [y]) ;;
  self <- get ;;
  let np := npoint self in
  let nb := Network.batch_size (network self) in
  let di := ndim_in self in
  let nd := ndim self in
  (* tf.einsum('ijk,kjs->ijs', gradK, dydx) *)
  let dkdx := tabulate np (fun i => tabulate nb (fun j =>
                tabulate di (fun s =>
                  rsum nd (fun k => get3 gradK i j k * get3 dydx k j s)))) in
  (* dydx[None,...] * dydx[:,None,...] *)
  let P := tabulate nd (fun a => tabulate nd (fun c =>
             tabulate nb (fun j => tabulate di (fun s =>
               get3 dydx c j s * get3 dydx a j s)))) in
  (* tf.einsum('ijkl,kljs->ijs', hessK, P)
     + tf.einsum('ijk,kjs->ijs', gradK, d2ydx2) *)
  let d2kdx2 := tabulate np (fun i => tabulate nb (fun j =>
                  tabulate di (fun s =>
                    rsum nd (fun k => rsum nd (fun l =>
                      get4 hessK i j k l * get4 P k l j s)) +
                    rsum nd (fun k =>
                      get3 gradK i j k * get3 d2ydx2 k j s)))) in
  (* H = tf.reduce_sum(tf.reduce_sum(d2kdx2,-1), -1) *)
  let H := tabulate np (fun i =>
             rsum nb (fun j => rsum di (fun s => get3 d2kdx2 i j s))) in
  (* G = tf.einsum('iks,jks->ij', dkdx, dkdx) *)
  let G := tabulate np (fun i => tabulate np (fun j =>
             rsum nb (fun k => rsum di (fun s =>
               get3 dkdx i k s * get3 dkdx j k s)))) in
  (* tf.matrix_solve(G+tf.eye(G.shape[0].value)*0.1, -H[:,None])[:,0] *)
  sol <- solve (tabulate np (fun i => tabulate np (fun j =>
                  get2 G i j + get2 (eye np) i j * 0.1)))
               (tabulate np (fun i => [- get1 H i])) ;;
  let alpha := tabulate np (fun i => get2 sol i 0) in
  let opt_score :=
    rsum np (fun i => get1 alpha i * get1 H i) +
    0.5 * rsum np (fun i => rsum np (fun j =>
            get1 alpha i * get2 G i j * get1 alpha j)) in
  ret (alpha, opt_score).

(** [kernel_fit(self, data, lam = 0.01)].  [print C.eval()] writes to
    the standard output only.  The nodes of [tf.matrix_solve],
    [tf.squeeze] and [tf.assign] are built, and their static shapes
    validated, before the host runs any of them: [alpha_hat] has the
    static shape [(m, 1)], with [m] the length of [b]. *)
Definition kernel_fit (data : tensor2 R) (lam : R) : M t (list R) :=
  self <- get ;;
  let npoint := npoint self in
  Y <- _process_data data ;;
  ' (b, C) <- _kernel_score_stats Y ;;
  self <- get ;;
  let m := length b in
  (* tf.assign(self.alpha, tf.squeeze(alpha_hat)), when built *)
  assign_check (squeeze_shape m) ;;;
  (* tf.matrix_solve( C, tf.expand_dims(b,-1) ), when run *)
  sol <- solve C (map (fun x => [x]) b) ;;
  let alpha_hat :=
    map (map (fun x => - GaussianKernel.sigma (kernel self) * x)) sol in
  assign_alpha (squeeze m alpha_hat).

End Solve.

(** [get_kernel_fun_grad(self, Y)]. *)
Definition get_kernel_fun_grad (Y : tensor2 R)
  : M t (list (list R) * list (list (list R))) :=
  x <- get_X ;;
  K <- with_kernel (GaussianKernel.get_grad x Y) ;;
  self <- get ;;
  (* tf.reduce_sum(self.alpha[:,None, None] * K, 0) *)
  let grad := tabulate (t_nrows Y) (fun j => tabulate (t_ncols x) (fun k =>
                rsum (npoint self) (fun i =>
                  get1 (alpha self) i * get3 K i j k))) in
  ret (grad, K).

(** [get_kernel_fun_hess(self, Y)]. *)
Definition get_kernel_fun_hess (Y : tensor2 R)
  : M t (list (list (list R)) * list (list (list (list R)))) :=
  x <- get_X ;;
  K <- with_kernel (GaussianKernel.get_hess x Y) ;;
  self <- get ;;
  (* tf.reduce_sum(self.alpha[:,None, None, None] * K, 0) *)
  let d := t_ncols x in
  let hess := tabulate (t_nrows Y) (fun j => tabulate d (fun k =>
                tabulate d (fun l =>
                  rsum (npoint self) (fun i =>
                    get1 (alpha self) i * get4 K i j k l)))) in
  ret (hess, K).

End KernelNetModel.

(** ** class KernelNetMSD *)

Module KernelNetMSD.

Record t : Type := mk {
  batch_size : nat;
  ndim : nat;
  ndim_in : nat;
  network : Network.t;
  kernel : GaussianKernel.t;
  points : option (tensor2 R)
}.

(** [__init__(self, kernel, network)]. *)
Definition init (kernel : GaussianKernel.t) (network : Network.t)
  : Error + t :=
  let self := mk (Network.batch_size network) (Network.ndim_out network)
                 (Network.ndim_in network) network kernel None in
  (* assert self.ndim == self.network.ndim_out[0] *)
  if Nat.eqb (ndim self) (Network.ndim_out (KernelNetMSD.network self))
  then inr self else inl AssertionError.

(** A method of [self.kernel], run on the kernel the object owns. *)
Definition with_kernel {A} (c : M GaussianKernel.t A) : M t A :=
  fun self =>
    match c (kernel self) with
    | inl e => inl e
    | inr (a, k) =>
        inr (a, mk (batch_size self) (ndim self) (ndim_in self)
                   (network self) k (points self))
    end.

(** [MSD_V(self)], as the value of the returned [h] when the placeholders
    [X], [Y], [dp_dx] and [dp_dy] are fed the four arguments.  The index
    string is ['s'] for [ndim_in = (d,)]. *)
Definition MSD_V (X Y dp_dx dp_dy : list (list R)) : M t R :=
  self <- get ;;
  ' (dZX_dX, ZX, _) <- Network.get_grad_data (network self) X ;;
  ' (dZY_dY, ZY, _) <- Network.get_grad_data (network self) Y ;;
  ' (dk_dZX, dk_dZY, d2k_dZXdZY, gram) <-
      with_kernel (GaussianKernel.get_two_grad_cross_hess ZX ZY) ;;
  let n := batch_size self in
  let d := ndim self in
  let di := ndim_in self in
  (* tf.einsum('ijk,kis->ijs', dk_dZX, dZX_dX) *)
  let dk_dX := tabulate n (fun i => tabulate n (fun j => tabulate di (fun s =>
                 rsum d (fun k => get3 dk_dZX i j k * get3 dZX_dX k i s)))) in
  (* tf.einsum('ijk,kjs->ijs', dk_dZY, dZY_dY) *)
  let dk_dY := tabulate n (fun i => tabulate n (fun j => tabulate di (fun s =>
                 rsum d (fun k => get3 dk_dZY i j k * get3 dZY_dY k j s)))) in
  (* tf.einsum('ijkl,kis,ljs->ijs', d2k_dZXdZY, dZX_dX, dZY_dY) *)
  let d2k_dXdY := tabulate n (fun i => tabulate n (fun j =>
                    tabulate di (fun s =>
                      rsum d (fun k => rsum d (fun l =>
                        get4 d2k_dZXdZY i j k l * get3 dZX_dX k i s
                        * get3 dZY_dY l j s))))) in
  let h := tabulate n (fun i => tabulate n (fun j =>
             (* tf.einsum('is,js->ij', dp_dx, dp_dy) * gram *)
             rsum di (fun s => get2 dp_dx i s * get2 dp_dy j s) * get2 gram i j
             (* tf.einsum('js,ijs->ij', dp_dy, dk_dX) *)
             + rsum di (fun s => get2 dp_dy j s * get3 dk_dX i j s)
             (* tf.einsum('is,ijs->ij', dp_dx, dk_dY) *)
             + rsum di (fun s => get2 dp_dx i s * get3 dk_dY i j s)
             (* tf.reduce_sum(d2k_dXdY, [2]) *)
             + rsum di (fun s => get3 d2k_dXdY i j s))) in
  (* tf.reduce_sum(h) / self.batch_size **2 *)
  ret (rsum n (fun i => rsum n (fun j => get2 h i j))
       / INR (batch_size self) ^ 2).

Section Host.

(** Whether [tf.einsum] accepts two operands in which one subscript has
    the two given static lengths.  Equal lengths are accepted; what the
    host does with others is its broadcasting rule. *)
Variable einsum_axis_ok : nat -> nat -> bool.

(** [FSSD(self, points)], in the same representation. *)
Definition FSSD (points : tensor2 R) (X Y dp_dx dp_dy : list (list R))
  : M t R :=
  self <- get ;;
  ' (dZX_dX, ZX, _) <- Network.get_grad_data (network self) X ;;
  ' (dZY_dY, ZY, _) <- Network.get_grad_data (network self) Y ;;
  ' (dk_dZX, gram) <- with_kernel (GaussianKernel.get_grad_gram ZX points) ;;
  ' (dk_dZY, gram) <- with_kernel (GaussianKernel.get_grad_gram ZY points) ;;
  let n := batch_size self in
  let m := t_nrows points in
  let d := ndim self in
  let di := ndim_in self in
  (* tf.einsum('ijk,kis->ijs', dk_dZX, dZX_dX): [i] is the batch axis of
     both operands *)
  let dk_dX := tabulate n (fun i => tabulate m (fun j => tabulate di (fun s =>
                 rsum d (fun k => get3 dk_dZX i j k * get3 dZX_dX k i s)))) in
  (* tf.einsum('ijk,kjs->ijs', dk_dZY, dZY_dY): [j] is the axis of the
     points in the first operand and the batch axis in the second *)
  (if einsum_axis_ok m n then ret tt else raise ValueError) ;;;
  let dk_dY := tabulate n (fun i => tabulate m (fun j => tabulate di (fun s =>
                 rsum d (fun k => get3 dk_dZY i j k * get3 dZY_dY k j s)))) in
  (* d2k_dXdY = tf.einsum(..., d2k_dZXdZY, dZX_dX, dZY_dY): no name
     d2k_dZXdZY is bound in FSSD or in the module *)
  raise NameError.

End Host.

End KernelNetMSD.

(** ** class DeepNetwork: the constructor and its consistency check *)

Module DeepNetwork.

Import String.
Local Open Scope string_scope.

(** [ndim_out] of a layer: a tuple, or a bare integer. *)
Inductive dims : Type :=
| Tuple (s : list nat)
| Int (n : nat).

Section Layers.

(** The tensors held in the parameter dictionaries. *)
Variable tensor : Type.

(** What the constructor reads of a layer object. *)
Record layer : Type := mkl {
  is_network : bool;           (* isinstance(l, Network) *)
  ndim_in : list nat;
  ndim_out : dims;
  batch_size : nat;
  param : list (String.string * tensor)
}.

Record t : Type := mk {
  self_nlayer : nat;
  self_layers : list layer;
  self_ndim_out : dims;
  self_ndim_in : list nat;
  self_batch_size : nat;
  self_param : list (String.string * tensor)
}.

(** [d[key] = v] on an [OrderedDict]: a present key keeps its place. *)
Fixpoint od_set (d : list (String.string * tensor)) (key : String.string)
  (v : tensor) : list (String.string * tensor) :=
  match d with
  | [] => [(key, v)]
  | (k, w) :: d' =>
      if String.eqb k key then (k, v) :: d'
      else (k, w) :: od_set d' key v
  end.

(** [str(n)]. *)
Definition str (n : nat) : String.string :=
  DecimalString.NilEmpty.string_of_uint (Nat.to_uint n).

(** The two nested loops that fill [self.param]. *)
Fixpoint collect_params (li : nat) (layers : list layer)
  (acc : list (String.string * tensor)) : list (String.string * tensor) :=
  match layers with
  | [] => acc
  | l :: rest =>
      let acc := fold_left (fun d kv =>
                   od_set d (String.append "layer"
                               (String.append (str (li + 1)) (fst kv)))
                          (snd kv))
                   (param l) acc in
      collect_params (S li) rest acc
  end.

Definition tuple_eqb (a b : list nat) : bool :=
  if list_eq_dec Nat.eq_dec a b then true else false.

(** The loop of [_check_consistency], from index [li] on, over the
    remaining layers [rest]. *)
Fixpoint check_from {St} (self : t) (layers : list layer) (li : nat)
  (rest : list layer) : M St unit :=
  match rest with
  | [] => ret tt
  | l :: rest' =>
      assert_ (is_network l) ;;;
      (if Nat.ltb li (self_nlayer self - 1) then
         match nth_error layers (li + 1) with
         | None => raise IndexError
         | Some next =>
             match ndim_out l with
             | Tuple s => assert_ (tuple_eqb (ndim_in next) s)
             | Int n => assert_ (tuple_eqb (ndim_in next) [n])
             end
         end
       else ret tt) ;;;
      assert_ (Nat.eqb (batch_size l) (self_batch_size self)) ;;;
      check_from self layers (S li) rest'
  end.

(** [_check_consistency(self, layers)]. *)
Definition _check_consistency {St} (self : t) (layers : list layer)
  : M St unit :=
  check_from self layers 0 layers.

(** [DeepNetwork.__init__(self, layers)]: the object, or the exception
    that leaves the constructor. *)
Definition init (layers : list layer) : Error + t :=
  match layers with
  | [] => inl IndexError                       (* layers[-1] *)
  | first :: _ =>
      let self := mk (List.length layers) layers
                     (ndim_out (last layers first))
                     (ndim_in first) (batch_size first)
                     (collect_params 0 layers []) in
      match _check_consistency self layers tt with
      | inl e => inl e
      | inr _ => inr self
      end
  end.

(** The shape a layer's output has. *)
Definition out_shape (l : layer) : list nat :=
  match ndim_out l with
  | Tuple s => s
  | Int n => [n]
  end.

End Layers.

End DeepNetwork.

(** ** class DeepNetwork: the forward pass over layers of [Network] *)

Module DeepNetworkForward.

Import String.
Local Open Scope string_scope.

(** What [DeepNetwork.__init__] reads of a [LinearNetwork] or
    [LinearReLUNetwork] object: [ndim_in] and [ndim_out] are one-element
    tuples, [param] is the [OrderedDict] with the keys ['W'] and ['b'],
    [b] of shape [(1, ndim_out)]. *)
Definition as_layer (n : Network.t) : DeepNetwork.layer (list (list R)) :=
  DeepNetwork.mkl (list (list R)) true [Network.ndim_in n]
    (DeepNetwork.Tuple [Network.ndim_out n]) (Network.batch_size n)
    [("W", Network.W n); ("b", [Network.b n])].

(** [DeepNetwork.forward_tensor(self, data)], as a function of the layer
    objects [self.layers]: the loop
    [for l in self.layers: out = l.forward_tensor(out)].  [data] is a
    tensor, so the [isinstance] assertion holds. *)
Fixpoint forward_tensor {St} (self_layers : list Network.t)
  (out : tensor2 expr) : M St (tensor2 expr) :=
  match self_layers with
  | [] => ret out
  | l :: rest =>
      out <- Network.forward_tensor l out ;;
      forward_tensor rest out
  end.

End DeepNetworkForward.

(** ** Shapes: the batch reshaping, the einsum index strings and the
    constructor of ConvNetwork *)

Module Shapes.

(** [reshape_data_tensor(self, x)] as a function of [self.ndim_in] and
    the fully defined shape of [x], which is all the method reads.  The
    result is the shape of the returned [x] and the flag [single]. *)
Definition reshape_data_tensor (ndim_in shape : list nat)
  : Error + (list nat * bool) :=
  if Nat.eqb (length shape) (length ndim_in) then
    if DeepNetwork.tuple_eqb shape ndim_in
    then inr (1%nat :: shape, true)          (* tf.expand_dims(x, 0) *)
    else inl NameError
  else
    (* x.shape[1:] != self.ndim_in *)
    if negb (DeepNetwork.tuple_eqb (tl shape) ndim_in) then inl NameError
    else inr (shape, false).

(** [reshape_data_array(self, x)], in the same representation.  The
    index [x[None,:]] slices the first axis of [x], which an array of
    rank 0 does not have. *)
Definition reshape_data_array (ndim_in shape : list nat)
  : Error + (list nat * bool) :=
  if Nat.eqb (length shape) (length ndim_in) then
    if DeepNetwork.tuple_eqb shape ndim_in
    then match shape with
         | [] => inl IndexError
         | _ :: _ => inr (1%nat :: shape, true)     (* x[None,:] *)
         end
    else inl NameError
  else
    (* x.shape[1:] != self.ndim_in *)
    if negb (DeepNetwork.tuple_eqb (tl shape) ndim_in) then inl NameError
    else inr (shape, false).

End Shapes.

Module EinsumIndex.

Import String.

(** [''.join([str(unichr(i + offset)) for i in range(rank)])]: [str] of a
    one-character unicode string encodes it as ASCII and raises
    [UnicodeEncodeError] for a code point above 127, which is [None]
    here. *)
Definition construct_index (offset rank : nat) : option String.string :=
  let codes := map (fun i => (i + offset)%nat) (seq 0 rank) in
  if forallb (fun c => Nat.ltb c 128) codes
  then Some (String.string_of_list_ascii (map Ascii.ascii_of_nat codes))
  else None.

(** [KernelNetModel._construct_index(self)] and
    [KernelNetMSD._construct_index(self)] for [len(self.ndim_in) = rank]:
    the offset is 115, the code of ['s']. *)
Definition _construct_index (rank : nat) : option String.string :=
  construct_index 115 rank.

(** A lower-case letter, the only characters [tf.einsum] of the host
    accepts as a subscript. *)
Definition is_lower (c : Ascii.ascii) : bool :=
  Nat.leb 97 (Ascii.nat_of_ascii c) && Nat.leb (Ascii.nat_of_ascii c) 122.

(** The subscripts the einsum strings of [score], [linear_score],
    [get_opt_alpha] and [MSD_V] use besides the index string. *)
Definition fixed_subscripts : String.string := "ijkl"%string.

End EinsumIndex.

Module ConvNetwork.

Local Open Scope Z_scope.

(** The exceptions of the constructor: those of [Error], and the division
    by a zero stride. *)
Inductive exn : Type :=
| Raised (e : Error)
| ZeroDivisionError.

(** What the constructor stores, with the shapes of the two variables it
    draws. *)
Record t : Type := mk {
  ndim_in : list Z;
  batch_size : Z;
  nfil : Z;
  size : Z;
  stride : Z;
  flatten : bool;
  size_out : Z;
  ndim_out : list Z;
  W_shape : list Z;
  b_shape : list Z
}.

(** [np.random.randn( * shape)]: a negative dimension is a [ValueError]. *)
Definition randn (shape : list Z) : exn + list Z :=
  if forallb (fun d => 0 <=? d) shape then inr shape
  else inl (Raised ValueError).

(** [ConvNetwork.__init__(self, ndim_in, nfil, size, stride, batch_size,
    flatten, ...)] on integer arguments; [/] is the floor division of
    Python 2. *)
Definition init (ndim_in : list Z) (nfil size stride batch_size : Z)
  (flatten : bool) : exn + t :=
  (* assert ndim_in[1] == ndim_in[2] *)
  match nth_error ndim_in 1 with
  | None => inl (Raised IndexError)
  | Some h =>
      match nth_error ndim_in 2 with
      | None => inl (Raised IndexError)
      | Some w =>
          if negb (h =? w) then inl (Raised AssertionError)
          else if stride =? 0 then inl ZeroDivisionError
          else
            let size_out := (h - size) / stride + 1 in
            let ndim_out := if flatten then [size_out ^ 2 * nfil]
                            else [nfil; size_out; size_out] in
            (* (self.size,self.size) + ndim_in[0:1] + (nfil,) *)
            match randn ([size; size] ++ firstn 1 ndim_in ++ [nfil]) with
            | inl e => inl e
            | inr W =>
                match randn [1; nfil; size_out; size_out] with
                | inl e => inl e
                | inr b =>
                    inr (mk ndim_in batch_size nfil size stride flatten
                            size_out ndim_out W b)
                end
            end
      end
  end.

End ConvNetwork.

(** ** Reference formulas the theorems compare the code with *)

(** The squared distance, computed directly. *)
Definition sqdist (X Y : tensor2 R) (i j : nat) : R :=
  rsum (t_ncols X) (fun k => (at2 X i k - at2 Y j k) ^ 2).

(** The matrix [get_pdist2] builds from its expansion. *)
Definition pdist2_matrix (X Y : tensor2 R) : list (list R) :=
  tabulate (t_nrows X) (fun i => tabulate (t_nrows Y) (fun j =>
    rsum (t_ncols X) (fun k => at2 X i k ^ 2)
    - 2 * rsum (t_ncols X) (fun k => at2 X i k * at2 Y j k)
    + rsum (t_ncols Y) (fun k => at2 Y j k ^ 2))).

(** The Gram matrix as a function of the bandwidth and the inputs. *)
Definition gram_matrix (sigma : R) (X Y : tensor2 R) : list (list R) :=
  map (map (fun p => exp (((- 0.5) / sigma) * p))) (pdist2_matrix X Y).

(** The value of [1/sigma] in [_kernel_score_stats]: the floor of the
    quotient for an int [sigma], the quotient for a float. *)
Definition one_over (x : Python.number) : R :=
  match x with
  | Python.Int z => IZR (1 / z)
  | Python.Float r => 1 / r
  end.

Definition with_pdist2 (k : GaussianKernel.t) (p : list (list R))
  : GaussianKernel.t :=
  GaussianKernel.mk (GaussianKernel.sigma_obj k) (Some p)
                    (GaussianKernel.grad k) (GaussianKernel.hess k).



(** The pre-activation [W x_j + b] of output [o] on row [j] of [x]. *)
Definition preact (net : Network.t) (x : list (list R)) (j o : nat) : R :=
  rsum (Network.ndim_in net) (fun k =>
    get2 x j k * get2 (Network.W net) o k) + get1 (Network.b net) o.

(** Entry [[j, o]] of the graph [forward_tensor] builds on [data]. *)
Definition preact_expr (net : Network.t) (data : tensor2 expr) (j o : nat)
  : expr :=
  Add (esum (Network.ndim_in net) (fun k =>
         Mul (eget2 (t_rows data) j k) (Const (get2 (Network.W net) o k))))
      (Const (get1 (Network.b net) o)).

Definition out_expr (net : Network.t) (data : tensor2 expr) (j o : nat)
  : expr :=
  match Network.cls net with
  | Network.LinearNetwork => preact_expr net data j o
  | Network.LinearReLUNetwork (g0, g1) =>
      Max (Mul (preact_expr net data j o) (Const g1))
          (Mul (preact_expr net data j o) (Const g0))
  end.

(** The placeholder [son.batch] of a network and entry [o] of
    [son.sum_output]. *)
Definition batch_ph (net : Network.t) : placeholder :=
  mkph (Network.batch_size net) (Network.ndim_in net).

Definition sum_output_expr (net : Network.t) (o : nat) : expr :=
  esum (Network.batch_size net) (fun j =>
    out_expr net (ph_tensor (batch_ph net)) j o).

(** The graph of [son.output], and the stacked gradients of
    [son.sum_output] with respect to [son.batch]. *)
Definition output_expr (net : Network.t) (data : tensor2 expr)
  : tensor2 expr :=
  mk2 (tabulate (t_nrows data) (fun j =>
         tabulate (Network.ndim_out net) (fun o => out_expr net data j o)))
      (Network.ndim_out net).

Definition autodiff_grad (net : Network.t) : list (list (list expr)) :=
  tabulate (Network.ndim_out net) (fun oi =>
    tabulate (Network.batch_size net) (fun j =>
      tabulate (Network.ndim_in net) (fun k =>
        or_zero (diff (sum_output_expr net oi) j k)))).


(** The slope [tf.gradients] gives the activation at pre-activation [z]. *)
Definition autodiff_slope (net : Network.t) (z : R) : R :=
  match Network.cls net with
  | Network.LinearNetwork => 1
  | Network.LinearReLUNetwork (g0, g1) =>
      if Rle_dec (z * g0) (z * g1) then g1 else g0
  end.

(** The [LinearNetwork] with the dimensions and parameters of [net]. *)
Definition as_linear (net : Network.t) : Network.t :=
  Network.mk Network.LinearNetwork (Network.ndim_in net)
    (Network.ndim_out net) (Network.batch_size net)
    (Network.W net) (Network.b net).

(** The slope [get_grad_input] gives the activation at output [o]. *)
Definition analytic_slope (lin_grads : R * R) (o : R) : R :=
  if Rlt_dec 0 o then snd lin_grads else fst lin_grads.

(** The invariants [KernelNetModel.__init__] establishes. *)
Definition model_ok (self : KernelNetModel.t) : Prop :=
  KernelNetModel.npoint self = length (KernelNetModel.alpha self) /\
  KernelNetModel.ndim self = Network.ndim_out (KernelNetModel.network self) /\
  KernelNetModel.ndim_in self = Network.ndim_in (KernelNetModel.network self).

(** The model after [self.X = x], and after its kernel moved to [k]. *)
Definition with_X (self : KernelNetModel.t) (x : tensor2 R)
  : KernelNetModel.t :=
  KernelNetModel.mk (KernelNetModel.alpha self) (KernelNetModel.npoint self)
    (KernelNetModel.ndim self) (KernelNetModel.ndim_in self)
    (KernelNetModel.network self) (KernelNetModel.kernel self) (Some x).

Definition with_kernel_state (self : KernelNetModel.t) (k : GaussianKernel.t)
  : KernelNetModel.t :=
  KernelNetModel.mk (KernelNetModel.alpha self) (KernelNetModel.npoint self)
    (KernelNetModel.ndim self) (KernelNetModel.ndim_in self)
    (KernelNetModel.network self) k (KernelNetModel.X self).


(** The network output on the fed data batch. *)
Definition batch_features (net : Network.t) (data : list (list R))
  : tensor2 R :=
  Network.value data (output_expr net (ph_tensor (batch_ph net))).

(** On which batches the two Jacobians of a network agree: always for a
    [LinearNetwork]; for a [LinearReLUNetwork], when the slopes are ordered
    [0 <= lin_grads[0] <= lin_grads[1]] and no pre-activation is zero. *)
Definition off_kink (net : Network.t) (data : list (list R)) : Prop :=
  match Network.cls net with
  | Network.LinearNetwork => True
  | Network.LinearReLUNetwork (g0, g1) =>
      0 <= g0 <= g1 /\
      forall j o, (j < Network.batch_size net)%nat ->
                  (o < Network.ndim_out net)%nat ->
                  preact net data j o <> 0
  end.



(** The model after [self.alpha = a]. *)
Definition with_alpha (self : KernelNetModel.t) (a : list R)
  : KernelNetModel.t :=
  KernelNetModel.mk a (KernelNetModel.npoint self) (KernelNetModel.ndim self)
    (KernelNetModel.ndim_in self) (KernelNetModel.network self)
    (KernelNetModel.kernel self) (KernelNetModel.X self).

(** Layer [i] of a list is consistent: it is a network, it has the batch
    size [bs], and the layer after it, when there is one, takes its output
    shape as input shape. *)
Definition consistent_at {tensor : Type}
  (layers : list (DeepNetwork.layer tensor)) (bs : nat) (i : nat) : Prop :=
  forall l, nth_error layers i = Some l ->
    DeepNetwork.is_network tensor l = true /\
    DeepNetwork.batch_size tensor l = bs /\
    forall l', nth_error layers (S i) = Some l' ->
      DeepNetwork.ndim_in tensor l' = DeepNetwork.out_shape tensor l.

(** The batch [Y] with entry [[j, l]] replaced by [t]. *)
Definition set_entry (Y : tensor2 R) (j l : nat) (t : R) : tensor2 R :=
  mk2 (tabulate (t_nrows Y) (fun j' => tabulate (t_ncols Y) (fun c =>
         if Nat.eqb j' j && Nat.eqb c l then t else at2 Y j' c)))
      (t_ncols Y).

(** Entry [[i, j]] of [get_gram_matrix] and entry [[i, j, c]] of [get_grad]
    as functions of the coordinate [Y[j, l]]. *)
Definition gram_at (k : GaussianKernel.t) (X Y : tensor2 R) (i j l : nat)
  (t : R) : R :=
  match GaussianKernel.get_gram_matrix X (set_entry Y j l t) k with
  | inr (K, _) => get2 K i j
  | inl _ => 0
  end.

Definition grad_at (k : GaussianKernel.t) (X Y : tensor2 R) (i j c l : nat)
  (t : R) : R :=
  match GaussianKernel.get_grad X (set_entry Y j l t) k with
  | inr (K, _) => get3 K i j c
  | inl _ => 0
  end.

(** ** Concrete objects used to exercise the theorems *)

Module Examples.

(** The kernel of bandwidth 1. *)
Definition kernel1 : GaussianKernel.t :=
  GaussianKernel.init 2 (Python.Float 1).

(** Three basis features [(0,0)], [(1,0)], [(0,1)] and one input [(0,0)]. *)
Definition X3 : tensor2 R := mk2 [[0; 0]; [1; 0]; [0; 1]] 2.
Definition Y1 : tensor2 R := mk2 [[0; 0]] 2.

(** A linear layer from two inputs to one output, on batches of two. *)
Definition lin_net : Network.t :=
  Network.mk Network.LinearNetwork 2 1 2 [[1; 2]] [3].

(** One input, one output, batches of one, [W = [[1]]], [b = [[0]]], with
    the default [lin_grads = [0.0, 1.0]] and with other slopes. *)
Definition relu_net (lin_grads : R * R) : Network.t :=
  Network.mk (Network.LinearReLUNetwork lin_grads) 1 1 1 [[1]] [0].

(** A model on the one-by-one ReLU network with one basis point,
    [alpha = (1)] and bandwidth 1, before [set_points]. *)
Definition relu_model (lin_grads : R * R) : KernelNetModel.t :=
  KernelNetModel.mk [1] 1 1 1 (relu_net lin_grads)
    (GaussianKernel.init 1 (Python.Float 1)) None.

(** A model on the linear layer [lin_net] with two basis points. *)
Definition lin_model : KernelNetModel.t :=
  KernelNetModel.mk [1; 2] 2 1 2 lin_net
    (GaussianKernel.init 1 (Python.Float 1)) None.

(** The ReLU model after [set_points] stored the feature [0], and a data
    batch of one input. *)
Definition ready_model : KernelNetModel.t :=
  with_X (relu_model (0, 1)) (mk2 [[0]] 1).

Definition data1 : tensor2 R := mk2 [[1]] 1.

(** A model with two stored features [0] and [1], and a solver that
    returns the right-hand side (as the solve against the identity does). *)
Definition ready_model2 : KernelNetModel.t :=
  KernelNetModel.mk [1; 1] 2 1 1 (relu_net (0, 1))
    (GaussianKernel.init 1 (Python.Float 1)) (Some (mk2 [[0]; [1]] 1)).

Definition solve_id (A rhs : list (list R)) : option (list (list R)) :=
  Some rhs.

(** Layers without parameters: two that chain, one that does not, and
    one with another batch size. *)
Definition layer_a : DeepNetwork.layer unit :=
  DeepNetwork.mkl unit true [4%nat] (DeepNetwork.Tuple [3%nat]) 2 [].
Definition layer_b : DeepNetwork.layer unit :=
  DeepNetwork.mkl unit true [3%nat] (DeepNetwork.Int 2) 2 [].
Definition layer_c : DeepNetwork.layer unit :=
  DeepNetwork.mkl unit true [2%nat] (DeepNetwork.Tuple [1%nat]) 5 [].

(** The scenario of three basis features [(0,0)], [(1,0)], [(0,1)] with
    [alpha = (1,1,1)] and bandwidth 1. *)
Definition model3 : KernelNetModel.t :=
  KernelNetModel.mk [1; 1; 1] 3 2 2
    (Network.mk Network.LinearNetwork 2 2 1 [[1; 0]; [0; 1]] [0; 0])
    kernel1 (Some X3).

End Examples.

(** ** Further reference formulas *)

(** The tensors [get_grad] and [get_hess] return, as functions of the
    bandwidth and the inputs. *)
Definition grad_tensor (sigma : R) (X Y : tensor2 R)
  : list (list (list R)) :=
  tabulate (t_nrows X) (fun i => tabulate (t_nrows Y) (fun j =>
    tabulate (t_ncols X) (fun c =>
      get2 (gram_matrix sigma X Y) i j
      * get3 (GaussianKernel.diff_over_sigma sigma X Y) i j c))).

Definition hess_tensor (sigma : R) (X Y : tensor2 R)
  : list (list (list (list R))) :=
  tabulate (t_nrows X) (fun i => tabulate (t_nrows Y) (fun j =>
    tabulate (t_ncols X) (fun c => tabulate (t_ncols X) (fun l =>
      get2 (gram_matrix sigma X Y) i j
      * (get4 (GaussianKernel.outer (t_nrows X) (t_nrows Y) (t_ncols X)
                 (GaussianKernel.diff_over_sigma sigma X Y)) i j c l
         - get2 (GaussianKernel.eye_over_sigma sigma (t_ncols X)) c l))))).

(** Entry [j] of [evaluate_kernel_fun], entry [[j, c]] of
    [get_kernel_fun_grad] as functions of the coordinate [Y[j, l]]. *)
Definition kernel_fun_at (self : KernelNetModel.t) (Y : tensor2 R)
  (j l : nat) (t : R) : R :=
  match KernelNetModel.evaluate_kernel_fun (set_entry Y j l t) self with
  | inr (f, _) => get1 f j
  | inl _ => 0
  end.

Definition kernel_fun_grad_at (self : KernelNetModel.t) (Y : tensor2 R)
  (j c l : nat) (t : R) : R :=
  match KernelNetModel.get_kernel_fun_grad (set_entry Y j l t) self with
  | inr (g, _, _) => get2 g j c
  | inl _ => 0
  end.

(** The gradient and Hessian of the kernel function as
    [get_kernel_fun_grad] and [get_kernel_fun_hess] reduce them from the
    kernel tensors on the stored features [x]. *)
Definition kernel_fun_grad_value (self : KernelNetModel.t) (x Y : tensor2 R)
  : list (list R) :=
  tabulate (t_nrows Y) (fun j => tabulate (t_ncols x) (fun c =>
    rsum (KernelNetModel.npoint self) (fun i =>
      get1 (KernelNetModel.alpha self) i
      * get3 (grad_tensor (GaussianKernel.sigma (KernelNetModel.kernel self))
                x Y) i j c))).

Definition kernel_fun_hess_value (self : KernelNetModel.t) (x Y : tensor2 R)
  : list (list (list R)) :=
  tabulate (t_nrows Y) (fun j => tabulate (t_ncols x) (fun c =>
    tabulate (t_ncols x) (fun l =>
      rsum (KernelNetModel.npoint self) (fun i =>
        get1 (KernelNetModel.alpha self) i
        * get4 (hess_tensor (GaussianKernel.sigma (KernelNetModel.kernel self))
                  x Y) i j c l)))).

(** The network output on a batch of known values. *)
Definition features (net : Network.t) (data : tensor2 R) : tensor2 R :=
  Network.value [] (output_expr net (const_tensor data)).

(** The value [score_original] returns, as a function of the Gram
    matrix [K] it was given and of the content [P] of the field [pdist2]
    when [D] is built, on stored features [x] and network output [Y]. *)
Definition score_original_J (self : KernelNetModel.t) (data x Y : tensor2 R)
  (K P : list (list R)) : R :=
  let sigma := GaussianKernel.sigma (KernelNetModel.kernel self) in
  let N := INR (t_nrows data) in
  let alpha := KernelNetModel.alpha self in
  let D := map (map (fun p =>
             1 / sigma * p - INR (KernelNetModel.ndim self))) P in
  rsum (t_nrows x) (fun i => rsum (t_nrows Y) (fun j =>
    get1 alpha i * get2 K i j * get2 D i j)) * 1 / N / sigma
  + 0.5 / N / sigma ^ 2
    * rsum (t_nrows Y) (fun j => rsum (t_ncols x) (fun l =>
        rsum (t_nrows x) (fun i =>
          get1 alpha i * (at2 x i l - at2 Y j l) * get2 K i j) ^ 2)).

(** The vector [b] and the matrix [C] of [_kernel_score_stats] in closed
    form, and the quadratic objective [kernel_score] builds from them;
    [c] is the value of the quotient [1/sigma] of the host language. *)
Definition stats_A (sigma : R) (x Y : tensor2 R) (i k l : nat) : R :=
  (at2 x i l - at2 Y k l) * get2 (gram_matrix sigma x Y) i k.

Definition stats_b (c sigma : R) (D : nat) (x Y : tensor2 R) (i : nat)
  : R :=
  - INR D * rsum (t_nrows Y) (fun j => get2 (gram_matrix sigma x Y) i j)
  + c * rsum (t_nrows Y) (fun j =>
      get2 (gram_matrix sigma x Y) i j
      * rsum (t_ncols x) (fun l => (at2 x i l - at2 Y j l) ^ 2)).

Definition stats_C (sigma : R) (x Y : tensor2 R) (i j : nat) : R :=
  rsum (t_nrows Y) (fun k => rsum (t_ncols x) (fun l =>
    stats_A sigma x Y i k l * stats_A sigma x Y j k l)).

Definition kernel_objective (c sigma : R) (D : nat) (x Y : tensor2 R)
  (N : R) (a : list R) : R :=
  1 / N / sigma
  * rsum (t_nrows x) (fun i => get1 a i * stats_b c sigma D x Y i)
  + 0.5 / N / sigma ^ 2
    * rsum (t_nrows x) (fun i => rsum (t_nrows x) (fun j =>
        get1 a i * stats_C sigma x Y i j * get1 a j)).

(** Entry [[j, o]] of the network output as a function of the input
    coordinate [data[j, k]]. *)
Definition output_at (net : Network.t) (data : tensor2 R) (j o k : nat)
  (t : R) : R :=
  match Network.forward_value net (set_entry data j k t) tt with
  | inr (y, _) => at2 y j o
  | inl _ => 0
  end.

(** Entry [[o, j, k]] of the Jacobian the override [get_grad_data]
    returns on the feed. *)
Definition jacobian_entry (net : Network.t) (feed : list (list R))
  (o j k : nat) : R :=
  match Network.cls net with
  | Network.LinearNetwork => 1
  | Network.LinearReLUNetwork (g0, g1) =>
      analytic_slope (g0, g1)
        (Rmax (preact net feed j o * g1) (preact net feed j o * g0))
  end * get2 (Network.W net) o k.

(** The invariants [KernelNetMSD.__init__] establishes. *)
Definition msd_ok (self : KernelNetMSD.t) : Prop :=
  KernelNetMSD.batch_size self
  = Network.batch_size (KernelNetMSD.network self) /\
  KernelNetMSD.ndim self = Network.ndim_out (KernelNetMSD.network self) /\
  KernelNetMSD.ndim_in self = Network.ndim_in (KernelNetMSD.network self).

(** Entry [[i, j]] of the matrix [h] that [MSD_V] sums, in closed form:
    the Stein kernel of the two samples [x_i] and [y_j] with scores
    [dp_dx[i]] and [dp_dy[j]]. *)
Definition msd_h (self : KernelNetMSD.t) (X Y dp_dx dp_dy : list (list R))
  (i j : nat) : R :=
  let net := KernelNetMSD.network self in
  let sigma := GaussianKernel.sigma (KernelNetMSD.kernel self) in
  let ZX := batch_features net X in
  let ZY := batch_features net Y in
  let G := exp (-0.5 / sigma * sqdist ZX ZY i j) in
  let D := fun k => (at2 ZX i k - at2 ZY j k) / sigma in
  let d := Network.ndim_out net in
  let di := Network.ndim_in net in
  rsum di (fun s => get2 dp_dx i s * get2 dp_dy j s) * G
  + rsum di (fun s => get2 dp_dy j s * rsum d (fun k =>
      - (G * D k) * jacobian_entry net X k i s))
  + rsum di (fun s => get2 dp_dx i s * rsum d (fun k =>
      G * D k * jacobian_entry net Y k j s))
  + rsum di (fun s => rsum d (fun k => rsum d (fun l =>
      G * ((if Nat.eqb k l then 1 else 0) / sigma - D k * D l)
      * jacobian_entry net X k i s * jacobian_entry net Y l j s))).




(** ** Further concrete objects *)

Module Examples2.

(** An input batch whose feature dimension is 3, not 2. *)
Definition Y3cols : tensor2 R := mk2 [[0; 0; 0]] 3.

(** A solver for systems of two equations, by Cramer's rule; like the
    host it rejects a singular matrix. *)
Definition solve2 (A rhs : list (list R)) : option (list (list R)) :=
  let a := get2 A 0 0 in
  let b := get2 A 0 1 in
  let c := get2 A 1 0 in
  let d := get2 A 1 1 in
  let det := a * d - b * c in
  if Req_EM_T det 0 then None
  else Some [[(d * get2 rhs 0 0 - b * get2 rhs 1 0) / det];
             [(a * get2 rhs 1 0 - c * get2 rhs 0 0) / det]].


(** Two data points for the model [ready_model2]. *)
Definition data2 : tensor2 R := mk2 [[0]; [1]] 1.

(** A batch of two inputs for [lin_net], and a ReLU layer with slopes
    [(0.5, 2)] on the same dimensions. *)
Definition batch2 : tensor2 R := mk2 [[1; 0]; [0; 1]] 2.

Definition leaky_net : Network.t :=
  Network.mk (Network.LinearReLUNetwork (0.5, 2)) 2 1 2 [[1; 2]] [3].

(** A ReLU layer from one input to three outputs, on batches of two: it
    chains after [lin_net]. *)
Definition wide_net : Network.t :=
  Network.mk (Network.LinearReLUNetwork (0, 1)) 1 3 2 [[1]; [2]; [3]]
    [0; 0; 0].


End Examples2.

(** * Proofs *)

(** ** Tabulated axes and sums *)

Lemma length_tabulate {A} (n : nat) (f : nat -> A) :
  length (tabulate n f) = n.
Proof. unfold tabulate. now rewrite length_map, length_seq. Qed.

Lemma nth_tabulate {A} (n : nat) (f : nat -> A) (i : nat) (d : A) :
  (i < n)%nat -> nth i (tabulate n f) d = f i.
Proof.
  intros Hi. unfold tabulate.
  rewrite (nth_indep _ d (f 0%nat)) by now rewrite length_map, length_seq.
  rewrite (map_nth f (seq 0 n) 0%nat i), seq_nth by assumption.
  reflexivity.
Qed.

Lemma tabulate_ext {A} (n : nat) (f g : nat -> A) :
  (forall i, (i < n)%nat -> f i = g i) -> tabulate n f = tabulate n g.
Proof.
  intros H. unfold tabulate. apply map_ext_in.
  intros i Hi. apply in_seq in Hi. apply H. lia.
Qed.

Lemma map_tabulate {A B} (g : A -> B) (n : nat) (f : nat -> A) :
  map g (tabulate n f) = tabulate n (fun i => g (f i)).
Proof. unfold tabulate. now rewrite map_map. Qed.

Lemma tabulate_S {A} (n : nat) (f : nat -> A) :
  tabulate (S n) f = tabulate n f ++ [f n].
Proof. unfold tabulate. rewrite seq_S, map_app. reflexivity. Qed.

Lemma Forall_tabulate {A} (P : A -> Prop) (n : nat) (f : nat -> A) :
  (forall i, (i < n)%nat -> P (f i)) -> Forall P (tabulate n f).
Proof.
  intros H. unfold tabulate. apply Forall_forall.
  intros x Hx. apply in_map_iff in Hx. destruct Hx as [i [<- Hi]].
  apply in_seq in Hi. apply H. lia.
Qed.

Lemma get1_tabulate (n : nat) (f : nat -> R) (i : nat) :
  (i < n)%nat -> get1 (tabulate n f) i = f i.
Proof. intros. unfold get1. now apply nth_tabulate. Qed.

Lemma get2_tabulate (m n : nat) (f : nat -> nat -> R) (i j : nat) :
  (i < m)%nat -> (j < n)%nat ->
  get2 (tabulate m (fun i => tabulate n (f i))) i j = f i j.
Proof.
  intros Hi Hj. unfold get2. rewrite nth_tabulate by assumption.
  now apply get1_tabulate.
Qed.

Lemma get3_tabulate (a m n : nat) (f : nat -> nat -> nat -> R) (i j k : nat) :
  (i < a)%nat -> (j < m)%nat -> (k < n)%nat ->
  get3 (tabulate a (fun i => tabulate m (fun j => tabulate n (f i j)))) i j k
  = f i j k.
Proof.
  intros Hi Hj Hk. unfold get3. rewrite nth_tabulate by assumption.
  now apply get2_tabulate.
Qed.

Lemma get4_tabulate (a b m n : nat) (f : nat -> nat -> nat -> nat -> R)
  (i j k l : nat) :
  (i < a)%nat -> (j < b)%nat -> (k < m)%nat -> (l < n)%nat ->
  get4 (tabulate a (fun i => tabulate b (fun j =>
          tabulate m (fun k => tabulate n (f i j k))))) i j k l
  = f i j k l.
Proof.
  intros Hi Hj Hk Hl. unfold get4. rewrite nth_tabulate by assumption.
  now apply get3_tabulate.
Qed.

Lemma rsum_S (n : nat) (f : nat -> R) :
  rsum (S n) f = rsum n f + f n.
Proof.
  unfold rsum. rewrite tabulate_S, fold_right_app. simpl.
  generalize (tabulate n f) as l. induction l as [|x l IH]; simpl.
  - lra.
  - rewrite IH. lra.
Qed.

Lemma rsum_0 (f : nat -> R) : rsum 0 f = 0.
Proof. reflexivity. Qed.

Lemma rsum_ext (n : nat) (f g : nat -> R) :
  (forall i, (i < n)%nat -> f i = g i) -> rsum n f = rsum n g.
Proof. intros H. unfold rsum. now rewrite (tabulate_ext n f g). Qed.

Lemma rsum_plus (n : nat) (f g : nat -> R) :
  rsum n (fun i => f i + g i) = rsum n f + rsum n g.
Proof.
  induction n as [|n IH].
  - rewrite !rsum_0. lra.
  - rewrite !rsum_S, IH. lra.
Qed.

Lemma rsum_scal (n : nat) (c : R) (f : nat -> R) :
  rsum n (fun i => c * f i) = c * rsum n f.
Proof.
  induction n as [|n IH].
  - rewrite !rsum_0. lra.
  - rewrite !rsum_S, IH. lra.
Qed.

Lemma rsum_zero (n : nat) (f : nat -> R) :
  (forall i, (i < n)%nat -> f i = 0) -> rsum n f = 0.
Proof.
  induction n as [|n IH]; intros H.
  - apply rsum_0.
  - rewrite rsum_S, IH by (intros; apply H; lia).
    rewrite (H n) by lia. lra.
Qed.

(** A sum with one non-zero term. *)
Lemma rsum_single (n k : nat) (f : nat -> R) :
  (k < n)%nat -> (forall i, (i < n)%nat -> i <> k -> f i = 0) ->
  rsum n f = f k.
Proof.
  induction n as [|n IH]; intros Hk H.
  - lia.
  - rewrite rsum_S. destruct (Nat.eq_dec k n) as [->|Hne].
    + rewrite rsum_zero; [lra|]. intros i Hi. apply H; lia.
    + rewrite IH by (try lia; intros; apply H; lia).
      rewrite (H n) by lia. lra.
Qed.

Lemma rsum2_ext (n d : nat) (f g : nat -> nat -> R) :
  (forall k l, (k < n)%nat -> (l < d)%nat -> f k l = g k l) ->
  rsum n (fun k => rsum d (fun l => f k l))
  = rsum n (fun k => rsum d (fun l => g k l)).
Proof.
  intros H. apply rsum_ext; intros k Hk. apply rsum_ext; intros l Hl.
  now apply H.
Qed.

(** Decimal constants of the source as fractions. *)
Lemma dec_neg_half : -0.5 = - (1 / 2).
Proof. lra. Qed.

(** ** Running the monad *)

Lemma bind_inr {S A B} (c : M S A) (k : A -> M S B) (s s' : S) (a : A) :
  c s = inr (a, s') -> bind c k s = k a s'.
Proof. intros H. unfold bind. now rewrite H. Qed.

Lemma bind_inl {S A B} (c : M S A) (k : A -> M S B) (s : S) (e : Error) :
  c s = inl e -> bind c k s = inl e.
Proof. intros H. unfold bind. now rewrite H. Qed.

Lemma bind_get {S B} (k : S -> M S B) (s : S) : bind get k s = k s s.
Proof. reflexivity. Qed.

(** ** Divisions of the host language *)

Lemma div_zero {S} (x y : Python.number) (s : S) :
  Python.value y = 0 -> Python.div x y s = inl ZeroDivisionError.
Proof.
  intros Hy. unfold Python.div.
  destruct x as [a|a], y as [b|b]; cbn [Python.value] in *;
    try (destruct (Req_EM_T _ 0) as [_|N];
         [reflexivity | exfalso; apply N; exact Hy]).
  apply eq_IZR_R0 in Hy. subst b. reflexivity.
Qed.

(** A float divided by a number that is not zero. *)
Lemma div_float_run {S} (a : R) (y : Python.number) (s : S) :
  Python.value y <> 0 ->
  Python.div (Python.Float a) y s
  = inr (Python.Float (a / Python.value y), s).
Proof.
  intros Hy. unfold Python.div. cbn [Python.value].
  destruct y as [b|b]; cbn [Python.value] in *;
    (destruct (Req_EM_T _ 0) as [E|_]; [contradiction | reflexivity]).
Qed.

(** An int divided by a float that is not zero, and by an int that is
    not zero. *)
Lemma div_int_float_run {S} (a : Z) (r : R) (s : S) :
  r <> 0 ->
  Python.div (Python.Int a) (Python.Float r) s
  = inr (Python.Float (IZR a / r), s).
Proof.
  intros Hr. unfold Python.div. cbn [Python.value].
  destruct (Req_EM_T r 0) as [E|_]; [contradiction | reflexivity].
Qed.

Lemma div_int_int_run {S} (a b : Z) (s : S) :
  b <> 0%Z ->
  Python.div (Python.Int a) (Python.Int b) s = inr (Python.Int (a / b), s).
Proof.
  intros Hb. unfold Python.div. apply Z.eqb_neq in Hb. now rewrite Hb.
Qed.

(** Every division by a number that is not zero returns. *)
Lemma div_returns {S} (x y : Python.number) (s : S) :
  Python.value y <> 0 -> exists c, Python.div x y s = inr (c, s).
Proof.
  intros Hy. destruct x as [a|a].
  - destruct y as [b|b].
    + eexists. apply div_int_int_run. intros E. apply Hy. now rewrite E.
    + eexists. now apply div_int_float_run.
  - eexists. now apply div_float_run.
Qed.

Lemma value_mul_one (x : Python.number) :
  Python.value (Python.mul x (Python.Int 1)) = Python.value x.
Proof.
  destruct x as [a|a]; cbn [Python.mul Python.value].
  - now rewrite Z.mul_1_r.
  - ring.
Qed.

Lemma value_pow (x : Python.number) (n : nat) :
  Python.value (Python.pow x n) = Python.value x ^ n.
Proof.
  destruct x as [a|a]; cbn [Python.pow Python.value]; [|reflexivity].
  symmetry. apply pow_IZR.
Qed.

Lemma value_of_nat (n : nat) : Python.value (Python.Int (Z.of_nat n)) = INR n.
Proof. cbn [Python.value]. symmetry. apply INR_IZR_INZ. Qed.

(** ** The Gaussian kernel (C5, C6, C7, C10) *)

Lemma get_pdist2_run (k : GaussianKernel.t) (X Y : tensor2 R) :
  t_ncols X = t_ncols Y ->
  GaussianKernel.get_pdist2 X Y k
  = inr (pdist2_matrix X Y, with_pdist2 k (pdist2_matrix X Y)).
Proof.
  intros Hd. unfold GaussianKernel.get_pdist2, assert_.
  rewrite Hd, Nat.eqb_refl.
  assert (E : tabulate (t_nrows X) (fun i => tabulate (t_nrows Y) (fun j =>
                get2 (tabulate (t_nrows X) (fun i0 =>
                        tabulate (t_nrows Y) (fun j0 =>
                          get1 (tabulate (t_nrows X) (fun i1 =>
                                  rsum (t_ncols Y) (fun k0 => at2 X i1 k0 ^ 2))) i0
                          - 2 * get2 (tabulate (t_nrows X) (fun i1 =>
                                        tabulate (t_nrows Y) (fun j1 =>
                                          rsum (t_ncols Y) (fun k0 =>
                                            at2 X i1 k0 * at2 Y j1 k0)))) i0 j0)))
                     i j
                + get1 (tabulate (t_nrows Y) (fun j0 =>
                          rsum (t_ncols Y) (fun k0 => at2 Y j0 k0 ^ 2))) j))
              = pdist2_matrix X Y).
  { unfold pdist2_matrix. rewrite Hd.
    apply tabulate_ext; intros i Hi. apply tabulate_ext; intros j Hj.
    rewrite get2_tabulate, !get1_tabulate, get2_tabulate by assumption.
    reflexivity. }
  unfold bind, ret, GaussianKernel.set_pdist2. cbv zeta. rewrite E.
  reflexivity.
Qed.

Lemma get_pdist2_fail (k : GaussianKernel.t) (X Y : tensor2 R) :
  t_ncols X <> t_ncols Y ->
  GaussianKernel.get_pdist2 X Y k = inl AssertionError.
Proof.
  intros Hd. unfold GaussianKernel.get_pdist2, assert_.
  apply Nat.eqb_neq in Hd. rewrite Hd. reflexivity.
Qed.

Lemma sigma_with_pdist2 (k : GaussianKernel.t) (p : list (list R)) :
  GaussianKernel.sigma (with_pdist2 k p) = GaussianKernel.sigma k.
Proof. reflexivity. Qed.

Lemma get_gram_matrix_run (k : GaussianKernel.t) (X Y : tensor2 R) :
  t_ncols X = t_ncols Y ->
  GaussianKernel.sigma k <> 0 ->
  GaussianKernel.get_gram_matrix X Y k
  = inr (gram_matrix (GaussianKernel.sigma k) X Y,
         with_pdist2 k (pdist2_matrix X Y)).
Proof.
  intros Hd Hs. unfold GaussianKernel.get_gram_matrix.
  rewrite (bind_inr _ _ _ _ _ (get_pdist2_run k X Y Hd)).
  rewrite bind_get. cbv zeta.
  rewrite (bind_inr _ _ _ _ _
             (div_float_run (- 0.5) (GaussianKernel.sigma_obj k) _ Hs)).
  reflexivity.
Qed.

(** With a zero bandwidth the quotient [-0.5/sigma] raises, once the
    widths have been compared. *)
Lemma get_gram_matrix_zero (k : GaussianKernel.t) (X Y : tensor2 R) :
  t_ncols X = t_ncols Y ->
  GaussianKernel.sigma k = 0 ->
  GaussianKernel.get_gram_matrix X Y k = inl ZeroDivisionError.
Proof.
  intros Hd Hs. unfold GaussianKernel.get_gram_matrix.
  rewrite (bind_inr _ _ _ _ _ (get_pdist2_run k X Y Hd)).
  rewrite bind_get. cbv zeta.
  now rewrite (bind_inl _ _ _ _
                 (div_zero (Python.Float (- 0.5))
                    (GaussianKernel.sigma_obj k) _ Hs)).
Qed.

Lemma get_gram_matrix_fail (k : GaussianKernel.t) (X Y : tensor2 R) :
  t_ncols X <> t_ncols Y ->
  GaussianKernel.get_gram_matrix X Y k = inl AssertionError.
Proof.
  intros Hd. unfold GaussianKernel.get_gram_matrix.
  now rewrite (bind_inl _ _ _ _ (get_pdist2_fail k X Y Hd)).
Qed.

Lemma map2_tabulate {A B} (g : A -> B) (m n : nat) (f : nat -> nat -> A) :
  map (map g) (tabulate m (fun i => tabulate n (f i)))
  = tabulate m (fun i => tabulate n (fun j => g (f i j))).
Proof.
  rewrite map_tabulate. apply tabulate_ext; intros i _.
  apply map_tabulate.
Qed.

Lemma gram_matrix_tabulate (sigma : R) (X Y : tensor2 R) :
  gram_matrix sigma X Y
  = tabulate (t_nrows X) (fun i => tabulate (t_nrows Y) (fun j =>
      exp (((- 0.5) / sigma) * get2 (pdist2_matrix X Y) i j))).
Proof.
  unfold gram_matrix. unfold pdist2_matrix at 1. rewrite map2_tabulate.
  apply tabulate_ext; intros i Hi. apply tabulate_ext; intros j Hj.
  unfold pdist2_matrix. now rewrite get2_tabulate.
Qed.

(** The expansion [|x|^2 - 2 x.y + |y|^2] is the squared distance. *)
Lemma pdist2_matrix_sqdist (X Y : tensor2 R) (i j : nat) :
  t_ncols X = t_ncols Y ->
  (i < t_nrows X)%nat -> (j < t_nrows Y)%nat ->
  get2 (pdist2_matrix X Y) i j = sqdist X Y i j.
Proof.
  intros Hd Hi Hj. unfold pdist2_matrix, sqdist.
  rewrite get2_tabulate by assumption. rewrite <- Hd.
  rewrite (rsum_ext _ (fun k => (at2 X i k - at2 Y j k) ^ 2)
             (fun k => (at2 X i k ^ 2 + (-2) * (at2 X i k * at2 Y j k))
                       + at2 Y j k ^ 2))
    by (intros; ring).
  rewrite !rsum_plus, rsum_scal. ring.
Qed.

Lemma get2_gram_matrix (sigma : R) (X Y : tensor2 R) (i j : nat) :
  (i < t_nrows X)%nat -> (j < t_nrows Y)%nat ->
  get2 (gram_matrix sigma X Y) i j
  = exp (((- 0.5) / sigma) * get2 (pdist2_matrix X Y) i j).
Proof.
  intros Hi Hj. rewrite gram_matrix_tabulate.
  now rewrite get2_tabulate.
Qed.

(** C5.  On batches [X] of shape [(m, d)] and [Y] of shape [(n, d)] and a
    positive bandwidth, [get_gram_matrix] returns an [m]-by-[n] matrix;
    the matrix it stores in [pdist2], built from the expansion
    [|x|^2 - 2 x.y + |y|^2], has the directly computed squared distance
    as its [(i, j)] entry, and the [(i, j)] entry of the result is
    [exp (- |x_i - y_j|^2 / (2 sigma))]. *)
Theorem gram_matrix_entries (k : GaussianKernel.t) (m n d : nat)
  (X Y : tensor2 R) :
  shaped m d X -> shaped n d Y -> 0 < GaussianKernel.sigma k ->
  exists K P k',
    GaussianKernel.get_gram_matrix X Y k = inr (K, k') /\
    GaussianKernel.pdist2 k' = Some P /\
    length K = m /\ Forall (fun r => length r = n) K /\
    forall i j, (i < m)%nat -> (j < n)%nat ->
      get2 P i j =
        rsum d (fun c => at2 X i c ^ 2)
        - 2 * rsum d (fun c => at2 X i c * at2 Y j c)
        + rsum d (fun c => at2 Y j c ^ 2) /\
      get2 P i j = rsum d (fun c => (at2 X i c - at2 Y j c) ^ 2) /\
      get2 K i j =
        exp (- rsum d (fun c => (at2 X i c - at2 Y j c) ^ 2)
             / (2 * GaussianKernel.sigma k)).
Proof.
  intros [HdX [HmX _]] [HdY [HnY _]] Hs.
  assert (Hd : t_ncols X = t_ncols Y) by congruence.
  exists (gram_matrix (GaussianKernel.sigma k) X Y), (pdist2_matrix X Y),
         (with_pdist2 k (pdist2_matrix X Y)).
  split; [apply get_gram_matrix_run; [exact Hd | lra]|].
  split; [reflexivity|].
  split; [rewrite gram_matrix_tabulate, length_tabulate; exact HmX|].
  split.
  { rewrite gram_matrix_tabulate. apply Forall_tabulate; intros i _.
    rewrite length_tabulate. exact HnY. }
  intros i j Hi Hj.
  assert (Hi' : (i < t_nrows X)%nat) by (unfold t_nrows; lia).
  assert (Hj' : (j < t_nrows Y)%nat) by (unfold t_nrows; lia).
  assert (E := pdist2_matrix_sqdist X Y i j Hd Hi' Hj').
  unfold sqdist in E. rewrite HdX in E.
  split; [|split].
  - unfold pdist2_matrix. rewrite get2_tabulate by assumption.
    rewrite <- Hd, HdX. reflexivity.
  - exact E.
  - rewrite get2_gram_matrix, E by assumption. apply f_equal.
    rewrite dec_neg_half. field. lra.
Qed.

(** Entries of the tensors the derivative methods build. *)
Lemma get3_diff_over_sigma (sigma : R) (X Y : tensor2 R) (i j c : nat) :
  (i < t_nrows X)%nat -> (j < t_nrows Y)%nat -> (c < t_ncols X)%nat ->
  get3 (GaussianKernel.diff_over_sigma sigma X Y) i j c
  = (at2 X i c - at2 Y j c) / sigma.
Proof.
  intros. unfold GaussianKernel.diff_over_sigma.
  now rewrite get3_tabulate.
Qed.

Lemma get2_eye_over_sigma (sigma : R) (d c l : nat) :
  (c < d)%nat -> (l < d)%nat ->
  get2 (GaussianKernel.eye_over_sigma sigma d) c l
  = (if Nat.eqb c l then 1 else 0) / sigma.
Proof.
  intros. unfold GaussianKernel.eye_over_sigma, eye.
  rewrite map2_tabulate. now rewrite get2_tabulate.
Qed.

(** Shape and entries of the tensor [get_hess] returns. *)
Lemma get_hess_entries (k : GaussianKernel.t) (m n d : nat) (X Y : tensor2 R) :
  shaped m d X -> shaped n d Y -> 0 < GaussianKernel.sigma k ->
  exists H k',
    GaussianKernel.get_hess X Y k = inr (H, k') /\
    length H = m /\
    Forall (fun Hi => length Hi = n /\
      Forall (fun Hij => length Hij = d /\
        Forall (fun r => length r = d) Hij) Hi) H /\
    forall i j c l, (i < m)%nat -> (j < n)%nat -> (c < d)%nat -> (l < d)%nat ->
      let sigma := GaussianKernel.sigma k in
      let K := exp (- rsum d (fun c => (at2 X i c - at2 Y j c) ^ 2)
                    / (2 * sigma)) in
      let dij := fun c => (at2 X i c - at2 Y j c) / sigma in
      let I := fun c l : nat => if Nat.eqb c l then 1 else 0 in
      get4 H i j c l = K * (dij c * dij l - I c l / sigma).
Proof.
  intros [HdX [HmX _]] [HdY [HnY _]] Hs.
  assert (Hd : t_ncols X = t_ncols Y) by congruence.
  unfold GaussianKernel.get_hess.
  rewrite (bind_inr _ _ _ _ _
             (get_gram_matrix_run k X Y Hd (Rgt_not_eq _ _ Hs))).
  unfold bind, get, ret. cbv zeta. rewrite sigma_with_pdist2.
  eexists. eexists. split; [reflexivity|].
  unfold t_nrows in *. rewrite HmX, HnY, HdX.
  split; [apply length_tabulate|]. split.
  { apply Forall_tabulate; intros i _. split; [apply length_tabulate|].
    apply Forall_tabulate; intros j _. split; [apply length_tabulate|].
    apply Forall_tabulate; intros c _. apply length_tabulate. }
  intros i j c l Hi Hj Hc Hl.
  rewrite get4_tabulate by assumption.
  unfold GaussianKernel.outer. rewrite get4_tabulate by assumption.
  rewrite get2_eye_over_sigma by assumption.
  rewrite !get3_diff_over_sigma by (unfold t_nrows; lia).
  rewrite get2_gram_matrix by (unfold t_nrows; lia).
  rewrite pdist2_matrix_sqdist by (unfold t_nrows; lia).
  unfold sqdist. rewrite HdX.
  replace (-0.5 / GaussianKernel.sigma k *
           rsum d (fun k0 => (at2 X i k0 - at2 Y j k0) ^ 2))
    with (- rsum d (fun c0 => (at2 X i c0 - at2 Y j c0) ^ 2)
          / (2 * GaussianKernel.sigma k))
    by (rewrite dec_neg_half; field; lra).
  reflexivity.
Qed.

(** C7.  [get_grad_hess] is [get_grad] followed by [get_hess]: the same
    pair of tensors, the same final kernel state, and the same failure
    when the feature dimensions differ. *)
Theorem grad_hess_fused (X Y : tensor2 R) (k : GaussianKernel.t) :
  GaussianKernel.get_grad_hess X Y k
  = (K1 <- GaussianKernel.get_grad X Y ;;
     K2 <- GaussianKernel.get_hess X Y ;;
     ret (K1, K2)) k.
Proof.
  unfold GaussianKernel.get_grad_hess, GaussianKernel.get_grad,
    GaussianKernel.get_grad_gram, GaussianKernel.get_hess, bind, get, ret.
  destruct (Nat.eq_dec (t_ncols X) (t_ncols Y)) as [Hd|Hd].
  - destruct (Req_EM_T (GaussianKernel.sigma k) 0) as [Hs|Hs].
    + now rewrite !(get_gram_matrix_zero k X Y Hd Hs).
    + rewrite !(get_gram_matrix_run k X Y Hd Hs). cbv beta iota zeta.
      assert (Hs' : GaussianKernel.sigma (with_pdist2 k (pdist2_matrix X Y))
                    <> 0) by exact Hs.
      rewrite (get_gram_matrix_run _ X Y Hd Hs'). reflexivity.
  - repeat (rewrite (get_gram_matrix_fail _ X Y Hd); cbv beta iota zeta).
    reflexivity.
Qed.

(** ** The kernel derivatives as derivatives *)

Lemma deriv_to (f : R -> R) (x l l' : R) :
  derivable_pt_lim f x l -> l = l' -> derivable_pt_lim f x l'.
Proof. intros H <-. exact H. Qed.

Lemma deriv_sq_term (a t0 : R) :
  derivable_pt_lim (fun t => (a - t) ^ 2) t0 (-2 * (a - t0)).
Proof.
  apply (deriv_to _ _ ((INR 2 * (a - t0) ^ pred 2) * (0 - 1))).
  - apply (derivable_pt_lim_comp (fun t => a - t) (fun y => y ^ 2)).
    + apply (derivable_pt_lim_minus (fct_cte a) id).
      * apply derivable_pt_lim_const.
      * apply derivable_pt_lim_id.
    + apply derivable_pt_lim_pow.
  - simpl. lra.
Qed.

(** Derivative of the squared distance in one coordinate of [y]. *)
Lemma deriv_sqsum (d l : nat) (x y : nat -> R) (t0 : R) :
  derivable_pt_lim
    (fun t => rsum d (fun c =>
       (x c - (if Nat.eqb c l then t else y c)) ^ 2))
    t0 (if Nat.ltb l d then -2 * (x l - t0) else 0).
Proof.
  induction d as [|d IH].
  - apply (derivable_pt_lim_ext (fct_cte 0)); [reflexivity|].
    apply derivable_pt_lim_const.
  - apply (derivable_pt_lim_ext
             (fun t => rsum d (fun c =>
                         (x c - (if Nat.eqb c l then t else y c)) ^ 2)
                       + (x d - (if Nat.eqb d l then t else y d)) ^ 2)).
    { intros t. now rewrite rsum_S. }
    destruct (Nat.eqb d l) eqn:E.
    + apply Nat.eqb_eq in E. subst l.
      rewrite Nat.ltb_irrefl in IH.
      replace (Nat.ltb d (S d)) with true
        by (symmetry; apply Nat.ltb_lt; lia).
      apply (deriv_to _ _ (0 + -2 * (x d - t0))); [|lra].
      apply (derivable_pt_lim_plus _ (fun t => (x d - t) ^ 2));
        [exact IH | apply deriv_sq_term].
    + apply Nat.eqb_neq in E.
      apply (deriv_to _ _ ((if Nat.ltb l d then -2 * (x l - t0) else 0) + 0)).
      * apply (derivable_pt_lim_plus _ (fct_cte ((x d - y d) ^ 2)));
          [exact IH | apply derivable_pt_lim_const].
      * destruct (Nat.ltb l d) eqn:L1; destruct (Nat.ltb l (S d)) eqn:L2;
          try lra.
        -- apply Nat.ltb_lt in L1. apply Nat.ltb_ge in L2. lia.
        -- apply Nat.ltb_ge in L1. apply Nat.ltb_lt in L2. lia.
Qed.

(** Derivative of the kernel value in one coordinate of [y]. *)
Lemma deriv_kernel (sigma : R) (d l : nat) (x y : nat -> R) (t0 : R) :
  sigma <> 0 -> (l < d)%nat ->
  derivable_pt_lim
    (fun t => exp (-0.5 / sigma * rsum d (fun c =>
       (x c - (if Nat.eqb c l then t else y c)) ^ 2)))
    t0
    (exp (-0.5 / sigma * rsum d (fun c =>
       (x c - (if Nat.eqb c l then t0 else y c)) ^ 2))
     * ((x l - t0) / sigma)).
Proof.
  intros Hs Hl.
  set (S := fun t => rsum d (fun c =>
              (x c - (if Nat.eqb c l then t else y c)) ^ 2)).
  apply (deriv_to _ _ (exp (-0.5 / sigma * S t0)
                       * (-0.5 / sigma * (-2 * (x l - t0))))).
  - apply (derivable_pt_lim_comp (fun t => -0.5 / sigma * S t) exp).
    + apply (derivable_pt_lim_scal S (-0.5 / sigma) t0).
      assert (D := deriv_sqsum d l x y t0).
      apply Nat.ltb_lt in Hl. rewrite Hl in D. exact D.
    + apply derivable_pt_lim_exp.
  - unfold S. rewrite dec_neg_half. field. exact Hs.
Qed.

(** Derivative of the kernel gradient in one coordinate of [y]. *)
Lemma deriv_kernel_grad (sigma : R) (d c l : nat) (x y : nat -> R) (t0 : R) :
  sigma <> 0 -> (l < d)%nat ->
  derivable_pt_lim
    (fun t => exp (-0.5 / sigma * rsum d (fun c' =>
                (x c' - (if Nat.eqb c' l then t else y c')) ^ 2))
              * ((x c - (if Nat.eqb c l then t else y c)) / sigma))
    t0
    (exp (-0.5 / sigma * rsum d (fun c' =>
            (x c' - (if Nat.eqb c' l then t0 else y c')) ^ 2))
     * ((x c - (if Nat.eqb c l then t0 else y c)) / sigma
        * ((x l - t0) / sigma)
        - (if Nat.eqb c l then 1 else 0) / sigma)).
Proof.
  intros Hs Hl.
  set (E := fun t => exp (-0.5 / sigma * rsum d (fun c' =>
              (x c' - (if Nat.eqb c' l then t else y c')) ^ 2))).
  set (v := fun t => (x c - (if Nat.eqb c l then t else y c)) / sigma).
  apply (deriv_to _ _ (E t0 * ((x l - t0) / sigma) * v t0
                       + E t0 * (- (if Nat.eqb c l then 1 else 0) / sigma))).
  - apply (derivable_pt_lim_mult E v).
    + now apply deriv_kernel.
    + unfold v. destruct (Nat.eqb c l).
      * apply (deriv_to _ _ ((0 - 1) * / sigma)); [|field; exact Hs].
        apply (derivable_pt_lim_ext (fun t => (x c - t) * / sigma));
          [reflexivity|].
        apply (derivable_pt_lim_scal_right (fun t => x c - t)).
        apply (derivable_pt_lim_minus (fct_cte (x c)) id).
        -- apply derivable_pt_lim_const.
        -- apply derivable_pt_lim_id.
      * apply (deriv_to _ _ 0); [|field; exact Hs].
        apply (derivable_pt_lim_const ((x c - y c) / sigma)).
  - unfold E, v. field. exact Hs.
Qed.

Lemma at2_set_entry (Y : tensor2 R) (j l : nat) (t : R) (j' c : nat) :
  (j' < t_nrows Y)%nat -> (c < t_ncols Y)%nat ->
  at2 (set_entry Y j l t) j' c
  = if Nat.eqb j' j && Nat.eqb c l then t else at2 Y j' c.
Proof.
  intros Hj Hc. unfold at2 at 1, set_entry. cbn [t_rows].
  now rewrite get2_tabulate.
Qed.

Lemma t_nrows_set_entry (Y : tensor2 R) (j l : nat) (t : R) :
  t_nrows (set_entry Y j l t) = t_nrows Y.
Proof. unfold t_nrows, set_entry. cbn [t_rows]. apply length_tabulate. Qed.

(** The squared distance to row [j] after entry [[j, l]] is replaced. *)
Lemma sqdist_set_entry (X Y : tensor2 R) (i j l : nat) (t : R) :
  t_ncols X = t_ncols Y -> (j < t_nrows Y)%nat ->
  sqdist X (set_entry Y j l t) i j
  = rsum (t_ncols X) (fun c =>
      (at2 X i c - (if Nat.eqb c l then t else at2 Y j c)) ^ 2).
Proof.
  intros Hd Hj. unfold sqdist. apply rsum_ext; intros c Hc.
  rewrite at2_set_entry by (try assumption; lia).
  now rewrite Nat.eqb_refl.
Qed.

Lemma get_grad_entry (k : GaussianKernel.t) (X Y : tensor2 R) (i j c : nat) :
  t_ncols X = t_ncols Y -> GaussianKernel.sigma k <> 0 ->
  (i < t_nrows X)%nat -> (j < t_nrows Y)%nat -> (c < t_ncols X)%nat ->
  exists K k',
    GaussianKernel.get_grad X Y k = inr (K, k') /\
    get3 K i j c
    = exp (-0.5 / GaussianKernel.sigma k * sqdist X Y i j)
      * ((at2 X i c - at2 Y j c) / GaussianKernel.sigma k).
Proof.
  intros Hd Hs Hi Hj Hc.
  unfold GaussianKernel.get_grad, GaussianKernel.get_grad_gram.
  unfold bind at 1. unfold bind at 1.
  rewrite (get_gram_matrix_run k X Y Hd Hs).
  unfold bind, get, ret. cbv zeta. rewrite sigma_with_pdist2.
  eexists. eexists. split; [reflexivity|].
  rewrite get3_tabulate by assumption.
  rewrite get3_diff_over_sigma, get2_gram_matrix by assumption.
  now rewrite pdist2_matrix_sqdist.
Qed.

(** [gram_at] and [grad_at] in closed form. *)
Lemma gram_at_formula (k : GaussianKernel.t) (X Y : tensor2 R)
  (i j l : nat) (t : R) :
  t_ncols X = t_ncols Y -> GaussianKernel.sigma k <> 0 ->
  (i < t_nrows X)%nat -> (j < t_nrows Y)%nat ->
  exp (-0.5 / GaussianKernel.sigma k * rsum (t_ncols X) (fun c =>
         (at2 X i c - (if Nat.eqb c l then t else at2 Y j c)) ^ 2))
  = gram_at k X Y i j l t.
Proof.
  intros Hd Hs Hi Hj. unfold gram_at.
  rewrite get_gram_matrix_run by assumption.
  rewrite get2_gram_matrix by (rewrite ?t_nrows_set_entry; assumption).
  rewrite pdist2_matrix_sqdist
    by (rewrite ?t_nrows_set_entry; assumption).
  now rewrite sqdist_set_entry.
Qed.

Lemma grad_at_formula (k : GaussianKernel.t) (X Y : tensor2 R)
  (i j c l : nat) (t : R) :
  t_ncols X = t_ncols Y -> GaussianKernel.sigma k <> 0 ->
  (i < t_nrows X)%nat -> (j < t_nrows Y)%nat -> (c < t_ncols X)%nat ->
  exp (-0.5 / GaussianKernel.sigma k * rsum (t_ncols X) (fun c' =>
         (at2 X i c' - (if Nat.eqb c' l then t else at2 Y j c')) ^ 2))
  * ((at2 X i c - (if Nat.eqb c l then t else at2 Y j c))
     / GaussianKernel.sigma k)
  = grad_at k X Y i j c l t.
Proof.
  intros Hd Hs Hi Hj Hc. unfold grad_at.
  destruct (get_grad_entry k X (set_entry Y j l t) i j c)
    as [K [k' [Hrun Hent]]];
    try assumption; try (rewrite t_nrows_set_entry; assumption).
  rewrite Hrun, Hent, sqdist_set_entry by assumption.
  rewrite at2_set_entry by (try assumption; lia).
  now rewrite Nat.eqb_refl.
Qed.

Lemma unchanged_coordinate (f : nat -> R) (l c : nat) :
  (if Nat.eqb c l then f l else f c) = f c.
Proof.
  destruct (Nat.eqb c l) eqn:E; [|reflexivity].
  apply Nat.eqb_eq in E. now subst.
Qed.

(** [get_grad] is the derivative of [get_gram_matrix] in [y_j]. *)
Lemma grad_is_derivative (k : GaussianKernel.t) (X Y : tensor2 R)
  (i j l : nat) :
  t_ncols X = t_ncols Y -> GaussianKernel.sigma k <> 0 ->
  (i < t_nrows X)%nat -> (j < t_nrows Y)%nat -> (l < t_ncols X)%nat ->
  exists K k',
    GaussianKernel.get_grad X Y k = inr (K, k') /\
    derivable_pt_lim (gram_at k X Y i j l) (at2 Y j l) (get3 K i j l).
Proof.
  intros Hd Hs Hi Hj Hl.
  destruct (get_grad_entry k X Y i j l Hd Hs Hi Hj Hl)
    as [K [k' [Hrun Hent]]].
  exists K, k'. split; [exact Hrun|].
  apply (derivable_pt_lim_ext _ _ _ _
           (fun t => gram_at_formula k X Y i j l t Hd Hs Hi Hj)).
  apply (deriv_to _ _ _ _
           (deriv_kernel (GaussianKernel.sigma k) (t_ncols X) l
              (at2 X i) (at2 Y j) (at2 Y j l) Hs Hl)).
  rewrite Hent. unfold sqdist. f_equal. f_equal. f_equal.
  apply rsum_ext; intros c _.
  now rewrite (unchanged_coordinate (at2 Y j)).
Qed.

(** C6.  On batches [X] of shape [(m, d)] and [Y] of shape [(n, d)] and a
    positive bandwidth, [get_hess] returns a tensor of shape
    [(m, n, d, d)] whose [(i, j)] block is
    [K[i,j] * (outer(d_ij, d_ij) - I/sigma)], with
    [d_ij = (x_i - y_j)/sigma], [I] the identity and
    [K[i,j] = exp (- |x_i - y_j|^2 / (2 sigma))]; entry [(i, j, c, l)] is
    the derivative in the coordinate [Y[j, l]] of entry [(i, j, c)] of
    [get_grad], the first derivative of the kernel in [y_j]. *)
Theorem hess_entries (k : GaussianKernel.t) (m n d : nat) (X Y : tensor2 R) :
  shaped m d X -> shaped n d Y -> 0 < GaussianKernel.sigma k ->
  exists H k',
    GaussianKernel.get_hess X Y k = inr (H, k') /\
    length H = m /\
    Forall (fun Hi => length Hi = n /\
      Forall (fun Hij => length Hij = d /\
        Forall (fun r => length r = d) Hij) Hi) H /\
    forall i j c l, (i < m)%nat -> (j < n)%nat -> (c < d)%nat -> (l < d)%nat ->
      let sigma := GaussianKernel.sigma k in
      let K := exp (- rsum d (fun c => (at2 X i c - at2 Y j c) ^ 2)
                    / (2 * sigma)) in
      let dij := fun c => (at2 X i c - at2 Y j c) / sigma in
      let I := fun c l : nat => if Nat.eqb c l then 1 else 0 in
      get4 H i j c l = K * (dij c * dij l - I c l / sigma) /\
      derivable_pt_lim (grad_at k X Y i j c l) (at2 Y j l) (get4 H i j c l).
Proof.
  intros HX HY Hs.
  destruct (get_hess_entries k m n d X Y HX HY Hs)
    as [H [k' [Hrun [Hlen [Hshape Hent]]]]].
  destruct HX as [HdX [HmX _]]. destruct HY as [HdY [HnY _]].
  assert (Hd : t_ncols X = t_ncols Y) by congruence.
  exists H, k'. split; [exact Hrun|]. split; [exact Hlen|].
  split; [exact Hshape|].
  intros i j c l Hi Hj Hc Hl. cbv zeta.
  split; [now apply Hent|].
  assert (Hi' : (i < t_nrows X)%nat) by (unfold t_nrows; lia).
  assert (Hj' : (j < t_nrows Y)%nat) by (unfold t_nrows; lia).
  assert (Hc' : (c < t_ncols X)%nat) by lia.
  assert (Hl' : (l < t_ncols X)%nat) by lia.
  assert (Hs' : GaussianKernel.sigma k <> 0) by lra.
  apply (derivable_pt_lim_ext _ _ _ _
           (fun t => grad_at_formula k X Y i j c l t Hd Hs' Hi' Hj' Hc')).
  apply (deriv_to _ _ _ _
           (deriv_kernel_grad (GaussianKernel.sigma k) (t_ncols X) c l
              (at2 X i) (at2 Y j) (at2 Y j l) Hs' Hl')).
  rewrite (Hent i j c l Hi Hj Hc Hl). cbv zeta.
  rewrite (rsum_ext _
             (fun c' => (at2 X i c'
                         - (if Nat.eqb c' l then at2 Y j l else at2 Y j c'))
                        ^ 2)
             (fun c' => (at2 X i c' - at2 Y j c') ^ 2))
    by (intros c' _; now rewrite (unchanged_coordinate (at2 Y j))).
  rewrite (unchanged_coordinate (at2 Y j)), HdX.
  replace (-0.5 / GaussianKernel.sigma k *
           rsum d (fun c' => (at2 X i c' - at2 Y j c') ^ 2))
    with (- rsum d (fun c0 => (at2 X i c0 - at2 Y j c0) ^ 2)
          / (2 * GaussianKernel.sigma k))
    by (rewrite dec_neg_half; field; lra).
  reflexivity.
Qed.

(** ** Witnesses for the kernel theorems *)

Lemma shaped_X3 : shaped 3 2 Examples.X3.
Proof. repeat split. repeat constructor. Qed.

Lemma shaped_Y1 : shaped 1 2 Examples.Y1.
Proof. repeat split. repeat constructor. Qed.

Lemma sigma_kernel1 : 0 < GaussianKernel.sigma Examples.kernel1.
Proof. simpl. lra. Qed.

Lemma gram_matrix_entries_witness :
  shaped 3 2 Examples.X3 /\ shaped 1 2 Examples.Y1 /\
  0 < GaussianKernel.sigma Examples.kernel1 /\
  exists K k',
    GaussianKernel.get_gram_matrix Examples.X3 Examples.Y1 Examples.kernel1
    = inr (K, k') /\
    get2 K 0 0 = exp (- 0 / (2 * 1)) /\
    get2 K 1 0 = exp (- 1 / (2 * 1)).
Proof.
  split; [exact shaped_X3|]. split; [exact shaped_Y1|].
  split; [exact sigma_kernel1|].
  destruct (gram_matrix_entries Examples.kernel1 3 1 2 Examples.X3 Examples.Y1
              shaped_X3 shaped_Y1 sigma_kernel1)
    as [K [P [k' [Hrun [_ [_ [_ Hent]]]]]]].
  exists K, k'. split; [exact Hrun|]. split.
  - destruct (Hent 0%nat 0%nat) as [_ [_ E]]; [lia|lia|].
    rewrite E. apply f_equal. unfold rsum, at2, get2, get1. simpl. lra.
  - destruct (Hent 1%nat 0%nat) as [_ [_ E]]; [lia|lia|].
    rewrite E. apply f_equal. unfold rsum, at2, get2, get1. simpl. lra.
Defined.

Lemma hess_entries_witness :
  shaped 3 2 Examples.X3 /\ shaped 1 2 Examples.Y1 /\
  0 < GaussianKernel.sigma Examples.kernel1 /\
  exists H k',
    GaussianKernel.get_hess Examples.X3 Examples.Y1 Examples.kernel1
    = inr (H, k') /\
    get4 H 1 0 0 0 = exp (- 1 / (2 * 1)) * (1 * 1 - 1 / 1) /\
    get4 H 1 0 0 1 = exp (- 1 / (2 * 1)) * (1 * 0 - 0 / 1).
Proof.
  split; [exact shaped_X3|]. split; [exact shaped_Y1|].
  split; [exact sigma_kernel1|].
  destruct (hess_entries Examples.kernel1 3 1 2 Examples.X3 Examples.Y1
              shaped_X3 shaped_Y1 sigma_kernel1)
    as [H [k' [Hrun [_ [_ Hent]]]]].
  exists H, k'. split; [exact Hrun|]. split.
  - destruct (Hent 1%nat 0%nat 0%nat 0%nat) as [E _]; try lia. rewrite E.
    unfold rsum, at2, get2, get1. simpl. f_equal.
    + apply f_equal. lra.
    + lra.
  - destruct (Hent 1%nat 0%nat 0%nat 1%nat) as [E _]; try lia. rewrite E.
    unfold rsum, at2, get2, get1. simpl. f_equal.
    + apply f_equal. lra.
    + lra.
Defined.


(** ** The graph: evaluation and differentiation *)

Lemma eval_esum (feed : list (list R)) (n : nat) (f : nat -> expr) :
  eval feed (esum n f) = rsum n (fun i => eval feed (f i)).
Proof.
  unfold esum, rsum, tabulate.
  induction (seq 0 n) as [|i l IH]; simpl.
  - reflexivity.
  - now rewrite IH.
Qed.

Lemma eval_diff_Add (feed : list (list R)) (a b : expr) (j k : nat) :
  eval feed (or_zero (diff (Add a b) j k))
  = eval feed (or_zero (diff a j k)) + eval feed (or_zero (diff b j k)).
Proof.
  simpl. destruct (diff a j k), (diff b j k); simpl; lra.
Qed.

Lemma eval_diff_Mul_const (feed : list (list R)) (a : expr) (c : R)
  (j k : nat) :
  eval feed (or_zero (diff (Mul a (Const c)) j k))
  = eval feed (or_zero (diff a j k)) * c.
Proof.
  simpl. destruct (diff a j k); simpl; lra.
Qed.

Lemma eval_diff_Max (feed : list (list R)) (a b : expr) (j k : nat) :
  eval feed (or_zero (diff (Max a b) j k))
  = if Rle_dec (eval feed b) (eval feed a)
    then eval feed (or_zero (diff a j k))
    else eval feed (or_zero (diff b j k)).
Proof.
  simpl. destruct (diff a j k), (diff b j k); simpl;
    destruct (Rle_dec (eval feed b) (eval feed a)); reflexivity.
Qed.

Lemma eval_diff_esum (feed : list (list R)) (n : nat) (f : nat -> expr)
  (j k : nat) :
  eval feed (or_zero (diff (esum n f) j k))
  = rsum n (fun i => eval feed (or_zero (diff (f i) j k))).
Proof.
  unfold esum, rsum, tabulate.
  induction (seq 0 n) as [|i l IH].
  - reflexivity.
  - cbn [map fold_right]. rewrite eval_diff_Add, IH. reflexivity.
Qed.







Lemma forallb_tabulate_false {A} (g : A -> bool) (n : nat) (f : nat -> A)
  (i : nat) :
  (i < n)%nat -> g (f i) = false -> forallb g (tabulate n f) = false.
Proof.
  intros Hi Hg. destruct (forallb g (tabulate n f)) eqn:E; [|reflexivity].
  rewrite forallb_forall in E. rewrite <- Hg. symmetry. apply E.
  unfold tabulate. apply in_map. apply in_seq. lia.
Qed.


(** [tf.gradients] returns the tensor of partial derivatives as soon as
    one entry of the placeholder has a path. *)
Lemma tf_gradients_some (f : expr) (x : placeholder) (j k : nat) :
  (j < ph_n x)%nat -> (k < ph_d x)%nat -> diff f j k <> None ->
  tf_gradients f x
  = Some (tabulate (ph_n x) (fun j => tabulate (ph_d x) (fun k =>
            or_zero (diff f j k)))).
Proof.
  intros Hj Hk D. unfold tf_gradients.
  rewrite (forallb_tabulate_false _ _ _ j Hj).
  - f_equal. rewrite map_tabulate. apply tabulate_ext; intros j' _.
    apply map_tabulate.
  - apply (forallb_tabulate_false _ _ _ k Hk).
    destruct (diff f j k); [reflexivity | now elim D].
Qed.

(** ** The networks: forward pass *)

Lemma eget2_tabulate (m n : nat) (f : nat -> nat -> expr) (i j : nat) :
  (i < m)%nat -> (j < n)%nat ->
  eget2 (tabulate m (fun i => tabulate n (f i))) i j = f i j.
Proof.
  intros Hi Hj. unfold eget2.
  rewrite nth_tabulate by assumption. now apply nth_tabulate.
Qed.

Lemma esum_ext (n : nat) (f g : nat -> expr) :
  (forall i, (i < n)%nat -> f i = g i) -> esum n f = esum n g.
Proof. intros H. unfold esum. now rewrite (tabulate_ext n f g). Qed.

Lemma t_nrows_ph_tensor (x : placeholder) : t_nrows (ph_tensor x) = ph_n x.
Proof. unfold t_nrows, ph_tensor. simpl. apply length_tabulate. Qed.

Lemma eget2_ph_tensor (x : placeholder) (j k : nat) :
  (j < ph_n x)%nat -> (k < ph_d x)%nat ->
  eget2 (t_rows (ph_tensor x)) j k = Var j k.
Proof. intros. unfold ph_tensor. simpl. now apply eget2_tabulate. Qed.

Lemma forward_tensor_run {S} (net : Network.t) (data : tensor2 expr) (s : S) :
  t_ncols data = Network.ndim_in net ->
  Network.forward_tensor net data s = inr (output_expr net data, s).
Proof.
  intros Hd. unfold Network.forward_tensor, Network.reshape_data_tensor.
  rewrite Hd, Nat.eqb_refl. simpl. unfold bind, ret.
  unfold output_expr, out_expr, Network.affine, preact_expr.
  destruct (Network.cls net) as [|[g0 g1]].
  - reflexivity.
  - rewrite map2_tabulate. reflexivity.
Qed.

Lemma forward_tensor_fail {S} (net : Network.t) (data : tensor2 expr) (s : S) :
  t_ncols data <> Network.ndim_in net ->
  Network.forward_tensor net data s = inl NameError.
Proof.
  intros Hd. unfold Network.forward_tensor, Network.reshape_data_tensor.
  apply Nat.eqb_neq in Hd. rewrite Hd. reflexivity.
Qed.

Lemma eval_preact_expr (net : Network.t) (feed : list (list R)) (j o : nat) :
  (j < Network.batch_size net)%nat ->
  eval feed (preact_expr net (ph_tensor (batch_ph net)) j o)
  = preact net feed j o.
Proof.
  intros Hj. unfold preact_expr, preact. cbn [eval].
  rewrite eval_esum. f_equal. apply rsum_ext; intros k Hk.
  rewrite eget2_ph_tensor by assumption. reflexivity.
Qed.

(** The value of entry [[j, o]] of the network output. *)
Lemma eval_out_expr (net : Network.t) (feed : list (list R)) (j o : nat) :
  (j < Network.batch_size net)%nat ->
  eval feed (out_expr net (ph_tensor (batch_ph net)) j o)
  = match Network.cls net with
    | Network.LinearNetwork => preact net feed j o
    | Network.LinearReLUNetwork (g0, g1) =>
        Rmax (preact net feed j o * g1) (preact net feed j o * g0)
    end.
Proof.
  intros Hj. unfold out_expr.
  destruct (Network.cls net) as [|[g0 g1]]; cbn [eval];
    now rewrite !eval_preact_expr.
Qed.

(** ** The networks: the Jacobian [tf.gradients] builds *)

Lemma diff_Var (j' k' j k : nat) (feed : list (list R)) :
  eval feed (or_zero (diff (Var j' k') j k))
  = if Nat.eqb j j' && Nat.eqb k k' then 1 else 0.
Proof. simpl. destruct (Nat.eqb j j' && Nat.eqb k k'); reflexivity. Qed.

Lemma eval_diff_preact (net : Network.t) (feed : list (list R))
  (j' o j k : nat) :
  (j' < Network.batch_size net)%nat -> (k < Network.ndim_in net)%nat ->
  eval feed (or_zero (diff (preact_expr net (ph_tensor (batch_ph net)) j' o)
                           j k))
  = if Nat.eqb j j' then get2 (Network.W net) o k else 0.
Proof.
  intros Hj' Hk. unfold preact_expr.
  rewrite eval_diff_Add, eval_diff_esum.
  rewrite (rsum_ext _ _ (fun k' =>
             (if Nat.eqb j j' && Nat.eqb k k' then 1 else 0)
             * get2 (Network.W net) o k')).
  2:{ intros k' Hk'. rewrite eval_diff_Mul_const.
      rewrite eget2_ph_tensor by assumption. now rewrite diff_Var. }
  cbn [diff or_zero eval].
  rewrite (rsum_single _ k) by
    (try assumption; intros i _ Hne;
     apply Nat.eqb_neq in Hne; rewrite Nat.eqb_sym in Hne;
     rewrite Hne, andb_false_r; lra).
  rewrite Nat.eqb_refl, andb_true_r.
  destruct (Nat.eqb j j'); lra.
Qed.

Lemma eval_diff_out (net : Network.t) (feed : list (list R))
  (j' o j k : nat) :
  (j' < Network.batch_size net)%nat -> (k < Network.ndim_in net)%nat ->
  eval feed (or_zero (diff (out_expr net (ph_tensor (batch_ph net)) j' o)
                           j k))
  = if Nat.eqb j j'
    then autodiff_slope net (preact net feed j' o) * get2 (Network.W net) o k
    else 0.
Proof.
  intros Hj' Hk. unfold out_expr, autodiff_slope.
  destruct (Network.cls net) as [|[g0 g1]].
  - rewrite eval_diff_preact by assumption.
    destruct (Nat.eqb j j'); lra.
  - rewrite eval_diff_Max, !eval_diff_Mul_const. cbn [eval].
    rewrite !eval_diff_preact, eval_preact_expr by assumption.
    destruct (Rle_dec (preact net feed j' o * g0) (preact net feed j' o * g1));
      destruct (Nat.eqb j j'); lra.
Qed.

(** The Jacobian entry: the slope of the activation times the weight. *)
Lemma eval_diff_sum_output (net : Network.t) (feed : list (list R))
  (o j k : nat) :
  (j < Network.batch_size net)%nat -> (k < Network.ndim_in net)%nat ->
  eval feed (or_zero (diff (sum_output_expr net o) j k))
  = autodiff_slope net (preact net feed j o) * get2 (Network.W net) o k.
Proof.
  intros Hj Hk. unfold sum_output_expr. rewrite eval_diff_esum.
  rewrite (rsum_ext _ _ (fun j' =>
             if Nat.eqb j j'
             then autodiff_slope net (preact net feed j' o)
                  * get2 (Network.W net) o k
             else 0))
    by (intros j' Hj'; now apply eval_diff_out).
  rewrite (rsum_single _ j) by
    (try assumption; intros i _ Hne;
     apply Nat.eqb_neq in Hne; rewrite Nat.eqb_sym in Hne;
     now rewrite Hne).
  now rewrite Nat.eqb_refl.
Qed.

Lemma diff_esum_some (n : nat) (f : nat -> expr) (i j k : nat) :
  (i < n)%nat -> diff (f i) j k <> None -> diff (esum n f) j k <> None.
Proof.
  intros Hi D. unfold esum, tabulate.
  assert (Hin : In i (seq 0 n)) by (apply in_seq; lia).
  induction (seq 0 n) as [|x l IH]; [contradiction|].
  cbn [map fold_right diff]. destruct Hin as [->|Hin].
  - destruct (diff (f i) j k); [|now elim D].
    destruct (diff (fold_right Add (Const 0) (map f l)) j k); discriminate.
  - specialize (IH Hin).
    destruct (diff (fold_right Add (Const 0) (map f l)) j k); [|now elim IH].
    destruct (diff (f x) j k); discriminate.
Qed.

Lemma diff_preact_some (net : Network.t) (j o k : nat) :
  (j < Network.batch_size net)%nat -> (k < Network.ndim_in net)%nat ->
  diff (preact_expr net (ph_tensor (batch_ph net)) j o) j k <> None.
Proof.
  intros Hj Hk. unfold preact_expr. cbn [diff].
  assert (D : diff (esum (Network.ndim_in net) (fun k0 =>
                Mul (eget2 (t_rows (ph_tensor (batch_ph net))) j k0)
                    (Const (get2 (Network.W net) o k0)))) j k <> None).
  { apply (diff_esum_some _ _ k); [assumption|].
    rewrite eget2_ph_tensor by assumption. cbn [diff].
    rewrite !Nat.eqb_refl. discriminate. }
  destruct (diff (esum _ _) j k); [discriminate | now elim D].
Qed.

Lemma diff_out_some (net : Network.t) (j o k : nat) :
  (j < Network.batch_size net)%nat -> (k < Network.ndim_in net)%nat ->
  diff (out_expr net (ph_tensor (batch_ph net)) j o) j k <> None.
Proof.
  intros Hj Hk. assert (D := diff_preact_some net j o k Hj Hk).
  unfold out_expr. destruct (Network.cls net) as [|[g0 g1]].
  - exact D.
  - cbn [diff].
    destruct (diff (preact_expr net (ph_tensor (batch_ph net)) j o) j k);
      [discriminate | now elim D].
Qed.

Lemma diff_sum_output_some (net : Network.t) (o j k : nat) :
  (j < Network.batch_size net)%nat -> (k < Network.ndim_in net)%nat ->
  diff (sum_output_expr net o) j k <> None.
Proof.
  intros Hj Hk. unfold sum_output_expr.
  apply (diff_esum_some _ _ j); [assumption|].
  now apply diff_out_some.
Qed.





(** ** The networks: second-derivative extraction (C4) *)

Lemma SumOutputNet_init_run {S} (net : Network.t) (s : S) :
  Network.SumOutputNet_init net s
  = inr (Network.mkson (batch_ph net)
           (output_expr net (ph_tensor (batch_ph net)))
           (tabulate (Network.ndim_out net) (sum_output_expr net)), s).
Proof.
  unfold Network.SumOutputNet_init. fold (batch_ph net).
  rewrite (bind_inr _ _ _ _ _
             (forward_tensor_run net (ph_tensor (batch_ph net)) s eq_refl)).
  unfold ret. do 3 f_equal.
  unfold output_expr. cbn [t_ncols t_rows]. unfold t_nrows at 1.
  cbn [t_rows]. rewrite length_tabulate, t_nrows_ph_tensor.
  apply tabulate_ext; intros o Ho. unfold sum_output_expr.
  apply esum_ext; intros j Hj.
  cbn [batch_ph ph_n] in *. now rewrite eget2_tabulate.
Qed.

Lemma stack_gradients_some {S} (l : list nat)
  (g : nat -> list (list expr)) (s : S) :
  Network.stack_gradients (map (fun i => Some (g i)) l) s
  = inr (map g l, s).
Proof.
  induction l as [|i l IH]; simpl.
  - reflexivity.
  - unfold bind. now rewrite IH.
Qed.



(** The first gradient is a tensor on a batch and an input that are not
    empty. *)
Lemma tf_gradients_sum_output (net : Network.t) (oi : nat) :
  (0 < Network.batch_size net)%nat -> (0 < Network.ndim_in net)%nat ->
  tf_gradients (sum_output_expr net oi) (batch_ph net)
  = Some (tabulate (Network.batch_size net) (fun j =>
            tabulate (Network.ndim_in net) (fun k =>
              or_zero (diff (sum_output_expr net oi) j k)))).
Proof.
  intros Hb Hd.
  apply (tf_gradients_some (sum_output_expr net oi) (batch_ph net) 0 0);
    try assumption.
  now apply diff_sum_output_some.
Qed.





(** ** The networks: the analytic Jacobians (C8) *)

Lemma get3_transpose102 (a n d : nat) (g : list (list (list R)))
  (o j k : nat) :
  (o < a)%nat -> (j < n)%nat -> (k < d)%nat ->
  get3 (Network.transpose102 a n d g) o j k = get3 g j o k.
Proof.
  intros. unfold Network.transpose102. now rewrite get3_tabulate.
Qed.

Lemma at2_output_value (net : Network.t) (feed : list (list R)) (j o : nat) :
  (j < Network.batch_size net)%nat -> (o < Network.ndim_out net)%nat ->
  at2 (Network.value feed (output_expr net (ph_tensor (batch_ph net)))) j o
  = eval feed (out_expr net (ph_tensor (batch_ph net)) j o).
Proof.
  intros Hj Ho. unfold at2, Network.value, output_expr, eval2.
  cbn [t_rows]. rewrite map2_tabulate, t_nrows_ph_tensor.
  now rewrite get2_tabulate.
Qed.

Lemma t_nrows_output_value (net : Network.t) (feed : list (list R)) :
  t_nrows (Network.value feed (output_expr net (ph_tensor (batch_ph net))))
  = Network.batch_size net.
Proof.
  unfold t_nrows, Network.value, output_expr, eval2. cbn [t_rows].
  rewrite length_map, length_tabulate. apply t_nrows_ph_tensor.
Qed.

Lemma LinearNetwork_get_grad_data_run {S} (net : Network.t)
  (feed : list (list R)) (s : S) :
  Network.LinearNetwork_get_grad_data net feed s
  = inr (Network.transpose102 (Network.ndim_out net) (Network.batch_size net)
           (Network.ndim_in net)
           (tabulate (Network.batch_size net) (fun _ => Network.W net)),
         Network.value feed (output_expr net (ph_tensor (batch_ph net))),
         batch_ph net, s).
Proof.
  unfold Network.LinearNetwork_get_grad_data, Network.reshape_data_tensor.
  cbn [ph_tensor t_ncols ph_d]. rewrite Nat.eqb_refl. cbn [negb].
  unfold bind at 1. unfold ret at 1. fold (batch_ph net).
  change (mk2 (tabulate (ph_n (batch_ph net)) (fun j =>
                 tabulate (Network.ndim_in net) (fun k => Var j k)))
              (Network.ndim_in net))
    with (ph_tensor (batch_ph net)).
  rewrite (bind_inr _ _ _ _ _
             (forward_tensor_run net (ph_tensor (batch_ph net)) s eq_refl)).
  reflexivity.
Qed.

Lemma LinearReLUNetwork_get_grad_data_run {S} (net : Network.t)
  (lin_grads : R * R) (feed : list (list R)) (s : S) :
  Network.LinearReLUNetwork_get_grad_data net lin_grads feed s
  = inr (Network.transpose102 (Network.ndim_out net) (Network.batch_size net)
           (Network.ndim_in net)
           (Network.get_grad_input net lin_grads
              (Network.value feed
                 (output_expr net (ph_tensor (batch_ph net))))),
         Network.value feed (output_expr net (ph_tensor (batch_ph net))),
         batch_ph net, s).
Proof.
  unfold Network.LinearReLUNetwork_get_grad_data, Network.reshape_data_tensor.
  cbn [ph_tensor t_ncols ph_d]. rewrite Nat.eqb_refl. cbn [negb].
  unfold bind at 1. unfold ret at 1. fold (batch_ph net).
  change (mk2 (tabulate (ph_n (batch_ph net)) (fun j =>
                 tabulate (Network.ndim_in net) (fun k => Var j k)))
              (Network.ndim_in net))
    with (ph_tensor (batch_ph net)).
  rewrite (bind_inr _ _ _ _ _
             (forward_tensor_run net (ph_tensor (batch_ph net)) s eq_refl)).
  reflexivity.
Qed.

Lemma slope_of_casts (lin_grads : R * R) (o : R) :
  snd lin_grads * Network.cast_gt0 o + fst lin_grads * Network.cast_le0 o
  = analytic_slope lin_grads o.
Proof.
  unfold Network.cast_gt0, Network.cast_le0, analytic_slope.
  destruct (Rlt_dec 0 o), (Rle_dec o 0); lra.
Qed.

(** Entries of the Jacobian [LinearReLUNetwork.get_grad_data] returns. *)
Lemma relu_grad_entry (net : Network.t) (lin_grads : R * R)
  (feed : list (list R)) (o j k : nat) :
  (o < Network.ndim_out net)%nat -> (j < Network.batch_size net)%nat ->
  (k < Network.ndim_in net)%nat ->
  get3 (Network.transpose102 (Network.ndim_out net) (Network.batch_size net)
          (Network.ndim_in net)
          (Network.get_grad_input net lin_grads
             (Network.value feed
                (output_expr net (ph_tensor (batch_ph net)))))) o j k
  = analytic_slope lin_grads
      (eval feed (out_expr net (ph_tensor (batch_ph net)) j o))
    * get2 (Network.W net) o k.
Proof.
  intros Ho Hj Hk. rewrite get3_transpose102 by assumption.
  unfold Network.get_grad_input. rewrite t_nrows_output_value.
  rewrite get3_tabulate by assumption.
  now rewrite slope_of_casts, at2_output_value.
Qed.

(** Entries of the Jacobian [LinearNetwork.get_grad_data] returns. *)
Lemma linear_grad_entry (net : Network.t) (o j k : nat) :
  (o < Network.ndim_out net)%nat -> (j < Network.batch_size net)%nat ->
  (k < Network.ndim_in net)%nat ->
  get3 (Network.transpose102 (Network.ndim_out net) (Network.batch_size net)
          (Network.ndim_in net)
          (tabulate (Network.batch_size net) (fun _ => Network.W net))) o j k
  = get2 (Network.W net) o k.
Proof.
  intros Ho Hj Hk. rewrite get3_transpose102 by assumption.
  unfold get3. now rewrite nth_tabulate.
Qed.

(** Sign of the activation output from the sign of the pre-activation. *)
Lemma relu_out_pos (g0 g1 z : R) :
  0 < z -> 0 < g1 \/ 0 < g0 -> 0 < Rmax (z * g1) (z * g0).
Proof.
  intros Hz [H|H].
  - apply Rlt_le_trans with (z * g1); [nra | apply Rmax_l].
  - apply Rlt_le_trans with (z * g0); [nra | apply Rmax_r].
Qed.

Lemma relu_out_nonpos (g0 g1 z : R) :
  z < 0 -> 0 <= g0 -> 0 <= g1 -> Rmax (z * g1) (z * g0) <= 0.
Proof. intros Hz H0 H1. apply Rmax_lub; nra. Qed.

Lemma tabulate3_ext (a n d : nat) (f g : nat -> nat -> nat -> R) :
  (forall o j k, (o < a)%nat -> (j < n)%nat -> (k < d)%nat ->
     f o j k = g o j k) ->
  tabulate a (fun o => tabulate n (fun j => tabulate d (f o j)))
  = tabulate a (fun o => tabulate n (fun j => tabulate d (g o j))).
Proof.
  intros H. apply tabulate_ext; intros o Ho. apply tabulate_ext; intros j Hj.
  apply tabulate_ext; intros k Hk. now apply H.
Qed.

(** Case analysis on every comparison of reals in the goal. *)
Ltac real_cases :=
  unfold Rmax;
  repeat match goal with
         | |- context [Rle_dec ?a ?b] => destruct (Rle_dec a b)
         | |- context [Rlt_dec ?a ?b] => destruct (Rlt_dec a b)
         end;
  intros; lra.

(** C8, as the code has it.  The Jacobian [LinearReLUNetwork.get_grad_data]
    returns is the weight matrix gated per output coordinate by
    [lin_grads[1]] where the output is positive and by [lin_grads[0]]
    otherwise.  Where all pre-activations are strictly positive and one of
    the two slopes is positive, it is [lin_grads[1]] times the weight
    matrix, and with [lin_grads[1] = 1] (the default) it is the Jacobian of
    the [LinearNetwork] with the same parameters.  Where all
    pre-activations are strictly negative and both slopes are nonnegative,
    it is the weight matrix scaled by [lin_grads[0]]. *)
Theorem relu_jacobian (net : Network.t) (g0 g1 : R) (feed : list (list R))
  (S : Type) (s : S) :
  Network.cls net = Network.LinearReLUNetwork (g0, g1) ->
  exists grad out x,
    Network.get_grad_data net feed s = inr (grad, out, x, s) /\
    (forall o j k,
       (o < Network.ndim_out net)%nat -> (j < Network.batch_size net)%nat ->
       (k < Network.ndim_in net)%nat ->
       at2 out j o = Rmax (preact net feed j o * g1) (preact net feed j o * g0)
       /\
       get3 grad o j k
       = (if Rlt_dec 0 (at2 out j o) then g1 else g0)
         * get2 (Network.W net) o k) /\
    ((forall j o, (j < Network.batch_size net)%nat ->
                  (o < Network.ndim_out net)%nat ->
                  0 < preact net feed j o) ->
     (0 < g1 \/ 0 < g0) ->
     (forall o j k,
        (o < Network.ndim_out net)%nat -> (j < Network.batch_size net)%nat ->
        (k < Network.ndim_in net)%nat ->
        get3 grad o j k = g1 * get2 (Network.W net) o k) /\
     (g1 = 1 ->
      exists out',
        Network.get_grad_data (as_linear net) feed s
        = inr (grad, out', x, s))) /\
    ((forall j o, (j < Network.batch_size net)%nat ->
                  (o < Network.ndim_out net)%nat ->
                  preact net feed j o < 0) ->
     0 <= g0 -> 0 <= g1 ->
     forall o j k,
       (o < Network.ndim_out net)%nat -> (j < Network.batch_size net)%nat ->
       (k < Network.ndim_in net)%nat ->
       get3 grad o j k = g0 * get2 (Network.W net) o k).
Proof.
  intros Hcls. unfold Network.get_grad_data. rewrite Hcls.
  rewrite LinearReLUNetwork_get_grad_data_run.
  eexists. eexists. eexists. split; [reflexivity|].
  assert (Hout : forall j o,
            (j < Network.batch_size net)%nat ->
            (o < Network.ndim_out net)%nat ->
            eval feed (out_expr net (ph_tensor (batch_ph net)) j o)
            = Rmax (preact net feed j o * g1) (preact net feed j o * g0)).
  { intros j o Hj Ho. rewrite eval_out_expr by assumption.
    now rewrite Hcls. }
  assert (Hent : forall o j k,
            (o < Network.ndim_out net)%nat ->
            (j < Network.batch_size net)%nat ->
            (k < Network.ndim_in net)%nat ->
            get3 (Network.transpose102 (Network.ndim_out net)
                    (Network.batch_size net) (Network.ndim_in net)
                    (Network.get_grad_input net (g0, g1)
                       (Network.value feed
                          (output_expr net (ph_tensor (batch_ph net))))))
                 o j k
            = (if Rlt_dec 0 (Rmax (preact net feed j o * g1)
                                  (preact net feed j o * g0))
               then g1 else g0) * get2 (Network.W net) o k).
  { intros o j k Ho Hj Hk. rewrite relu_grad_entry by assumption.
    rewrite Hout by assumption. reflexivity. }
  split; [|split].
  - intros o j k Ho Hj Hk.
    rewrite at2_output_value, Hout by assumption.
    split; [reflexivity | now apply Hent].
  - intros Hpos Hg. split.
    + intros o j k Ho Hj Hk. rewrite Hent by assumption.
      assert (P := relu_out_pos g0 g1 _ (Hpos j o Hj Ho) Hg).
      destruct (Rlt_dec 0 _); [reflexivity | contradiction].
    + intros H1. eexists. cbn [as_linear Network.cls].
      rewrite LinearNetwork_get_grad_data_run.
      cbn [as_linear Network.ndim_out Network.batch_size Network.ndim_in
           Network.W].
      do 4 f_equal.
      * unfold Network.transpose102. apply tabulate3_ext.
        intros o j k Ho Hj Hk.
        assert (E := Hent o j k Ho Hj Hk).
        rewrite get3_transpose102 in E by assumption. rewrite E.
        assert (P := relu_out_pos g0 g1 _ (Hpos j o Hj Ho) Hg).
        destruct (Rlt_dec 0 _); [|contradiction].
        unfold get3. rewrite nth_tabulate by assumption.
        rewrite H1. lra.
  - intros Hneg H0 H1 o j k Ho Hj Hk. rewrite Hent by assumption.
    assert (P := relu_out_nonpos g0 g1 _ (Hneg j o Hj Ho) H0 H1).
    destruct (Rlt_dec 0 _); [lra | reflexivity].
Qed.

Lemma preact_relu_net (lin_grads : R * R) (v : R) :
  preact (Examples.relu_net lin_grads) [[v]] 0 0 = v.
Proof.
  unfold preact, rsum, tabulate, get2, get1. simpl. lra.
Qed.

(** The Jacobian entry of the one-by-one network at input [v]. *)
Lemma relu_net_grad_entry (g0 g1 v : R) :
  exists g out x,
    Network.get_grad_data (Examples.relu_net (g0, g1)) [[v]] tt
    = inr (g, out, x, tt) /\
    get3 g 0 0 0 = (if Rlt_dec 0 (Rmax (v * g1) (v * g0)) then g1 else g0) * 1.
Proof.
  unfold Network.get_grad_data. cbn [Network.cls Examples.relu_net].
  rewrite LinearReLUNetwork_get_grad_data_run.
  eexists. eexists. eexists. split; [reflexivity|].
  rewrite relu_grad_entry by (simpl; lia).
  rewrite eval_out_expr by (simpl; lia).
  cbn [Network.cls Examples.relu_net]. rewrite preact_relu_net.
  reflexivity.
Qed.

Lemma linear_net_grad_entry (g0 g1 v : R) :
  exists g out x,
    Network.get_grad_data (as_linear (Examples.relu_net (g0, g1))) [[v]] tt
    = inr (g, out, x, tt) /\
    get3 g 0 0 0 = 1.
Proof.
  unfold Network.get_grad_data. cbn [Network.cls as_linear].
  rewrite LinearNetwork_get_grad_data_run.
  eexists. eexists. eexists. split; [reflexivity|].
  rewrite linear_grad_entry by (simpl; lia). reflexivity.
Qed.

Lemma relu_jacobian_witness :
  Network.cls (Examples.relu_net (0, 1)) = Network.LinearReLUNetwork (0, 1) /\
  exists grad out x,
    Network.get_grad_data (Examples.relu_net (0, 1)) [[2]] tt
    = inr (grad, out, x, tt) /\
    at2 out 0 0 = Rmax (2 * 1) (2 * 0) /\
    get3 grad 0 0 0 = 1 * 1.
Proof.
  split; [reflexivity|].
  destruct (relu_jacobian (Examples.relu_net (0, 1)) 0 1 [[2]] unit tt eq_refl)
    as [grad [out [x [Hrun [Hent [Hpos _]]]]]].
  exists grad, out, x. split; [exact Hrun|].
  assert (P : forall j o, (j < 1)%nat -> (o < 1)%nat ->
                0 < preact (Examples.relu_net (0, 1)) [[2]] j o).
  { intros j o Hj Ho. replace j with 0%nat by lia. replace o with 0%nat by lia.
    rewrite preact_relu_net. lra. }
  split.
  - destruct (Hent 0%nat 0%nat 0%nat) as [E _]; try (simpl; lia).
    rewrite E, preact_relu_net. reflexivity.
  - destruct (Hpos P) as [E _]; [left; lra|].
    apply (E 0%nat 0%nat 0%nat); simpl; lia.
Defined.

(** C8 as stated fails.  With [lin_grads = [0, 2]] and a strictly positive
    pre-activation the Jacobian is twice the weight matrix, not the
    Jacobian of the [LinearNetwork]; with [lin_grads = [-1, 1]] and a
    strictly negative pre-activation the output is positive and the
    Jacobian is [lin_grads[1]] times the weight matrix, not
    [lin_grads[0]] times it. *)
Lemma relu_jacobian_counterexample :
  (forall j o, (j < 1)%nat -> (o < 1)%nat ->
     0 < preact (Examples.relu_net (0, 2)) [[1]] j o) /\
  (exists g gl out outl x,
     Network.get_grad_data (Examples.relu_net (0, 2)) [[1]] tt
     = inr (g, out, x, tt) /\
     Network.get_grad_data (as_linear (Examples.relu_net (0, 2))) [[1]] tt
     = inr (gl, outl, x, tt) /\
     g <> gl) /\
  (forall j o, (j < 1)%nat -> (o < 1)%nat ->
     preact (Examples.relu_net (-1, 1)) [[-1]] j o < 0) /\
  (exists g out x,
     Network.get_grad_data (Examples.relu_net (-1, 1)) [[-1]] tt
     = inr (g, out, x, tt) /\
     get3 g 0 0 0 <> -1 * get2 (Network.W (Examples.relu_net (-1, 1))) 0 0).
Proof.
  split; [|split; [|split]].
  - intros j o Hj Ho. replace j with 0%nat by lia. replace o with 0%nat by lia.
    rewrite preact_relu_net. lra.
  - destruct (relu_net_grad_entry 0 2 1) as [g [out [x [Hg Eg]]]].
    destruct (linear_net_grad_entry 0 2 1) as [gl [outl [x' [Hl El]]]].
    assert (Hx : x' = x).
    { unfold Network.get_grad_data in Hg, Hl.
      cbn [Network.cls as_linear Examples.relu_net] in Hg, Hl.
      rewrite LinearReLUNetwork_get_grad_data_run in Hg.
      rewrite LinearNetwork_get_grad_data_run in Hl.
      inversion Hg; inversion Hl; reflexivity. }
    subst x'. exists g, gl, out, outl, x.
    split; [exact Hg|]. split; [exact Hl|].
    intros E. rewrite E, El in Eg. revert Eg. real_cases.
  - intros j o Hj Ho. replace j with 0%nat by lia. replace o with 0%nat by lia.
    rewrite preact_relu_net. lra.
  - destruct (relu_net_grad_entry (-1) 1 (-1)) as [g [out [x [Hg Eg]]]].
    exists g, out, x. split; [exact Hg|].
    rewrite Eg. unfold get2, get1. simpl. real_cases.
Qed.

(** ** The model: running the score methods (C1) *)

Lemma forward_value_run {S} (net : Network.t) (data : tensor2 R) (s : S) :
  t_ncols data = Network.ndim_in net ->
  Network.forward_value net data s
  = inr (Network.value [] (output_expr net (const_tensor data)), s).
Proof.
  intros Hd. unfold Network.forward_value.
  rewrite (bind_inr _ _ _ _ _
             (forward_tensor_run net (const_tensor data) s Hd)).
  reflexivity.
Qed.

Lemma forward_value_fail {S} (net : Network.t) (data : tensor2 R) (s : S) :
  t_ncols data <> Network.ndim_in net ->
  Network.forward_value net data s = inl NameError.
Proof.
  intros Hd. unfold Network.forward_value.
  now rewrite (bind_inl _ _ _ _ (forward_tensor_fail net (const_tensor data) s Hd)).
Qed.



Lemma eval3_tabulate (feed : list (list R)) (a n d : nat)
  (f : nat -> nat -> nat -> expr) :
  eval3 feed (tabulate a (fun o => tabulate n (fun j => tabulate d (f o j))))
  = tabulate a (fun o => tabulate n (fun j => tabulate d (fun k =>
      eval feed (f o j k)))).
Proof.
  unfold eval3, eval2. rewrite map_tabulate.
  apply tabulate_ext; intros o _. apply map2_tabulate.
Qed.

(** Entries of the Jacobian [get_sec_data] returns, under a feed. *)
Lemma autodiff_grad_entry (net : Network.t) (feed : list (list R))
  (o j k : nat) :
  (o < Network.ndim_out net)%nat -> (j < Network.batch_size net)%nat ->
  (k < Network.ndim_in net)%nat ->
  get3 (eval3 feed (autodiff_grad net)) o j k
  = autodiff_slope net (preact net feed j o) * get2 (Network.W net) o k.
Proof.
  intros Ho Hj Hk. unfold autodiff_grad. rewrite eval3_tabulate.
  rewrite get3_tabulate by assumption.
  now apply eval_diff_sum_output.
Qed.

(** Entries of the Jacobian [get_grad_data] returns. *)
Lemma analytic_grad_entry {S} (net : Network.t) (feed : list (list R))
  (s : S) :
  exists dydx,
    Network.get_grad_data net feed s
    = inr (dydx, batch_features net feed, batch_ph net, s) /\
    forall o j k,
      (o < Network.ndim_out net)%nat -> (j < Network.batch_size net)%nat ->
      (k < Network.ndim_in net)%nat ->
      get3 dydx o j k
      = match Network.cls net with
        | Network.LinearNetwork => 1
        | Network.LinearReLUNetwork (g0, g1) =>
            analytic_slope (g0, g1)
              (Rmax (preact net feed j o * g1) (preact net feed j o * g0))
        end * get2 (Network.W net) o k.
Proof.
  unfold Network.get_grad_data, batch_features.
  destruct (Network.cls net) as [|[g0 g1]] eqn:Hcls.
  - rewrite LinearNetwork_get_grad_data_run. eexists. split; [reflexivity|].
    intros o j k Ho Hj Hk. rewrite linear_grad_entry by assumption. lra.
  - rewrite LinearReLUNetwork_get_grad_data_run.
    eexists. split; [reflexivity|].
    intros o j k Ho Hj Hk. rewrite relu_grad_entry by assumption.
    rewrite eval_out_expr by assumption. now rewrite Hcls.
Qed.

(** Off the kinks the two slopes coincide. *)
Lemma slopes_agree (net : Network.t) (data : list (list R)) (j o : nat) :
  off_kink net data ->
  (j < Network.batch_size net)%nat -> (o < Network.ndim_out net)%nat ->
  autodiff_slope net (preact net data j o)
  = match Network.cls net with
    | Network.LinearNetwork => 1
    | Network.LinearReLUNetwork (g0, g1) =>
        analytic_slope (g0, g1)
          (Rmax (preact net data j o * g1) (preact net data j o * g0))
    end.
Proof.
  unfold off_kink, autodiff_slope, analytic_slope.
  destruct (Network.cls net) as [|[g0 g1]]; [reflexivity|].
  intros [Hg Hz] Hj Ho. specialize (Hz j o Hj Ho). cbn [fst snd].
  set (z := preact net data j o) in *.
  destruct (Rle_dec (z * g0) (z * g1)) as [L|L];
    destruct (Rlt_dec 0 (Rmax (z * g1) (z * g0))) as [P|P];
    try reflexivity.
  - (* the autodiff picks g1, the output is not positive *)
    destruct (Rtotal_order z 0) as [Hn|[Hn|Hn]]; [|contradiction|].
    + nra.
    + assert (z * g1 <= 0) by (apply Rnot_lt_le in P;
        apply Rle_trans with (Rmax (z * g1) (z * g0)); [apply Rmax_l|lra]).
      nra.
  - (* the autodiff picks g0, the output is positive *)
    destruct (Rtotal_order z 0) as [Hn|[Hn|Hn]]; [|contradiction|].
    + assert (Rmax (z * g1) (z * g0) <= 0) by (apply Rmax_lub; nra). lra.
    + nra.
Qed.

Lemma process_data_run (self : KernelNetModel.t) (p : tensor2 R) :
  t_ncols p = Network.ndim_in (KernelNetModel.network self) ->
  KernelNetModel._process_data p self
  = inr (Network.value []
           (output_expr (KernelNetModel.network self) (const_tensor p)), self).
Proof.
  intros Hd. unfold KernelNetModel._process_data.
  rewrite bind_get. now rewrite forward_value_run.
Qed.












(** Evaluation of a closed term down to its real arithmetic; the tests
    of a divisor against zero are decided on the way. *)
Ltac reals_head :=
  cbv -[Rplus Rmult Rminus Ropp Rdiv Rinv exp Rle_dec Rlt_dec Rmax IZR pow
        Q2R INR Req_EM_T].

Ltac run_reals :=
  reals_head;
  repeat (match goal with
          | |- context [Req_EM_T ?a ?b] =>
              let E := fresh "E" in
              destruct (Req_EM_T a b) as [E|E]; [exfalso; lra | clear E]
          end; reals_head).



(** ** The cached distances (C10) *)

Lemma with_kernel_run {A} (c : M GaussianKernel.t A)
  (self : KernelNetModel.t) (a : A) (k' : GaussianKernel.t) :
  c (KernelNetModel.kernel self) = inr (a, k') ->
  KernelNetModel.with_kernel c self = inr (a, with_kernel_state self k').
Proof. intros H. unfold KernelNetModel.with_kernel. now rewrite H. Qed.

Lemma get_X_run (self : KernelNetModel.t) (x : tensor2 R) :
  KernelNetModel.X self = Some x -> KernelNetModel.get_X self = inr (x, self).
Proof.
  intros H. unfold KernelNetModel.get_X. rewrite bind_get. now rewrite H.
Qed.

Lemma get2_map2 (f : R -> R) (P : list (list R)) (m n i j : nat) :
  length P = m -> Forall (fun r => length r = n) P ->
  (i < m)%nat -> (j < n)%nat ->
  get2 (map (map f) P) i j = f (get2 P i j).
Proof.
  intros Hm Hn Hi Hj. unfold get2, get1.
  assert (Hr : length (nth i P []) = n).
  { rewrite Forall_forall in Hn. apply Hn. apply nth_In. lia. }
  rewrite (nth_indep _ [] (map f [])) by (rewrite length_map; lia).
  rewrite map_nth.
  rewrite (nth_indep _ 0 (f 0)) by (rewrite length_map; lia).
  now rewrite map_nth.
Qed.

Lemma pdist2_matrix_shape (X Y : tensor2 R) :
  length (pdist2_matrix X Y) = t_nrows X /\
  Forall (fun r => length r = t_nrows Y) (pdist2_matrix X Y).
Proof.
  unfold pdist2_matrix. split; [apply length_tabulate|].
  apply Forall_tabulate; intros i _. apply length_tabulate.
Qed.

Lemma t_nrows_features (net : Network.t) (data : tensor2 R) :
  t_nrows (features net data) = t_nrows data.
Proof.
  unfold features, Network.value, output_expr, eval2, t_nrows.
  cbn [t_rows]. rewrite length_map, length_tabulate.
  unfold const_tensor. cbn [t_rows]. apply length_map.
Qed.

(** The statement of [score_original] that builds [D], run on any model
    state: with a bandwidth that is not zero it returns the field
    [pdist2] of the kernel, scaled and shifted, whatever that field
    holds; it raises [TypeError] when the field is still [None]. *)
Lemma score_original_D_run (s : KernelNetModel.t) (sg : Python.number)
  (nd : nat) (P : list (list R)) :
  Python.value sg <> 0 ->
  GaussianKernel.pdist2 (KernelNetModel.kernel s) = Some P ->
  KernelNetModel.score_original_D sg nd s
  = inr (map (map (fun p => 1 / Python.value sg * p - INR nd)) P, s).
Proof.
  intros Hs HP. unfold KernelNetModel.score_original_D.
  rewrite (bind_inr _ _ _ _ _ (div_float_run 1 sg s Hs)).
  rewrite bind_get, HP. reflexivity.
Qed.

Lemma score_original_D_none (s : KernelNetModel.t) (sg : Python.number)
  (nd : nat) :
  Python.value sg <> 0 ->
  GaussianKernel.pdist2 (KernelNetModel.kernel s) = None ->
  KernelNetModel.score_original_D sg nd s = inl TypeError.
Proof.
  intros Hs HP. unfold KernelNetModel.score_original_D.
  rewrite (bind_inr _ _ _ _ _ (div_float_run 1 sg s Hs)).
  rewrite bind_get, HP. reflexivity.
Qed.

(** [score_original] up to the Gram matrix, for any kernel method. *)
Lemma score_original_K_run
  (gram : tensor2 R -> tensor2 R -> M GaussianKernel.t (list (list R)))
  (self : KernelNetModel.t) (data x : tensor2 R) (K : list (list R))
  (k' : GaussianKernel.t) :
  KernelNetModel.X self = Some x ->
  t_ncols data = Network.ndim_in (KernelNetModel.network self) ->
  gram x (features (KernelNetModel.network self) data)
    (KernelNetModel.kernel self) = inr (K, k') ->
  KernelNetModel.score_original_K gram data self
  = inr (features (KernelNetModel.network self) data, K,
         with_kernel_state self k').
Proof.
  intros HX Hdata Hg.
  unfold KernelNetModel.score_original_K.
  rewrite bind_get.
  rewrite (bind_inr _ _ _ _ _ (forward_value_run _ data self Hdata)).
  rewrite (bind_inr _ _ _ _ _ (get_X_run self x HX)).
  fold (features (KernelNetModel.network self) data).
  rewrite (bind_inr _ _ _ _ _ (with_kernel_run _ self _ _ Hg)).
  reflexivity.
Qed.

(** The value [score_original] returns, for any kernel method: it is
    built from the Gram matrix the method returned and from the field
    [pdist2] the method left behind. *)
Lemma score_original_with_run
  (gram : tensor2 R -> tensor2 R -> M GaussianKernel.t (list (list R)))
  (self : KernelNetModel.t) (data x : tensor2 R) (K P : list (list R))
  (k' : GaussianKernel.t) :
  KernelNetModel.X self = Some x ->
  t_ncols data = Network.ndim_in (KernelNetModel.network self) ->
  GaussianKernel.sigma (KernelNetModel.kernel self) <> 0 ->
  (0 < t_nrows data)%nat ->
  gram x (features (KernelNetModel.network self) data)
    (KernelNetModel.kernel self) = inr (K, k') ->
  GaussianKernel.pdist2 k' = Some P ->
  KernelNetModel.score_original_with gram data self
  = inr (score_original_J self data x
           (features (KernelNetModel.network self) data) K P,
         with_kernel_state self k').
Proof.
  intros HX Hdata Hs HN Hg HP.
  set (sigma := GaussianKernel.sigma (KernelNetModel.kernel self)) in *.
  set (Y := features (KernelNetModel.network self) data) in *.
  set (s1 := with_kernel_state self k').
  set (sg := Python.mul (GaussianKernel.sigma_obj (KernelNetModel.kernel self))
               (Python.Int 1)).
  assert (Hsg : Python.value sg = sigma) by apply value_mul_one.
  assert (Hsg0 : Python.value sg <> 0) by (now rewrite Hsg).
  assert (HNr : Python.value (Python.Int (Z.of_nat (t_nrows data))) <> 0).
  { rewrite value_of_nat. apply not_0_INR. lia. }
  assert (Hsq : Python.value (Python.pow sg 2) <> 0).
  { rewrite value_pow. now apply pow_nonzero. }
  unfold KernelNetModel.score_original_with.
  rewrite bind_get. cbv zeta. fold sg.
  rewrite (bind_inr _ _ _ _ _
             (score_original_K_run gram self data x K k' HX Hdata Hg)).
  fold Y s1. cbv beta iota.
  rewrite (bind_inr _ _ _ _ _
             (score_original_D_run s1 sg (KernelNetModel.ndim self) P
                Hsg0 HP)).
  rewrite (bind_inr _ _ _ _ _ (get_X_run s1 x HX)).
  rewrite (bind_inr _ _ _ _ _ (div_float_run 0.5 _ s1 HNr)).
  rewrite (bind_inr _ _ _ _ _ (div_float_run _ _ s1 Hsq)).
  unfold ret, score_original_J. cbn [Python.value]. rewrite value_pow, Hsg.
  change (IZR (Z.of_nat (t_nrows data)))
    with (Python.value (Python.Int (Z.of_nat (t_nrows data)))).
  rewrite value_of_nat. fold sigma.
  apply f_equal. apply (f_equal (fun v => (v, _))).
  apply f_equal2; [reflexivity|].
  apply f_equal. apply rsum2_ext; intros j l Hj Hl.
  rewrite get2_tabulate by assumption. apply (f_equal (fun v => v ^ 2)).
  apply rsum_ext; intros i Hi. now rewrite get3_tabulate.
Qed.

Lemma score_original_with_none
  (gram : tensor2 R -> tensor2 R -> M GaussianKernel.t (list (list R)))
  (self : KernelNetModel.t) (data x : tensor2 R) (K : list (list R))
  (k' : GaussianKernel.t) :
  KernelNetModel.X self = Some x ->
  t_ncols data = Network.ndim_in (KernelNetModel.network self) ->
  GaussianKernel.sigma (KernelNetModel.kernel self) <> 0 ->
  gram x (features (KernelNetModel.network self) data)
    (KernelNetModel.kernel self) = inr (K, k') ->
  GaussianKernel.pdist2 k' = None ->
  KernelNetModel.score_original_with gram data self = inl TypeError.
Proof.
  intros HX Hdata Hs Hg HP.
  set (sg := Python.mul (GaussianKernel.sigma_obj (KernelNetModel.kernel self))
               (Python.Int 1)).
  assert (Hsg0 : Python.value sg <> 0)
    by (unfold sg; now rewrite value_mul_one).
  unfold KernelNetModel.score_original_with.
  rewrite bind_get. cbv zeta. fold sg.
  rewrite (bind_inr _ _ _ _ _
             (score_original_K_run gram self data x K k' HX Hdata Hg)).
  cbv beta iota.
  now rewrite (bind_inl _ _ _ _
                 (score_original_D_none (with_kernel_state self k') sg
                    (KernelNetModel.ndim self) Hsg0 HP)).
Qed.

(** The value [score_original] returns on a [GaussianKernel]. *)
Lemma score_original_run (self : KernelNetModel.t) (data x : tensor2 R) :
  KernelNetModel.X self = Some x ->
  t_ncols data = Network.ndim_in (KernelNetModel.network self) ->
  t_ncols x = Network.ndim_out (KernelNetModel.network self) ->
  GaussianKernel.sigma (KernelNetModel.kernel self) <> 0 ->
  (0 < t_nrows data)%nat ->
  KernelNetModel.score_original data self
  = inr (score_original_J self data x
           (features (KernelNetModel.network self) data)
           (gram_matrix (GaussianKernel.sigma (KernelNetModel.kernel self))
              x (features (KernelNetModel.network self) data))
           (pdist2_matrix x (features (KernelNetModel.network self) data)),
         with_kernel_state self
           (with_pdist2 (KernelNetModel.kernel self)
              (pdist2_matrix x
                 (features (KernelNetModel.network self) data)))).
Proof.
  intros HX Hdata Hx Hs HN.
  assert (Hd : t_ncols x
               = t_ncols (features (KernelNetModel.network self) data))
    by exact Hx.
  unfold KernelNetModel.score_original.
  apply (score_original_with_run _ self data x _ _ _ HX Hdata Hs HN
           (get_gram_matrix_run _ x _ Hd Hs) eq_refl).
Qed.

(** Entries of the matrix [D] built from distances. *)
Lemma score_original_D_entry (c s : R) (X Y : tensor2 R) (i j : nat) :
  t_ncols X = t_ncols Y -> (i < t_nrows X)%nat -> (j < t_nrows Y)%nat ->
  get2 (map (map (fun p => c * p - s)) (pdist2_matrix X Y)) i j
  = c * rsum (t_ncols X) (fun l => (at2 X i l - at2 Y j l) ^ 2) - s.
Proof.
  intros Hd Hi Hj.
  destruct (pdist2_matrix_shape X Y) as [Hm Hn].
  rewrite (get2_map2 _ _ _ _ i j Hm Hn Hi Hj).
  now rewrite (pdist2_matrix_sqdist X Y i j Hd Hi Hj).
Qed.

(** C10.  Every [get_gram_matrix(X', Y')] that returns leaves in the field
    [pdist2] the pairwise squared distances of that pair, whatever the
    field held before.  [score_original] reads that field instead of
    computing distances: its statement for [D] returns, on any state, the
    content of the field scaled by [1/sigma] minus [ndim], and whatever
    method [self.kernel.get_gram_matrix] is, the value [score_original]
    returns is built from the matrix [K] the method returned and from the
    field [pdist2] the method left behind ([TypeError] if it left
    [None]).  With the method of [GaussianKernel] (on a model whose [X]
    is set and has one row per entry of [alpha], a bandwidth that is not
    zero and a batch that is not empty) the field holds the distances of
    [(self.X, Y)], so [D] is [|x_i - y_j|^2 / sigma - ndim]; with another
    Gram computation on other arguments between the one on [(self.X, Y)]
    and the statement for [D], [D] is built from the distances of those
    arguments instead. *)
Theorem score_original_reads_pdist2 (self : KernelNetModel.t)
  (data x : tensor2 R) :
  KernelNetModel.X self = Some x ->
  t_ncols data = Network.ndim_in (KernelNetModel.network self) ->
  t_ncols x = Network.ndim_out (KernelNetModel.network self) ->
  length (KernelNetModel.alpha self) = t_nrows x ->
  GaussianKernel.sigma (KernelNetModel.kernel self) <> 0 ->
  (0 < t_nrows data)%nat ->
  (forall k X' Y', t_ncols X' = t_ncols Y' -> GaussianKernel.sigma k <> 0 ->
     exists K P k',
       GaussianKernel.get_gram_matrix X' Y' k = inr (K, k') /\
       GaussianKernel.pdist2 k' = Some P /\
       forall i j, (i < t_nrows X')%nat -> (j < t_nrows Y')%nat ->
         get2 P i j = rsum (t_ncols X') (fun c =>
                        (at2 X' i c - at2 Y' j c) ^ 2)) /\
  (forall (s : KernelNetModel.t) (sg : Python.number) (nd : nat),
     Python.value sg <> 0 ->
     match GaussianKernel.pdist2 (KernelNetModel.kernel s) with
     | Some P =>
         KernelNetModel.score_original_D sg nd s
         = inr (map (map (fun p => 1 / Python.value sg * p - INR nd)) P, s)
     | None => KernelNetModel.score_original_D sg nd s = inl TypeError
     end) /\
  (forall (gram : tensor2 R -> tensor2 R ->
                  M GaussianKernel.t (list (list R)))
          (K : list (list R)) (k' : GaussianKernel.t),
     gram x (features (KernelNetModel.network self) data)
       (KernelNetModel.kernel self) = inr (K, k') ->
     match GaussianKernel.pdist2 k' with
     | Some P =>
         KernelNetModel.score_original_with gram data self
         = inr (score_original_J self data x
                  (features (KernelNetModel.network self) data) K P,
                with_kernel_state self k')
     | None =>
         KernelNetModel.score_original_with gram data self = inl TypeError
     end) /\
  (exists K P self',
     KernelNetModel.score_original data self
     = inr (score_original_J self data x
              (features (KernelNetModel.network self) data) K P, self') /\
     GaussianKernel.get_gram_matrix x
       (features (KernelNetModel.network self) data)
       (KernelNetModel.kernel self)
     = inr (K, KernelNetModel.kernel self') /\
     GaussianKernel.pdist2 (KernelNetModel.kernel self') = Some P /\
     forall i j,
       (i < t_nrows x)%nat ->
       (j < t_nrows (features (KernelNetModel.network self) data))%nat ->
       get2 P i j
       = rsum (t_ncols x) (fun c =>
           (at2 x i c
            - at2 (features (KernelNetModel.network self) data) j c) ^ 2) /\
       get2 (map (map (fun p =>
               1 / GaussianKernel.sigma (KernelNetModel.kernel self) * p
               - INR (KernelNetModel.ndim self))) P) i j
       = 1 / GaussianKernel.sigma (KernelNetModel.kernel self)
         * rsum (t_ncols x) (fun c =>
             (at2 x i c
              - at2 (features (KernelNetModel.network self) data) j c) ^ 2)
         - INR (KernelNetModel.ndim self)) /\
  (forall X' Y', t_ncols X' = t_ncols Y' ->
     exists K P' self',
       KernelNetModel.score_original_with
         (fun X Y => K <- GaussianKernel.get_gram_matrix X Y ;;
                     GaussianKernel.get_gram_matrix X' Y' ;;;
                     ret K) data self
       = inr (score_original_J self data x
                (features (KernelNetModel.network self) data) K P', self') /\
       GaussianKernel.pdist2 (KernelNetModel.kernel self') = Some P' /\
       forall i j, (i < t_nrows X')%nat -> (j < t_nrows Y')%nat ->
         get2 P' i j = rsum (t_ncols X') (fun c =>
                         (at2 X' i c - at2 Y' j c) ^ 2)).
Proof.
  intros HX Hdata Hx Halpha Hs HN.
  set (sigma := GaussianKernel.sigma (KernelNetModel.kernel self)) in *.
  set (Y := features (KernelNetModel.network self) data).
  assert (Hd : t_ncols x = t_ncols Y) by exact Hx.
  split; [|split; [|split; [|split]]].
  - intros k X' Y' Hd' Hk.
    exists (gram_matrix (GaussianKernel.sigma k) X' Y'), (pdist2_matrix X' Y'),
           (with_pdist2 k (pdist2_matrix X' Y')).
    split; [now apply get_gram_matrix_run|]. split; [reflexivity|].
    intros i j Hi Hj. now apply pdist2_matrix_sqdist.
  - intros s sg nd Hsg.
    destruct (GaussianKernel.pdist2 (KernelNetModel.kernel s)) as [P|] eqn:HP.
    + now apply score_original_D_run.
    + now apply score_original_D_none.
  - intros gram K k' Hg.
    destruct (GaussianKernel.pdist2 k') as [P|] eqn:HP.
    + exact (score_original_with_run gram self data x K P k' HX Hdata Hs HN
               Hg HP).
    + exact (score_original_with_none gram self data x K k' HX Hdata Hs
               Hg HP).
  - exists (gram_matrix sigma x Y), (pdist2_matrix x Y),
      (with_kernel_state self
         (with_pdist2 (KernelNetModel.kernel self) (pdist2_matrix x Y))).
    split; [exact (score_original_run self data x HX Hdata Hx Hs HN)|].
    split; [exact (get_gram_matrix_run _ x Y Hd Hs)|].
    split; [reflexivity|].
    intros i j Hi Hj. split.
    + exact (pdist2_matrix_sqdist x Y i j Hd Hi Hj).
    + now apply score_original_D_entry.
  - intros X' Y' Hd'.
    set (k1 := with_pdist2 (KernelNetModel.kernel self) (pdist2_matrix x Y)).
    set (k2 := with_pdist2 k1 (pdist2_matrix X' Y')).
    assert (Hg : (K <- GaussianKernel.get_gram_matrix x Y ;;
                  GaussianKernel.get_gram_matrix X' Y' ;;;
                  ret K) (KernelNetModel.kernel self)
                 = inr (gram_matrix sigma x Y, k2)).
    { rewrite (bind_inr _ _ _ _ _ (get_gram_matrix_run _ x Y Hd Hs)).
      fold k1.
      assert (Hs1 : GaussianKernel.sigma k1 <> 0) by exact Hs.
      rewrite (bind_inr _ _ _ _ _ (get_gram_matrix_run k1 X' Y' Hd' Hs1)).
      reflexivity. }
    exists (gram_matrix sigma x Y), (pdist2_matrix X' Y'),
      (with_kernel_state self k2).
    split.
    { exact (score_original_with_run _ self data x _ _ k2 HX Hdata Hs HN
               Hg eq_refl). }
    split; [reflexivity|].
    intros i j Hi Hj. exact (pdist2_matrix_sqdist X' Y' i j Hd' Hi Hj).
Qed.

Lemma sigma_ready_model :
  GaussianKernel.sigma (KernelNetModel.kernel Examples.ready_model) <> 0.
Proof. simpl. lra. Qed.

Lemma score_original_reads_pdist2_witness :
  KernelNetModel.X Examples.ready_model = Some (mk2 [[0]] 1) /\
  t_ncols Examples.data1
  = Network.ndim_in (KernelNetModel.network Examples.ready_model) /\
  t_ncols (mk2 [[0]] 1 : tensor2 R)
  = Network.ndim_out (KernelNetModel.network Examples.ready_model) /\
  length (KernelNetModel.alpha Examples.ready_model)
  = t_nrows (mk2 [[0]] 1 : tensor2 R) /\
  GaussianKernel.sigma (KernelNetModel.kernel Examples.ready_model) <> 0 /\
  (0 < t_nrows Examples.data1)%nat /\
  exists K P self',
    KernelNetModel.score_original Examples.data1 Examples.ready_model
    = inr (score_original_J Examples.ready_model Examples.data1
             (mk2 [[0]] 1)
             (features (KernelNetModel.network Examples.ready_model)
                Examples.data1) K P, self') /\
    GaussianKernel.pdist2 (KernelNetModel.kernel self') = Some P /\
    get2 P 0 0
    = rsum 1 (fun c =>
        (at2 (mk2 [[0]] 1) 0 c
         - at2 (features (KernelNetModel.network Examples.ready_model)
                  Examples.data1) 0 c) ^ 2).
Proof.
  assert (HN : (0 < t_nrows Examples.data1)%nat)
    by (unfold t_nrows; simpl; lia).
  split; [reflexivity|]. split; [reflexivity|]. split; [reflexivity|].
  split; [reflexivity|]. split; [exact sigma_ready_model|].
  split; [exact HN|].
  destruct (score_original_reads_pdist2 Examples.ready_model Examples.data1
              (mk2 [[0]] 1) eq_refl eq_refl eq_refl eq_refl
              sigma_ready_model HN)
    as [_ [_ [_ [[K [P [self' [HJ [_ [HP Hent]]]]]] _]]]].
  exists K, P, self'. split; [exact HJ|]. split; [exact HP|].
  apply Hent.
  - unfold t_nrows. simpl. lia.
  - rewrite t_nrows_features. exact HN.
Defined.

(** ** The closed-form fit (C3) *)

(** The int [1] divided by a number that is not zero. *)
Lemma div_one_run {S} (x : Python.number) (s : S) :
  Python.value x <> 0 ->
  exists c,
    Python.div (Python.Int 1) x s = inr (c, s) /\
    Python.value c = one_over x.
Proof.
  intros Hx. destruct x as [z|r]; cbn [Python.value] in Hx.
  - exists (Python.Int (1 / z)). split; [|reflexivity].
    apply div_int_int_run. intros E. apply Hx. now rewrite E.
  - exists (Python.Float (IZR 1 / r)). split; [|reflexivity].
    now apply div_int_float_run.
Qed.

Lemma kernel_score_stats_run (self : KernelNetModel.t) (x Y : tensor2 R) :
  KernelNetModel.X self = Some x -> t_ncols x = t_ncols Y ->
  GaussianKernel.sigma (KernelNetModel.kernel self) <> 0 ->
  exists b C,
    KernelNetModel._kernel_score_stats Y self
    = inr (b, C,
           with_kernel_state self
             (with_pdist2 (KernelNetModel.kernel self) (pdist2_matrix x Y)))
    /\
    let sigma := GaussianKernel.sigma (KernelNetModel.kernel self) in
    let K := gram_matrix sigma x Y in
    (forall i, (i < t_nrows x)%nat ->
       get1 b i
       = - INR (KernelNetModel.ndim self)
           * rsum (t_nrows Y) (fun j => get2 K i j)
         + one_over (GaussianKernel.sigma_obj (KernelNetModel.kernel self))
           * rsum (t_nrows Y) (fun j =>
               get2 K i j * rsum (t_ncols x) (fun l =>
                 (at2 x i l - at2 Y j l) ^ 2))) /\
    (forall i j, (i < t_nrows x)%nat -> (j < t_nrows x)%nat ->
       get2 C i j
       = rsum (t_nrows Y) (fun k => rsum (t_ncols x) (fun l =>
           ((at2 x i l - at2 Y k l) * get2 K i k)
           * ((at2 x j l - at2 Y k l) * get2 K j k)))) /\
    length b = t_nrows x.
Proof.
  intros HX Hd Hs. unfold KernelNetModel._kernel_score_stats.
  rewrite (bind_inr _ _ _ _ _ (get_X_run self x HX)).
  rewrite bind_get. cbv zeta.
  rewrite (bind_inr _ _ _ _ _
             (with_kernel_run _ self _ _ (get_gram_matrix_run _ x Y Hd Hs))).
  destruct (div_one_run
              (GaussianKernel.sigma_obj (KernelNetModel.kernel self))
              (with_kernel_state self
                 (with_pdist2 (KernelNetModel.kernel self)
                    (pdist2_matrix x Y))) Hs) as [c [Hc Hv]].
  rewrite (bind_inr _ _ _ _ _ Hc).
  unfold ret. eexists. eexists. split; [reflexivity|]. cbv zeta.
  split; [|split].
  - intros i Hi. rewrite get1_tabulate by assumption.
    rewrite get1_tabulate by assumption. rewrite Hv.
    apply f_equal. apply f_equal.
    apply rsum_ext; intros j Hj. apply f_equal.
    apply rsum_ext; intros l Hl. now rewrite get3_tabulate.
  - intros i j Hi Hj. rewrite get2_tabulate by assumption.
    apply rsum_ext; intros k Hk. apply rsum_ext; intros l Hl.
    now rewrite !get3_tabulate.
  - apply length_tabulate.
Qed.

Lemma get2_scaled (c : R) (sol : list (list R)) (i : nat) :
  get2 (map (map (fun v => c * v)) sol) i 0 = c * get2 sol i 0.
Proof.
  unfold get2, get1.
  change (@nil R) with (map (fun v => c * v) []) at 1.
  rewrite map_nth. destruct (nth i sol []) as [|v r]; simpl; lra.
Qed.

(** [kernel_fit] after the statistics: the shapes are validated, then the
    solver runs. *)
Lemma kernel_fit_run
  (matrix_solve : list (list R) -> list (list R) -> option (list (list R)))
  (self : KernelNetModel.t) (data : tensor2 R) (lam : R)
  (b : list R) (C : list (list R)) (s1 : KernelNetModel.t) :
  t_ncols data = Network.ndim_in (KernelNetModel.network self) ->
  KernelNetModel._kernel_score_stats
    (features (KernelNetModel.network self) data) self = inr (b, C, s1) ->
  KernelNetModel.npoint s1 = length b ->
  length b <> 1%nat ->
  KernelNetModel.kernel_fit matrix_solve data lam self
  = match matrix_solve C (map (fun v => [v]) b) with
    | None => inl InvalidArgumentError
    | Some z =>
        KernelNetModel.assign_alpha
          (KernelNetModel.squeeze (length b)
             (map (map (fun v =>
                - GaussianKernel.sigma (KernelNetModel.kernel s1) * v)) z))
          s1
    end.
Proof.
  intros Hdata Hst Hnp Hb1.
  pose proof (process_data_run self data Hdata) as HY.
  fold (features (KernelNetModel.network self) data) in HY.
  unfold KernelNetModel.kernel_fit.
  rewrite bind_get. cbv zeta.
  rewrite (bind_inr _ _ _ _ _ HY).
  rewrite (bind_inr _ _ _ _ _ Hst). cbv beta iota.
  rewrite bind_get.
  assert (Hchk : KernelNetModel.assign_check
                   (KernelNetModel.squeeze_shape (length b)) s1
                 = inr (tt, s1)).
  { unfold KernelNetModel.assign_check, KernelNetModel.squeeze_shape.
    rewrite bind_get. apply Nat.eqb_neq in Hb1. rewrite Hb1.
    now rewrite Hnp, Nat.eqb_refl. }
  rewrite (bind_inr _ _ _ _ _ Hchk).
  unfold bind at 1, KernelNetModel.solve.
  destruct (matrix_solve C (map (fun v => [v]) b)); reflexivity.
Qed.




Lemma sigma_ready_model2 :
  GaussianKernel.sigma (KernelNetModel.kernel Examples.ready_model2) <> 0.
Proof. simpl. lra. Qed.




(** ** The optimal coefficients (C2) *)

(** Whatever the model, the feeds and the solver, [get_opt_alpha] leaves
    with an exception: the call [self.kernel.get_grad(y)] passes one
    argument to a method of two. *)
Lemma get_opt_alpha_never_returns
  (matrix_solve : list (list R) -> list (list R) -> option (list (list R)))
  (self : KernelNetModel.t) (points data : list (list R)) :
  exists e,
    KernelNetModel.get_opt_alpha matrix_solve points data self = inl e.
Proof.
  unfold KernelNetModel.get_opt_alpha. rewrite bind_get. cbv zeta.
  match goal with
  | |- exists e, bind ?c ?k ?s = _ =>
      destruct (c s) as [e|[p s1]] eqn:E1;
      [exists e; now rewrite (bind_inl _ _ _ _ E1)
      |rewrite (bind_inr _ _ _ _ _ E1)]
  end.
  match goal with
  | |- exists e, bind ?c ?k ?s = _ =>
      destruct (c s) as [e|[u s2]] eqn:E2;
      [exists e; now rewrite (bind_inl _ _ _ _ E2)
      |rewrite (bind_inr _ _ _ _ _ E2)]
  end.
  match goal with
  | |- exists e, bind ?c ?k ?s = _ =>
      destruct (c s) as [e|[[[[d2 dy] y] ph] s3]] eqn:E3;
      [exists e; now rewrite (bind_inl _ _ _ _ E3)
      |rewrite (bind_inr _ _ _ _ _ E3)]
  end.
  exists TypeError. reflexivity.
Qed.

(** C2, on the code as written.  On a model whose network has equal input
    and output dimension the method reaches [self.kernel.get_grad(y)] and
    raises [TypeError]; on a model whose dimensions differ the assertion of
    [set_points], applied to the network output, fails before that.  On
    no model, feed or solver is a coefficient vector returned. *)
Theorem get_opt_alpha_raises :
  KernelNetModel.get_opt_alpha Examples.solve_id [[0]] [[0]]
    (Examples.relu_model (0, 1)) = inl TypeError /\
  KernelNetModel.get_opt_alpha Examples.solve_id [[0; 0]; [1; 1]]
    [[1; 2]; [3; 4]] Examples.lin_model = inl AssertionError /\
  forall matrix_solve self points data,
    exists e,
      KernelNetModel.get_opt_alpha matrix_solve points data self = inl e.
Proof.
  split; [reflexivity|]. split; [reflexivity|].
  exact get_opt_alpha_never_returns.
Qed.

(** ** The consistency check of DeepNetwork (C9) *)

Lemma tuple_eqb_eq (a b : list nat) :
  DeepNetwork.tuple_eqb a b = true <-> a = b.
Proof.
  unfold DeepNetwork.tuple_eqb.
  destruct (list_eq_dec Nat.eq_dec a b); split; congruence.
Qed.

Lemma nth_error_middle {A} (pre rest : list A) (l : A) :
  nth_error (pre ++ l :: rest) (length pre) = Some l.
Proof.
  rewrite nth_error_app2 by lia. now rewrite Nat.sub_diag.
Qed.

Lemma nth_error_after {A} (pre rest : list A) (l : A) :
  nth_error (pre ++ l :: rest) (S (length pre)) = nth_error rest 0.
Proof.
  rewrite nth_error_app2 by lia.
  replace (S (length pre) - length pre)%nat with 1%nat by lia.
  reflexivity.
Qed.

(** The loop either passes, and then every layer it visited is consistent,
    or raises [AssertionError]. *)
Lemma check_from_cases (tensor St : Type) (self : DeepNetwork.t tensor)
  (layers : list (DeepNetwork.layer tensor)) (s : St) :
  DeepNetwork.self_nlayer tensor self = length layers ->
  forall rest pre, layers = pre ++ rest ->
    (DeepNetwork.check_from tensor self layers (length pre) rest s
     = inr (tt, s) /\
     forall i, (length pre <= i)%nat ->
       consistent_at layers (DeepNetwork.self_batch_size tensor self) i) \/
    DeepNetwork.check_from tensor self layers (length pre) rest s
    = inl AssertionError.
Proof.
  intros Hn rest. induction rest as [|l rest IH]; intros pre Hl.
  - left. split; [reflexivity|].
    intros i Hi l Hnth. exfalso.
    assert (nth_error layers i <> None) by congruence.
    apply nth_error_Some in H. rewrite Hl, length_app in H. simpl in H. lia.
  - cbn [DeepNetwork.check_from]. unfold bind, assert_.
    destruct (DeepNetwork.is_network tensor l) eqn:Hnet;
      [|right; reflexivity].
    cbn [ret raise].
    assert (Hlen : DeepNetwork.self_nlayer tensor self
                   = (length pre + S (length rest))%nat)
      by (rewrite Hn, Hl, length_app; reflexivity).
    assert (Hadj : (if Nat.ltb (length pre)
                         (DeepNetwork.self_nlayer tensor self - 1)
                    then
                      match nth_error layers (length pre + 1) with
                      | None => raise IndexError
                      | Some next =>
                          match DeepNetwork.ndim_out tensor l with
                          | DeepNetwork.Tuple s0 =>
                              if DeepNetwork.tuple_eqb
                                   (DeepNetwork.ndim_in tensor next) s0
                              then ret tt else raise AssertionError
                          | DeepNetwork.Int n =>
                              if DeepNetwork.tuple_eqb
                                   (DeepNetwork.ndim_in tensor next) [n]
                              then ret tt else raise AssertionError
                          end
                      end
                    else ret tt) s
                   = (inr (tt, s) : Error + unit * St) /\
                   (forall l', nth_error layers (S (length pre)) = Some l' ->
                      DeepNetwork.ndim_in tensor l'
                      = DeepNetwork.out_shape tensor l)
                   \/
                   (if Nat.ltb (length pre)
                         (DeepNetwork.self_nlayer tensor self - 1)
                    then
                      match nth_error layers (length pre + 1) with
                      | None => raise IndexError
                      | Some next =>
                          match DeepNetwork.ndim_out tensor l with
                          | DeepNetwork.Tuple s0 =>
                              if DeepNetwork.tuple_eqb
                                   (DeepNetwork.ndim_in tensor next) s0
                              then ret tt else raise AssertionError
                          | DeepNetwork.Int n =>
                              if DeepNetwork.tuple_eqb
                                   (DeepNetwork.ndim_in tensor next) [n]
                              then ret tt else raise AssertionError
                          end
                      end
                    else ret tt) s
                   = (inl AssertionError : Error + unit * St)).
    { rewrite Nat.add_1_r, Hl, nth_error_after.
      destruct rest as [|l' rest'].
      - replace (Nat.ltb (length pre)
                   (DeepNetwork.self_nlayer tensor self - 1)) with false
          by (symmetry; apply Nat.ltb_ge; simpl in Hlen; lia).
        left. split; [reflexivity|]. intros l' H. discriminate.
      - replace (Nat.ltb (length pre)
                   (DeepNetwork.self_nlayer tensor self - 1)) with true
          by (symmetry; apply Nat.ltb_lt; simpl in Hlen; lia).
        cbn [nth_error]. unfold DeepNetwork.out_shape.
        destruct (DeepNetwork.ndim_out tensor l) as [s0|n].
        + destruct (DeepNetwork.tuple_eqb _ s0) eqn:E; [|right; reflexivity].
          left. split; [reflexivity|]. intros l0 H. inversion H; subst.
          now apply tuple_eqb_eq.
        + destruct (DeepNetwork.tuple_eqb _ [n]) eqn:E; [|right; reflexivity].
          left. split; [reflexivity|]. intros l0 H. inversion H; subst.
          now apply tuple_eqb_eq. }
    destruct Hadj as [[Hrun Hnext]|Hfail]; [|right; now rewrite Hfail].
    rewrite Hrun.
    destruct (Nat.eqb (DeepNetwork.batch_size tensor l)
                (DeepNetwork.self_batch_size tensor self)) eqn:Hbs;
      [|right; reflexivity].
    cbn [ret]. apply Nat.eqb_eq in Hbs.
    specialize (IH (pre ++ [l])).
    rewrite length_app, Nat.add_1_r in IH. cbn [length] in IH.
    destruct IH as [[IHrun IHok]|IHfail].
    + rewrite <- app_assoc. exact Hl.
    + left. split; [exact IHrun|].
      intros i Hi. destruct (Nat.eq_dec i (length pre)) as [->|Hne].
      * intros l0 H0. rewrite Hl, nth_error_middle in H0.
        inversion H0; subst l0. split; [exact Hnet|]. split; [exact Hbs|].
        exact Hnext.
      * apply IHok. lia.
    + right. exact IHfail.
Qed.

(** The constructor returns an object only for consistent layers. *)
Lemma init_consistent (tensor : Type)
  (layers : list (DeepNetwork.layer tensor)) (net : DeepNetwork.t tensor) :
  DeepNetwork.init tensor layers = inr net ->
  exists first, nth_error layers 0 = Some first /\
    forall i, consistent_at layers (DeepNetwork.batch_size tensor first) i.
Proof.
  unfold DeepNetwork.init. destruct layers as [|first rest]; [discriminate|].
  intros H. exists first. split; [reflexivity|].
  unfold DeepNetwork._check_consistency in H.
  match type of H with
  | context [DeepNetwork.check_from tensor ?self ?ls 0 ?ls tt] =>
      destruct (check_from_cases tensor unit self ls tt eq_refl ls []
                  eq_refl) as [[Hrun Hok]|Hfail]
  end.
  - intros i. apply (Hok i). simpl. lia.
  - cbn [length] in Hfail, H. rewrite Hfail in H. discriminate.
Qed.

Lemma init_fails_assertion (tensor : Type)
  (layers : list (DeepNetwork.layer tensor)) :
  layers <> [] ->
  (exists net, DeepNetwork.init tensor layers = inr net) \/
  DeepNetwork.init tensor layers = inl AssertionError.
Proof.
  intros Hne. unfold DeepNetwork.init.
  destruct layers as [|first rest]; [contradiction|].
  unfold DeepNetwork._check_consistency.
  match goal with
  | |- context [DeepNetwork.check_from tensor ?self ?ls 0 ?ls tt] =>
      destruct (check_from_cases tensor unit self ls tt eq_refl ls []
                  eq_refl) as [[Hrun Hok]|Hfail]
  end.
  - cbn [length] in Hrun |- *. rewrite Hrun. left. eexists. reflexivity.
  - cbn [length] in Hfail |- *. rewrite Hfail. right. reflexivity.
Qed.

(** C9.  When some layer's output shape differs from the input shape of
    the layer after it, or some layer's batch size differs from the first
    layer's, the constructor [DeepNetwork(layers)] raises
    [AssertionError]: no object is built on which [forward_tensor] could
    be called. *)
Theorem deep_network_rejects_inconsistent (tensor : Type)
  (layers : list (DeepNetwork.layer tensor)) :
  (exists i l l',
     nth_error layers i = Some l /\ nth_error layers (S i) = Some l' /\
     DeepNetwork.out_shape tensor l <> DeepNetwork.ndim_in tensor l') \/
  (exists i l first,
     nth_error layers i = Some l /\ nth_error layers 0 = Some first /\
     DeepNetwork.batch_size tensor l <> DeepNetwork.batch_size tensor first) ->
  DeepNetwork.init tensor layers = inl AssertionError /\
  forall net, DeepNetwork.init tensor layers <> inr net.
Proof.
  intros Hbad.
  assert (Hne : layers <> []).
  { destruct Hbad as [[i [l [l' [H _]]]]|[i [l [f [H _]]]]];
      intros ->; destruct i; discriminate. }
  assert (Hno : forall net, DeepNetwork.init tensor layers <> inr net).
  { intros net Hnet.
    destruct (init_consistent tensor layers net Hnet) as [first [Hf Hok]].
    destruct Hbad as [[i [l [l' [Hl [Hl' Hd]]]]]|[i [l [f [Hl [Hf' Hd]]]]]].
    - destruct (Hok i l Hl) as [_ [_ Hadj]]. apply Hd. symmetry.
      now apply Hadj.
    - destruct (Hok i l Hl) as [_ [Hbs _]]. apply Hd. congruence. }
  split; [|exact Hno].
  destruct (init_fails_assertion tensor layers Hne) as [[net Hnet]|Hfail].
  - now elim (Hno net).
  - exact Hfail.
Qed.

Lemma deep_network_rejects_inconsistent_witness :
  ((exists i l l',
      nth_error [Examples.layer_a; Examples.layer_c] i = Some l /\
      nth_error [Examples.layer_a; Examples.layer_c] (S i) = Some l' /\
      DeepNetwork.out_shape unit l <> DeepNetwork.ndim_in unit l') \/
   (exists i l first,
      nth_error [Examples.layer_a; Examples.layer_c] i = Some l /\
      nth_error [Examples.layer_a; Examples.layer_c] 0 = Some first /\
      DeepNetwork.batch_size unit l <> DeepNetwork.batch_size unit first)) /\
  DeepNetwork.init unit [Examples.layer_a; Examples.layer_c]
  = inl AssertionError /\
  DeepNetwork.init unit [Examples.layer_a; Examples.layer_b;
                         Examples.layer_c]
  = inl AssertionError /\
  exists net,
    DeepNetwork.init unit [Examples.layer_a; Examples.layer_b] = inr net.
Proof.
  assert (H1 : exists i l l',
            nth_error [Examples.layer_a; Examples.layer_c] i = Some l /\
            nth_error [Examples.layer_a; Examples.layer_c] (S i) = Some l' /\
            DeepNetwork.out_shape unit l <> DeepNetwork.ndim_in unit l').
  { exists 0%nat, Examples.layer_a, Examples.layer_c.
    split; [reflexivity|]. split; [reflexivity|]. simpl. discriminate. }
  split; [left; exact H1|]. split; [|split].
  - apply (deep_network_rejects_inconsistent unit
             [Examples.layer_a; Examples.layer_c]). left. exact H1.
  - apply (deep_network_rejects_inconsistent unit
             [Examples.layer_a; Examples.layer_b; Examples.layer_c]).
    right. exists 2%nat, Examples.layer_c, Examples.layer_a.
    split; [reflexivity|]. split; [reflexivity|]. simpl. discriminate.
  - eexists. reflexivity.
Defined.

(** ** The model: construction and evaluation *)

Lemma set_points_fields (self self' : KernelNetModel.t) (p : tensor2 R) :
  KernelNetModel.set_points p self = inr (tt, self') ->
  KernelNetModel.alpha self' = KernelNetModel.alpha self /\
  KernelNetModel.npoint self' = KernelNetModel.npoint self /\
  KernelNetModel.ndim self' = KernelNetModel.ndim self /\
  KernelNetModel.ndim_in self' = KernelNetModel.ndim_in self /\
  KernelNetModel.network self' = KernelNetModel.network self.
Proof.
  unfold KernelNetModel.set_points. rewrite bind_get. unfold assert_.
  destruct (Nat.eqb (t_ncols p) (KernelNetModel.ndim_in self));
    [|discriminate].
  unfold bind at 1, ret at 1.
  destruct (Nat.eq_dec (t_ncols p)
              (Network.ndim_in (KernelNetModel.network self))) as [Hd|Hd].
  - rewrite (bind_inr _ _ _ _ _ (forward_value_run _ p self Hd)).
    intros H. inversion H. repeat split.
  - rewrite (bind_inl _ _ _ _ (forward_value_fail _ p self Hd)).
    discriminate.
Qed.

(** The constructor establishes the invariants of the model. *)
Lemma init_model_ok (kernel : GaussianKernel.t) (network : Network.t)
  (alpha : list R) (points : option (tensor2 R)) (self : KernelNetModel.t) :
  KernelNetModel.init kernel network alpha points = inr self ->
  model_ok self.
Proof.
  unfold KernelNetModel.init. destruct points as [p|].
  - destruct (KernelNetModel.set_points p _) as [e|[[] self']] eqn:E;
      [discriminate|].
    intros H. inversion H. subst self'.
    destruct (set_points_fields _ _ _ E) as [Ha [Hn [Hd [Hi Hnet]]]].
    unfold model_ok. rewrite Ha, Hn, Hd, Hi, Hnet. repeat split.
  - intros H. inversion H. repeat split.
Qed.

(** The scenario of the specification: three basis features at [(0,0)],
    [(1,0)], [(0,1)], [alpha = (1,1,1)], bandwidth 1; the kernel function
    at [(0,0)] is [exp 0 + 2 exp (-0.5)]. *)
Lemma evaluate_kernel_fun_scenario :
  exists v s,
    KernelNetModel.evaluate_kernel_fun Examples.Y1 Examples.model3
    = inr ([v], s) /\
    v = exp 0 + 2 * exp (-0.5).
Proof.
  run_reals. eexists. eexists. split; [reflexivity|].
  match goal with
  | |- 1 * exp ?a + (1 * exp ?b + (1 * exp ?c + 0)) = _ =>
      replace a with 0 by (simpl; lra);
      replace b with (-0.5) by (simpl; lra);
      replace c with (-0.5) by (simpl; lra)
  end.
  lra.
Qed.

(** * Further properties of the code *)

(** ** The Gaussian kernel: failure, bounds, symmetry *)

Lemma rsum_nonneg (n : nat) (f : nat -> R) :
  (forall i, (i < n)%nat -> 0 <= f i) -> 0 <= rsum n f.
Proof.
  induction n as [|n IH]; intros H.
  - rewrite rsum_0. lra.
  - rewrite rsum_S.
    assert (0 <= rsum n f) by (apply IH; intros; apply H; lia).
    assert (0 <= f n) by (apply H; lia). lra.
Qed.

Lemma sqdist_nonneg (X Y : tensor2 R) (i j : nat) : 0 <= sqdist X Y i j.
Proof.
  unfold sqdist. apply rsum_nonneg. intros c _. apply pow2_ge_0.
Qed.

Lemma sqdist_sym (X Y : tensor2 R) (i j : nat) :
  t_ncols X = t_ncols Y -> sqdist X Y i j = sqdist Y X j i.
Proof.
  intros Hd. unfold sqdist. rewrite Hd. apply rsum_ext; intros c _. ring.
Qed.

Lemma sqdist_diag (X : tensor2 R) (i : nat) : sqdist X X i i = 0.
Proof.
  unfold sqdist. apply rsum_zero. intros c _. ring.
Qed.

Lemma exp_nonpos_le_1 (x : R) : x <= 0 -> exp x <= 1.
Proof.
  intros [H|H].
  - rewrite <- exp_0. left. now apply exp_increasing.
  - rewrite H, exp_0. lra.
Qed.

Lemma get_grad_gram_fail (k : GaussianKernel.t) (X Y : tensor2 R) :
  t_ncols X <> t_ncols Y ->
  GaussianKernel.get_grad_gram X Y k = inl AssertionError.
Proof.
  intros Hd. unfold GaussianKernel.get_grad_gram.
  now rewrite (bind_inl _ _ _ _ (get_gram_matrix_fail k X Y Hd)).
Qed.

(** X1.  Every kernel method fails with [AssertionError] when the feature
    dimensions of its two inputs differ: nothing is broadcast. *)
Theorem kernel_rejects_dimension_mismatch (k : GaussianKernel.t)
  (X Y : tensor2 R) :
  t_ncols X <> t_ncols Y ->
  GaussianKernel.get_pdist2 X Y k = inl AssertionError /\
  GaussianKernel.get_gram_matrix X Y k = inl AssertionError /\
  GaussianKernel.get_grad_gram X Y k = inl AssertionError /\
  GaussianKernel.get_grad X Y k = inl AssertionError /\
  GaussianKernel.get_hess X Y k = inl AssertionError /\
  GaussianKernel.get_grad_hess X Y k = inl AssertionError /\
  GaussianKernel.get_two_grad_cross_hess X Y k = inl AssertionError.
Proof.
  intros Hd.
  split; [now apply get_pdist2_fail|].
  split; [now apply get_gram_matrix_fail|].
  split; [now apply get_grad_gram_fail|].
  split.
  { unfold GaussianKernel.get_grad.
    now rewrite (bind_inl _ _ _ _ (get_grad_gram_fail k X Y Hd)). }
  split.
  { unfold GaussianKernel.get_hess.
    now rewrite (bind_inl _ _ _ _ (get_gram_matrix_fail k X Y Hd)). }
  split.
  { unfold GaussianKernel.get_grad_hess.
    now rewrite (bind_inl _ _ _ _ (get_gram_matrix_fail k X Y Hd)). }
  unfold GaussianKernel.get_two_grad_cross_hess.
  now rewrite (bind_inl _ _ _ _ (get_gram_matrix_fail k X Y Hd)).
Qed.

Lemma kernel_rejects_dimension_mismatch_witness :
  t_ncols Examples.X3 <> t_ncols Examples2.Y3cols /\
  GaussianKernel.get_hess Examples.X3 Examples2.Y3cols Examples.kernel1
  = inl AssertionError.
Proof.
  assert (H : t_ncols Examples.X3 <> t_ncols Examples2.Y3cols)
    by (simpl; discriminate).
  split; [exact H|].
  apply (kernel_rejects_dimension_mismatch Examples.kernel1 Examples.X3
           Examples2.Y3cols H).
Defined.

(** X2.  With a positive bandwidth the Gram matrix has its entries in
    [(0, 1]]; it is symmetric under exchange of its two arguments, and the
    Gram matrix of a batch with itself has ones on the diagonal. *)
Theorem gram_matrix_range (k : GaussianKernel.t) (X Y : tensor2 R) :
  t_ncols X = t_ncols Y -> 0 < GaussianKernel.sigma k ->
  exists K K' KX k1 k2 k3,
    GaussianKernel.get_gram_matrix X Y k = inr (K, k1) /\
    GaussianKernel.get_gram_matrix Y X k = inr (K', k2) /\
    GaussianKernel.get_gram_matrix X X k = inr (KX, k3) /\
    (forall i j, (i < t_nrows X)%nat -> (j < t_nrows Y)%nat ->
       0 < get2 K i j <= 1 /\ get2 K i j = get2 K' j i) /\
    (forall i, (i < t_nrows X)%nat -> get2 KX i i = 1).
Proof.
  intros Hd Hs.
  assert (Hs0 : GaussianKernel.sigma k <> 0) by lra.
  exists (gram_matrix (GaussianKernel.sigma k) X Y),
         (gram_matrix (GaussianKernel.sigma k) Y X),
         (gram_matrix (GaussianKernel.sigma k) X X).
  eexists. eexists. eexists.
  split; [now apply get_gram_matrix_run|].
  split; [now apply get_gram_matrix_run|].
  split; [now apply get_gram_matrix_run|]. split.
  - intros i j Hi Hj.
    rewrite !get2_gram_matrix by assumption.
    rewrite !pdist2_matrix_sqdist by (try assumption; now symmetry).
    split; [split|].
    + apply exp_pos.
    + apply exp_nonpos_le_1.
      assert (0 <= sqdist X Y i j) by apply sqdist_nonneg.
      rewrite dec_neg_half.
      assert (0 < / GaussianKernel.sigma k) by now apply Rinv_0_lt_compat.
      unfold Rdiv. nra.
    + now rewrite (sqdist_sym X Y).
  - intros i Hi. rewrite get2_gram_matrix by assumption.
    rewrite pdist2_matrix_sqdist by (try assumption; reflexivity).
    rewrite sqdist_diag, Rmult_0_r. apply exp_0.
Qed.

Lemma gram_matrix_range_witness :
  t_ncols Examples.X3 = t_ncols Examples.Y1 /\
  0 < GaussianKernel.sigma Examples.kernel1 /\
  exists K k1,
    GaussianKernel.get_gram_matrix Examples.X3 Examples.Y1 Examples.kernel1
    = inr (K, k1) /\
    0 < get2 K 1 0 <= 1.
Proof.
  split; [reflexivity|]. split; [exact sigma_kernel1|].
  destruct (gram_matrix_range Examples.kernel1 Examples.X3 Examples.Y1
              eq_refl sigma_kernel1)
    as [K [K' [KX [k1 [k2 [k3 [Hrun [_ [_ [Hent _]]]]]]]]]].
  exists K, k1. split; [exact Hrun|].
  apply (Hent 1%nat 0%nat); unfold t_nrows; simpl; lia.
Defined.

(** ** The Gaussian kernel: the derivative tensors *)

Lemma get_grad_run (k : GaussianKernel.t) (X Y : tensor2 R) :
  t_ncols X = t_ncols Y -> GaussianKernel.sigma k <> 0 ->
  GaussianKernel.get_grad X Y k
  = inr (grad_tensor (GaussianKernel.sigma k) X Y,
         with_pdist2 k (pdist2_matrix X Y)).
Proof.
  intros Hd Hs. unfold GaussianKernel.get_grad, GaussianKernel.get_grad_gram.
  unfold bind at 1. unfold bind at 1.
  rewrite (get_gram_matrix_run k X Y Hd Hs). reflexivity.
Qed.

Lemma get_hess_run (k : GaussianKernel.t) (X Y : tensor2 R) :
  t_ncols X = t_ncols Y -> GaussianKernel.sigma k <> 0 ->
  GaussianKernel.get_hess X Y k
  = inr (hess_tensor (GaussianKernel.sigma k) X Y,
         with_pdist2 k (pdist2_matrix X Y)).
Proof.
  intros Hd Hs. unfold GaussianKernel.get_hess.
  rewrite (bind_inr _ _ _ _ _ (get_gram_matrix_run k X Y Hd Hs)).
  reflexivity.
Qed.

Lemma grad_tensor_entry (sigma : R) (X Y : tensor2 R) (i j c : nat) :
  t_ncols X = t_ncols Y ->
  (i < t_nrows X)%nat -> (j < t_nrows Y)%nat -> (c < t_ncols X)%nat ->
  get3 (grad_tensor sigma X Y) i j c
  = exp (-0.5 / sigma * sqdist X Y i j) * ((at2 X i c - at2 Y j c) / sigma).
Proof.
  intros Hd Hi Hj Hc. unfold grad_tensor.
  rewrite get3_tabulate by assumption.
  rewrite get3_diff_over_sigma, get2_gram_matrix by assumption.
  now rewrite pdist2_matrix_sqdist.
Qed.

Lemma hess_tensor_entry (sigma : R) (X Y : tensor2 R) (i j c l : nat) :
  t_ncols X = t_ncols Y ->
  (i < t_nrows X)%nat -> (j < t_nrows Y)%nat ->
  (c < t_ncols X)%nat -> (l < t_ncols X)%nat ->
  get4 (hess_tensor sigma X Y) i j c l
  = exp (-0.5 / sigma * sqdist X Y i j)
    * ((at2 X i c - at2 Y j c) / sigma * ((at2 X i l - at2 Y j l) / sigma)
       - (if Nat.eqb c l then 1 else 0) / sigma).
Proof.
  intros Hd Hi Hj Hc Hl. unfold hess_tensor.
  rewrite get4_tabulate by assumption.
  unfold GaussianKernel.outer. rewrite get4_tabulate by assumption.
  rewrite get2_eye_over_sigma by assumption.
  rewrite !get3_diff_over_sigma, get2_gram_matrix by assumption.
  now rewrite pdist2_matrix_sqdist.
Qed.

(** X3.  [get_grad] returns a tensor of shape [(m, n, d)] whose entry
    [(i, j, l)] is [K[i,j] * (x_i[l] - y_j[l]) / sigma], and that entry is
    the partial derivative of entry [(i, j)] of the Gram matrix in the
    coordinate [Y[j, l]]. *)
Theorem grad_entries_derivative (k : GaussianKernel.t) (X Y : tensor2 R) :
  t_ncols X = t_ncols Y -> GaussianKernel.sigma k <> 0 ->
  exists K G k',
    GaussianKernel.get_grad X Y k = inr (K, k') /\
    GaussianKernel.get_gram_matrix X Y k = inr (G, k') /\
    length K = t_nrows X /\
    Forall (fun Ki => length Ki = t_nrows Y /\
                      Forall (fun r => length r = t_ncols X) Ki) K /\
    forall i j l,
      (i < t_nrows X)%nat -> (j < t_nrows Y)%nat -> (l < t_ncols X)%nat ->
      get3 K i j l
      = get2 G i j * ((at2 X i l - at2 Y j l) / GaussianKernel.sigma k) /\
      derivable_pt_lim (gram_at k X Y i j l) (at2 Y j l) (get3 K i j l).
Proof.
  intros Hd Hs.
  exists (grad_tensor (GaussianKernel.sigma k) X Y),
         (gram_matrix (GaussianKernel.sigma k) X Y),
         (with_pdist2 k (pdist2_matrix X Y)).
  split; [now apply get_grad_run|].
  split; [now apply get_gram_matrix_run|].
  split; [apply length_tabulate|]. split.
  { apply Forall_tabulate; intros i _. split; [apply length_tabulate|].
    apply Forall_tabulate; intros j _. apply length_tabulate. }
  intros i j l Hi Hj Hl. split.
  - rewrite grad_tensor_entry, get2_gram_matrix by assumption.
    now rewrite pdist2_matrix_sqdist.
  - destruct (grad_is_derivative k X Y i j l Hd Hs Hi Hj Hl)
      as [K [k' [Hrun HD]]].
    rewrite get_grad_run in Hrun by assumption.
    inversion Hrun; subst. exact HD.
Qed.

Lemma grad_entries_derivative_witness :
  t_ncols Examples.X3 = t_ncols Examples.Y1 /\
  GaussianKernel.sigma Examples.kernel1 <> 0 /\
  exists K k',
    GaussianKernel.get_grad Examples.X3 Examples.Y1 Examples.kernel1
    = inr (K, k') /\
    derivable_pt_lim
      (gram_at Examples.kernel1 Examples.X3 Examples.Y1 1 0 0)
      (at2 Examples.Y1 0 0) (get3 K 1 0 0).
Proof.
  assert (Hs : GaussianKernel.sigma Examples.kernel1 <> 0)
    by (simpl; lra).
  split; [reflexivity|]. split; [exact Hs|].
  destruct (grad_entries_derivative Examples.kernel1 Examples.X3 Examples.Y1
              eq_refl Hs) as [K [G [k' [Hrun [_ [_ [_ Hent]]]]]]].
  exists K, k'. split; [exact Hrun|].
  apply (Hent 1%nat 0%nat 0%nat); unfold t_nrows; simpl; lia.
Defined.

Lemma get3_map3 (f : R -> R) (a m d : nat) (g : nat -> nat -> nat -> R)
  (i j c : nat) :
  (i < a)%nat -> (j < m)%nat -> (c < d)%nat ->
  get3 (map (map (map f))
          (tabulate a (fun i => tabulate m (fun j => tabulate d (g i j)))))
       i j c
  = f (g i j c).
Proof.
  intros Hi Hj Hc. rewrite map_tabulate.
  rewrite (tabulate_ext a _ (fun i => tabulate m (fun j =>
             tabulate d (fun c => f (g i j c)))))
    by (intros; apply map2_tabulate).
  now rewrite get3_tabulate.
Qed.

(** X4.  With a bandwidth that is not zero, the four tensors of
    [get_two_grad_cross_hess] fit the other methods, which return as
    well: the Gram matrix is that of [get_gram_matrix], the derivative
    in [y] is the tensor of [get_grad], the derivative in [x] is its
    negation, and the cross second derivative is the negation of the
    tensor of [get_hess], which is symmetric in its last two axes. *)
Theorem cross_hess_consistent (k : GaussianKernel.t) (X Y : tensor2 R) :
  t_ncols X = t_ncols Y -> GaussianKernel.sigma k <> 0 ->
  exists K1 K2 K3 G H k',
    GaussianKernel.get_two_grad_cross_hess X Y k = inr (K1, K2, K3, G, k') /\
    GaussianKernel.get_gram_matrix X Y k = inr (G, k') /\
    GaussianKernel.get_grad X Y k = inr (K2, k') /\
    GaussianKernel.get_hess X Y k = inr (H, k') /\
    forall i j c l,
      (i < t_nrows X)%nat -> (j < t_nrows Y)%nat ->
      (c < t_ncols X)%nat -> (l < t_ncols X)%nat ->
      get3 K1 i j c = - get3 K2 i j c /\
      get4 K3 i j c l = - get4 H i j c l /\
      get4 H i j c l = get4 H i j l c.
Proof.
  intros Hd Hs.
  exists (map (map (map Ropp)) (grad_tensor (GaussianKernel.sigma k) X Y)),
         (grad_tensor (GaussianKernel.sigma k) X Y).
  eexists.
  exists (gram_matrix (GaussianKernel.sigma k) X Y),
         (hess_tensor (GaussianKernel.sigma k) X Y),
         (with_pdist2 k (pdist2_matrix X Y)).
  split.
  { unfold GaussianKernel.get_two_grad_cross_hess.
    rewrite (bind_inr _ _ _ _ _ (get_gram_matrix_run k X Y Hd Hs)).
    reflexivity. }
  split; [now apply get_gram_matrix_run|].
  split; [now apply get_grad_run|].
  split; [now apply get_hess_run|].
  intros i j c l Hi Hj Hc Hl. split; [|split].
  - unfold grad_tensor. rewrite get3_map3 by assumption.
    now rewrite get3_tabulate by assumption.
  - rewrite sigma_with_pdist2.
    rewrite get4_tabulate by assumption.
    unfold hess_tensor. rewrite get4_tabulate by assumption. ring.
  - rewrite !hess_tensor_entry by assumption.
    rewrite (Nat.eqb_sym l c). ring.
Qed.

Lemma cross_hess_consistent_witness :
  t_ncols Examples.X3 = t_ncols Examples.Y1 /\
  GaussianKernel.sigma Examples.kernel1 <> 0 /\
  exists K1 K2 K3 G k',
    GaussianKernel.get_two_grad_cross_hess Examples.X3 Examples.Y1
      Examples.kernel1 = inr (K1, K2, K3, G, k') /\
    get3 K1 1 0 0 = - get3 K2 1 0 0.
Proof.
  assert (Hs : GaussianKernel.sigma Examples.kernel1 <> 0)
    by (simpl; lra).
  split; [reflexivity|]. split; [exact Hs|].
  destruct (cross_hess_consistent Examples.kernel1 Examples.X3 Examples.Y1
              eq_refl Hs)
    as [K1 [K2 [K3 [G [H [k' [Hrun [_ [_ [_ Hent]]]]]]]]]].
  exists K1, K2, K3, G, k'. split; [exact Hrun|].
  destruct (Hent 1%nat 0%nat 0%nat 0%nat) as [E _];
    try (unfold t_nrows; simpl; lia). exact E.
Defined.

(** ** The kernel function of the model and its derivatives *)

Lemma get_grad_fail (k : GaussianKernel.t) (X Y : tensor2 R) :
  t_ncols X <> t_ncols Y ->
  GaussianKernel.get_grad X Y k = inl AssertionError.
Proof.
  intros Hd. unfold GaussianKernel.get_grad.
  now rewrite (bind_inl _ _ _ _ (get_grad_gram_fail k X Y Hd)).
Qed.

Lemma get_hess_fail (k : GaussianKernel.t) (X Y : tensor2 R) :
  t_ncols X <> t_ncols Y ->
  GaussianKernel.get_hess X Y k = inl AssertionError.
Proof.
  intros Hd. unfold GaussianKernel.get_hess.
  now rewrite (bind_inl _ _ _ _ (get_gram_matrix_fail k X Y Hd)).
Qed.

Lemma get_grad_hess_fail (k : GaussianKernel.t) (X Y : tensor2 R) :
  t_ncols X <> t_ncols Y ->
  GaussianKernel.get_grad_hess X Y k = inl AssertionError.
Proof.
  intros Hd. unfold GaussianKernel.get_grad_hess.
  now rewrite (bind_inl _ _ _ _ (get_gram_matrix_fail k X Y Hd)).
Qed.

Lemma get_grad_hess_run (k : GaussianKernel.t) (X Y : tensor2 R) :
  t_ncols X = t_ncols Y -> GaussianKernel.sigma k <> 0 ->
  GaussianKernel.get_grad_hess X Y k
  = inr (grad_tensor (GaussianKernel.sigma k) X Y,
         hess_tensor (GaussianKernel.sigma k) X Y,
         with_pdist2 k (pdist2_matrix X Y)).
Proof.
  intros Hd Hs. unfold GaussianKernel.get_grad_hess.
  rewrite (bind_inr _ _ _ _ _ (get_gram_matrix_run k X Y Hd Hs)).
  reflexivity.
Qed.

(** With a zero bandwidth the derivative methods leave where
    [get_gram_matrix] does. *)
Lemma get_grad_gram_zero (k : GaussianKernel.t) (X Y : tensor2 R) :
  t_ncols X = t_ncols Y -> GaussianKernel.sigma k = 0 ->
  GaussianKernel.get_grad_gram X Y k = inl ZeroDivisionError.
Proof.
  intros Hd Hs. unfold GaussianKernel.get_grad_gram.
  now rewrite (bind_inl _ _ _ _ (get_gram_matrix_zero k X Y Hd Hs)).
Qed.

Lemma get_grad_zero (k : GaussianKernel.t) (X Y : tensor2 R) :
  t_ncols X = t_ncols Y -> GaussianKernel.sigma k = 0 ->
  GaussianKernel.get_grad X Y k = inl ZeroDivisionError.
Proof.
  intros Hd Hs. unfold GaussianKernel.get_grad.
  now rewrite (bind_inl _ _ _ _ (get_grad_gram_zero k X Y Hd Hs)).
Qed.

Lemma get_grad_hess_zero (k : GaussianKernel.t) (X Y : tensor2 R) :
  t_ncols X = t_ncols Y -> GaussianKernel.sigma k = 0 ->
  GaussianKernel.get_grad_hess X Y k = inl ZeroDivisionError.
Proof.
  intros Hd Hs. unfold GaussianKernel.get_grad_hess.
  now rewrite (bind_inl _ _ _ _ (get_gram_matrix_zero k X Y Hd Hs)).
Qed.

Lemma with_kernel_fail {A} (c : M GaussianKernel.t A)
  (self : KernelNetModel.t) (e : Error) :
  c (KernelNetModel.kernel self) = inl e ->
  KernelNetModel.with_kernel c self = inl e.
Proof. intros H. unfold KernelNetModel.with_kernel. now rewrite H. Qed.

Lemma get_X_fail (self : KernelNetModel.t) :
  KernelNetModel.X self = None ->
  KernelNetModel.get_X self = inl AttributeError.
Proof.
  intros H. unfold KernelNetModel.get_X. rewrite bind_get. now rewrite H.
Qed.

Lemma get_kernel_fun_grad_run (self : KernelNetModel.t) (x Y : tensor2 R) :
  KernelNetModel.X self = Some x -> t_ncols x = t_ncols Y ->
  GaussianKernel.sigma (KernelNetModel.kernel self) <> 0 ->
  KernelNetModel.get_kernel_fun_grad Y self
  = inr (kernel_fun_grad_value self x Y,
         grad_tensor (GaussianKernel.sigma (KernelNetModel.kernel self)) x Y,
         with_kernel_state self
           (with_pdist2 (KernelNetModel.kernel self) (pdist2_matrix x Y))).
Proof.
  intros HX Hd Hs. unfold KernelNetModel.get_kernel_fun_grad.
  rewrite (bind_inr _ _ _ _ _ (get_X_run self x HX)).
  rewrite (bind_inr _ _ _ _ _
             (with_kernel_run _ self _ _ (get_grad_run _ x Y Hd Hs))).
  rewrite bind_get. reflexivity.
Qed.

Lemma get_kernel_fun_hess_run (self : KernelNetModel.t) (x Y : tensor2 R) :
  KernelNetModel.X self = Some x -> t_ncols x = t_ncols Y ->
  GaussianKernel.sigma (KernelNetModel.kernel self) <> 0 ->
  KernelNetModel.get_kernel_fun_hess Y self
  = inr (kernel_fun_hess_value self x Y,
         hess_tensor (GaussianKernel.sigma (KernelNetModel.kernel self)) x Y,
         with_kernel_state self
           (with_pdist2 (KernelNetModel.kernel self) (pdist2_matrix x Y))).
Proof.
  intros HX Hd Hs. unfold KernelNetModel.get_kernel_fun_hess.
  rewrite (bind_inr _ _ _ _ _ (get_X_run self x HX)).
  rewrite (bind_inr _ _ _ _ _
             (with_kernel_run _ self _ _ (get_hess_run _ x Y Hd Hs))).
  rewrite bind_get. reflexivity.
Qed.

Lemma get_kernel_fun_grad_hess_value (self : KernelNetModel.t)
  (x Y : tensor2 R) :
  KernelNetModel.X self = Some x -> t_ncols x = t_ncols Y ->
  GaussianKernel.sigma (KernelNetModel.kernel self) <> 0 ->
  KernelNetModel.get_kernel_fun_grad_hess Y self
  = inr (kernel_fun_grad_value self x Y, kernel_fun_hess_value self x Y,
         with_kernel_state self
           (with_pdist2 (KernelNetModel.kernel self) (pdist2_matrix x Y))).
Proof.
  intros HX Hd Hs. unfold KernelNetModel.get_kernel_fun_grad_hess.
  rewrite (bind_inr _ _ _ _ _ (get_X_run self x HX)).
  rewrite (bind_inr _ _ _ _ _
             (with_kernel_run _ self _ _ (get_grad_hess_run _ x Y Hd Hs))).
  rewrite bind_get. reflexivity.
Qed.

(** X5.  [get_kernel_fun_grad_hess] is [get_kernel_fun_grad] followed by
    [get_kernel_fun_hess]: the same gradient and Hessian, the same final
    state, and the same exception when [self.X] is unset, the feature
    dimensions differ or the bandwidth is zero. *)
Theorem kernel_fun_grad_hess_fused (self : KernelNetModel.t)
  (Y : tensor2 R) :
  KernelNetModel.get_kernel_fun_grad_hess Y self
  = (' (grad, _) <- KernelNetModel.get_kernel_fun_grad Y ;;
     ' (hess, _) <- KernelNetModel.get_kernel_fun_hess Y ;;
     ret (grad, hess)) self.
Proof.
  destruct (KernelNetModel.X self) as [x|] eqn:HX.
  - destruct (Nat.eq_dec (t_ncols x) (t_ncols Y)) as [Hd|Hd].
    + destruct (Req_EM_T (GaussianKernel.sigma (KernelNetModel.kernel self))
                  0) as [Hs|Hs].
      { assert (F1 : KernelNetModel.get_kernel_fun_grad_hess Y self
                     = inl ZeroDivisionError).
        { unfold KernelNetModel.get_kernel_fun_grad_hess.
          rewrite (bind_inr _ _ _ _ _ (get_X_run self x HX)).
          now rewrite (bind_inl _ _ _ _
                         (with_kernel_fail _ self _
                            (get_grad_hess_zero _ x Y Hd Hs))). }
        assert (F2 : KernelNetModel.get_kernel_fun_grad Y self
                     = inl ZeroDivisionError).
        { unfold KernelNetModel.get_kernel_fun_grad.
          rewrite (bind_inr _ _ _ _ _ (get_X_run self x HX)).
          now rewrite (bind_inl _ _ _ _
                         (with_kernel_fail _ self _
                            (get_grad_zero _ x Y Hd Hs))). }
        now rewrite F1, (bind_inl _ _ _ _ F2). }
      rewrite (get_kernel_fun_grad_hess_value self x Y HX Hd Hs).
      rewrite (bind_inr _ _ _ _ _
                 (get_kernel_fun_grad_run self x Y HX Hd Hs)).
      cbv beta iota zeta.
      set (s1 := with_kernel_state self
                   (with_pdist2 (KernelNetModel.kernel self)
                      (pdist2_matrix x Y))).
      rewrite (bind_inr _ _ _ _ _
                 (get_kernel_fun_hess_run s1 x Y HX Hd Hs)).
      reflexivity.
    + assert (F1 : KernelNetModel.get_kernel_fun_grad_hess Y self
                   = inl AssertionError).
      { unfold KernelNetModel.get_kernel_fun_grad_hess.
        rewrite (bind_inr _ _ _ _ _ (get_X_run self x HX)).
        now rewrite (bind_inl _ _ _ _
                       (with_kernel_fail _ self _
                          (get_grad_hess_fail _ x Y Hd))). }
      assert (F2 : KernelNetModel.get_kernel_fun_grad Y self
                   = inl AssertionError).
      { unfold KernelNetModel.get_kernel_fun_grad.
        rewrite (bind_inr _ _ _ _ _ (get_X_run self x HX)).
        now rewrite (bind_inl _ _ _ _
                       (with_kernel_fail _ self _ (get_grad_fail _ x Y Hd))). }
      now rewrite F1, (bind_inl _ _ _ _ F2).
  - assert (F1 : KernelNetModel.get_kernel_fun_grad_hess Y self
                 = inl AttributeError).
    { unfold KernelNetModel.get_kernel_fun_grad_hess.
      now rewrite (bind_inl _ _ _ _ (get_X_fail self HX)). }
    assert (F2 : KernelNetModel.get_kernel_fun_grad Y self
                 = inl AttributeError).
    { unfold KernelNetModel.get_kernel_fun_grad.
      now rewrite (bind_inl _ _ _ _ (get_X_fail self HX)). }
    now rewrite F1, (bind_inl _ _ _ _ F2).
Qed.

Lemma deriv_rsum (n : nat) (f : nat -> R -> R) (l : nat -> R) (x : R) :
  (forall i, (i < n)%nat -> derivable_pt_lim (f i) x (l i)) ->
  derivable_pt_lim (fun t => rsum n (fun i => f i t)) x (rsum n l).
Proof.
  induction n as [|n IH]; intros H.
  - apply (derivable_pt_lim_ext (fun _ => 0)).
    + intros t. now rewrite rsum_0.
    + rewrite rsum_0. apply derivable_pt_lim_const.
  - apply (derivable_pt_lim_ext
             (fun t => rsum n (fun i => f i t) + f n t)).
    + intros t. now rewrite rsum_S.
    + rewrite rsum_S. apply derivable_pt_lim_plus.
      * apply IH. intros i Hi. apply H. lia.
      * apply H. lia.
Qed.

Lemma evaluate_kernel_fun_run (self : KernelNetModel.t) (x Y : tensor2 R) :
  KernelNetModel.X self = Some x -> t_ncols x = t_ncols Y ->
  GaussianKernel.sigma (KernelNetModel.kernel self) <> 0 ->
  KernelNetModel.evaluate_kernel_fun Y self
  = inr (tabulate (t_nrows Y) (fun j =>
           rsum (KernelNetModel.npoint self) (fun i =>
             get1 (KernelNetModel.alpha self) i
             * get2 (gram_matrix
                       (GaussianKernel.sigma (KernelNetModel.kernel self))
                       x Y) i j)),
         with_kernel_state self
           (with_pdist2 (KernelNetModel.kernel self) (pdist2_matrix x Y))).
Proof.
  intros HX Hd Hs. unfold KernelNetModel.evaluate_kernel_fun.
  rewrite (bind_inr _ _ _ _ _ (get_X_run self x HX)).
  rewrite (bind_inr _ _ _ _ _
             (with_kernel_run _ self _ _
                (get_gram_matrix_run _ x Y Hd Hs))).
  rewrite bind_get. reflexivity.
Qed.

Lemma kernel_fun_at_sum (self : KernelNetModel.t) (x Y : tensor2 R)
  (j l : nat) (t : R) :
  KernelNetModel.X self = Some x -> t_ncols x = t_ncols Y ->
  GaussianKernel.sigma (KernelNetModel.kernel self) <> 0 ->
  (j < t_nrows Y)%nat ->
  kernel_fun_at self Y j l t
  = rsum (KernelNetModel.npoint self) (fun i =>
      get1 (KernelNetModel.alpha self) i
      * gram_at (KernelNetModel.kernel self) x Y i j l t).
Proof.
  intros HX Hd Hs Hj. unfold kernel_fun_at, gram_at.
  assert (Hd' : t_ncols x = t_ncols (set_entry Y j l t)) by exact Hd.
  rewrite (evaluate_kernel_fun_run self x _ HX Hd' Hs).
  rewrite (get_gram_matrix_run _ x _ Hd' Hs).
  rewrite get1_tabulate by (now rewrite t_nrows_set_entry).
  reflexivity.
Qed.

Lemma kernel_fun_grad_at_sum (self : KernelNetModel.t) (x Y : tensor2 R)
  (j c l : nat) (t : R) :
  KernelNetModel.X self = Some x -> t_ncols x = t_ncols Y ->
  GaussianKernel.sigma (KernelNetModel.kernel self) <> 0 ->
  (j < t_nrows Y)%nat -> (c < t_ncols x)%nat ->
  kernel_fun_grad_at self Y j c l t
  = rsum (KernelNetModel.npoint self) (fun i =>
      get1 (KernelNetModel.alpha self) i
      * grad_at (KernelNetModel.kernel self) x Y i j c l t).
Proof.
  intros HX Hd Hs Hj Hc. unfold kernel_fun_grad_at, grad_at.
  assert (Hd' : t_ncols x = t_ncols (set_entry Y j l t)) by exact Hd.
  rewrite (get_kernel_fun_grad_run self x _ HX Hd' Hs).
  rewrite (get_grad_run _ x _ Hd' Hs). unfold kernel_fun_grad_value.
  rewrite get2_tabulate by (rewrite ?t_nrows_set_entry; assumption).
  reflexivity.
Qed.

Lemma hess_is_derivative (k : GaussianKernel.t) (X Y : tensor2 R)
  (i j c l : nat) :
  t_ncols X = t_ncols Y -> GaussianKernel.sigma k <> 0 ->
  (i < t_nrows X)%nat -> (j < t_nrows Y)%nat ->
  (c < t_ncols X)%nat -> (l < t_ncols X)%nat ->
  derivable_pt_lim (grad_at k X Y i j c l) (at2 Y j l)
    (get4 (hess_tensor (GaussianKernel.sigma k) X Y) i j c l).
Proof.
  intros Hd Hs Hi Hj Hc Hl.
  apply (derivable_pt_lim_ext _ _ _ _
           (fun t => grad_at_formula k X Y i j c l t Hd Hs Hi Hj Hc)).
  apply (deriv_to _ _ _ _
           (deriv_kernel_grad (GaussianKernel.sigma k) (t_ncols X) c l
              (at2 X i) (at2 Y j) (at2 Y j l) Hs Hl)).
  rewrite hess_tensor_entry by assumption. unfold sqdist.
  rewrite (unchanged_coordinate (at2 Y j)).
  f_equal. f_equal. f_equal.
  apply rsum_ext; intros c' _.
  now rewrite (unchanged_coordinate (at2 Y j)).
Qed.

(** X6.  On a model whose [alpha] has one entry per stored feature,
    [get_kernel_fun_grad] returns the gradient of [evaluate_kernel_fun] in
    the input, and [get_kernel_fun_hess] the derivative of that gradient:
    entry [[j, l]] of the first is the partial derivative of entry [j] of
    the kernel function in [Y[j, l]], entry [[j, c, l]] of the second is
    the partial derivative of entry [[j, c]] of the gradient in [Y[j, l]]. *)
Theorem kernel_fun_derivatives (self : KernelNetModel.t) (x Y : tensor2 R) :
  KernelNetModel.X self = Some x -> t_ncols x = t_ncols Y ->
  KernelNetModel.npoint self = t_nrows x ->
  GaussianKernel.sigma (KernelNetModel.kernel self) <> 0 ->
  exists grad hess K1 K2 s',
    KernelNetModel.get_kernel_fun_grad Y self = inr (grad, K1, s') /\
    KernelNetModel.get_kernel_fun_hess Y self = inr (hess, K2, s') /\
    forall j c l,
      (j < t_nrows Y)%nat -> (c < t_ncols x)%nat -> (l < t_ncols x)%nat ->
      derivable_pt_lim (kernel_fun_at self Y j l) (at2 Y j l)
        (get2 grad j l) /\
      derivable_pt_lim (kernel_fun_grad_at self Y j c l) (at2 Y j l)
        (get3 hess j c l).
Proof.
  intros HX Hd Hn Hs.
  do 5 eexists.
  split; [exact (get_kernel_fun_grad_run self x Y HX Hd Hs)|].
  split; [exact (get_kernel_fun_hess_run self x Y HX Hd Hs)|].
  intros j c l Hj Hc Hl. split.
  - apply (derivable_pt_lim_ext
             (fun t => rsum (KernelNetModel.npoint self) (fun i =>
                get1 (KernelNetModel.alpha self) i
                * gram_at (KernelNetModel.kernel self) x Y i j l t))).
    { intros t. symmetry. now apply kernel_fun_at_sum. }
    unfold kernel_fun_grad_value. rewrite get2_tabulate by assumption.
    apply deriv_rsum. intros i Hi. rewrite Hn in Hi.
    apply derivable_pt_lim_scal.
    destruct (grad_is_derivative (KernelNetModel.kernel self) x Y i j l
                Hd Hs Hi Hj Hl) as [K [k' [Hrun HD]]].
    rewrite get_grad_run in Hrun by assumption.
    inversion Hrun; subst. exact HD.
  - apply (derivable_pt_lim_ext
             (fun t => rsum (KernelNetModel.npoint self) (fun i =>
                get1 (KernelNetModel.alpha self) i
                * grad_at (KernelNetModel.kernel self) x Y i j c l t))).
    { intros t. symmetry. now apply kernel_fun_grad_at_sum. }
    unfold kernel_fun_hess_value. rewrite get3_tabulate by assumption.
    apply deriv_rsum. intros i Hi. rewrite Hn in Hi.
    apply derivable_pt_lim_scal.
    now apply hess_is_derivative.
Qed.

Lemma kernel_fun_derivatives_witness :
  exists grad K1 s',
    KernelNetModel.get_kernel_fun_grad Examples.Y1 Examples.model3
    = inr (grad, K1, s') /\
    derivable_pt_lim (kernel_fun_at Examples.model3 Examples.Y1 0 1)
      (at2 Examples.Y1 0 1) (get2 grad 0 1).
Proof.
  assert (Hs : GaussianKernel.sigma
                 (KernelNetModel.kernel Examples.model3) <> 0)
    by (simpl; lra).
  destruct (kernel_fun_derivatives Examples.model3 Examples.X3 Examples.Y1
              eq_refl eq_refl eq_refl Hs)
    as [grad [hess [K1 [K2 [s' [Hg [_ Hent]]]]]]].
  exists grad, K1, s'. split; [exact Hg|].
  apply (Hent 0%nat 0%nat 1%nat); unfold t_nrows; simpl; lia.
Defined.

(** ** The kernel-only score and its minimiser *)

Lemma rsum_swap (m n : nat) (f : nat -> nat -> R) :
  rsum m (fun i => rsum n (fun j => f i j))
  = rsum n (fun j => rsum m (fun i => f i j)).
Proof.
  induction m as [|m IH].
  - rewrite rsum_0. symmetry. apply rsum_zero. intros j _. apply rsum_0.
  - rewrite rsum_S, IH, <- rsum_plus. apply rsum_ext; intros j _.
    now rewrite rsum_S.
Qed.

Lemma rsum_scal_r (n : nat) (c : R) (f : nat -> R) :
  rsum n (fun i => f i * c) = rsum n f * c.
Proof.
  rewrite Rmult_comm, <- rsum_scal. apply rsum_ext; intros i _. ring.
Qed.

Lemma rsum2_plus (n d : nat) (f g : nat -> nat -> R) :
  rsum n (fun k => rsum d (fun l => f k l + g k l))
  = rsum n (fun k => rsum d (fun l => f k l))
    + rsum n (fun k => rsum d (fun l => g k l)).
Proof.
  rewrite <- rsum_plus. apply rsum_ext; intros k _. apply rsum_plus.
Qed.

Lemma rsum2_scal (n d : nat) (c : R) (f : nat -> nat -> R) :
  rsum n (fun k => rsum d (fun l => c * f k l))
  = c * rsum n (fun k => rsum d (fun l => f k l)).
Proof.
  rewrite <- rsum_scal. apply rsum_ext; intros k _. apply rsum_scal.
Qed.

(** A quadratic form whose matrix is a Gram matrix of the rows of [A] is
    a sum of products of the projections. *)
Lemma gram_bilinear (m n d : nat) (u v : nat -> R)
  (A : nat -> nat -> nat -> R) :
  rsum m (fun i => rsum m (fun j =>
    u i * rsum n (fun k => rsum d (fun l => A i k l * A j k l)) * v j))
  = rsum n (fun k => rsum d (fun l =>
      rsum m (fun i => u i * A i k l) * rsum m (fun j => v j * A j k l))).
Proof.
  transitivity
    (rsum m (fun i => rsum m (fun j => rsum n (fun k => rsum d (fun l =>
       (u i * A i k l) * (v j * A j k l)))))).
  { apply rsum2_ext; intros i j _ _.
    rewrite <- rsum2_scal, <- rsum_scal_r.
    apply rsum_ext; intros k _. rewrite <- rsum_scal_r.
    apply rsum_ext; intros l _. ring. }
  transitivity
    (rsum n (fun k => rsum d (fun l => rsum m (fun i => rsum m (fun j =>
       (u i * A i k l) * (v j * A j k l)))))).
  { transitivity
      (rsum m (fun i => rsum n (fun k => rsum m (fun j => rsum d (fun l =>
         (u i * A i k l) * (v j * A j k l)))))).
    { apply rsum_ext; intros i _.
      apply (rsum_swap m n (fun j k => rsum d (fun l =>
               (u i * A i k l) * (v j * A j k l)))). }
    rewrite (rsum_swap m n (fun i k => rsum m (fun j => rsum d (fun l =>
               (u i * A i k l) * (v j * A j k l))))).
    apply rsum_ext; intros k _.
    transitivity
      (rsum m (fun i => rsum d (fun l => rsum m (fun j =>
         (u i * A i k l) * (v j * A j k l))))).
    { apply rsum_ext; intros i _.
      apply (rsum_swap m d (fun j l => (u i * A i k l) * (v j * A j k l))). }
    apply (rsum_swap m d (fun i l => rsum m (fun j =>
             (u i * A i k l) * (v j * A j k l)))). }
  apply rsum2_ext; intros k l _ _.
  rewrite <- rsum_scal_r. apply rsum_ext; intros i _.
  now rewrite <- rsum_scal.
Qed.

(** The gap between the objective at any coefficients and at coefficients
    that solve the normal equations is a sum of squares. *)
Lemma objective_gap (m n d : nat) (c1 c2 sigma : R) (b : nat -> R)
  (A : nat -> nat -> nat -> R) (a0 a1 : nat -> R) :
  (forall i, (i < m)%nat ->
     rsum m (fun j =>
       rsum n (fun k => rsum d (fun l => A i k l * A j k l)) * a0 j)
     = - sigma * b i) ->
  c1 = 2 * sigma * c2 ->
  (c1 * rsum m (fun i => a1 i * b i)
   + c2 * rsum m (fun i => rsum m (fun j =>
            a1 i * rsum n (fun k => rsum d (fun l => A i k l * A j k l))
            * a1 j)))
  - (c1 * rsum m (fun i => a0 i * b i)
     + c2 * rsum m (fun i => rsum m (fun j =>
              a0 i * rsum n (fun k => rsum d (fun l => A i k l * A j k l))
              * a0 j)))
  = c2 * rsum n (fun k => rsum d (fun l =>
           rsum m (fun i => (a1 i - a0 i) * A i k l)
           * rsum m (fun i => (a1 i - a0 i) * A i k l))).
Proof.
  intros Hsol Hc.
  set (dl := fun i => a1 i - a0 i).
  set (U := fun (a : nat -> R) k l => rsum m (fun i => a i * A i k l)).
  assert (HU : forall k l, U a1 k l = U a0 k l + U dl k l).
  { intros k l. unfold U. rewrite <- rsum_plus.
    apply rsum_ext; intros i _. unfold dl. ring. }
  assert (Hb : rsum m (fun i => a1 i * b i)
               = rsum m (fun i => a0 i * b i)
                 + rsum m (fun i => dl i * b i)).
  { rewrite <- rsum_plus. apply rsum_ext; intros i _. unfold dl. ring. }
  assert (Hcross : rsum n (fun k => rsum d (fun l => U dl k l * U a0 k l))
                   = - sigma * rsum m (fun i => dl i * b i)).
  { unfold U. rewrite <- (gram_bilinear m n d dl a0 A).
    rewrite <- rsum_scal. apply rsum_ext; intros i Hi.
    transitivity
      (dl i * rsum m (fun j =>
         rsum n (fun k => rsum d (fun l => A i k l * A j k l)) * a0 j)).
    { rewrite <- rsum_scal. apply rsum_ext; intros j _. ring. }
    rewrite (Hsol i Hi). ring. }
  rewrite !gram_bilinear. fold (U a1) (U a0) (U dl).
  assert (Hsq : rsum n (fun k => rsum d (fun l => U a1 k l * U a1 k l))
                = rsum n (fun k => rsum d (fun l => U a0 k l * U a0 k l))
                  + 2 * rsum n (fun k => rsum d (fun l =>
                          U dl k l * U a0 k l))
                  + rsum n (fun k => rsum d (fun l =>
                      U dl k l * U dl k l))).
  { rewrite <- rsum2_scal, <- !rsum2_plus.
    apply rsum2_ext; intros k l _ _. rewrite HU. ring. }
  change (fun k => rsum d (fun l =>
            rsum m (fun i => a1 i * A i k l)
            * rsum m (fun j => a1 j * A j k l)))
    with (fun k => rsum d (fun l => U a1 k l * U a1 k l)).
  change (fun k => rsum d (fun l =>
            rsum m (fun i => a0 i * A i k l)
            * rsum m (fun j => a0 j * A j k l)))
    with (fun k => rsum d (fun l => U a0 k l * U a0 k l)).
  change (fun k => rsum d (fun l =>
            rsum m (fun i => (a1 i - a0 i) * A i k l)
            * rsum m (fun i => (a1 i - a0 i) * A i k l)))
    with (fun k => rsum d (fun l => U dl k l * U dl k l)).
  rewrite Hsq, Hcross, Hb, Hc. ring.
Qed.

Lemma kernel_score_value (self : KernelNetModel.t) (data x : tensor2 R) :
  KernelNetModel.X self = Some x ->
  t_ncols data = Network.ndim_in (KernelNetModel.network self) ->
  t_ncols x = Network.ndim_out (KernelNetModel.network self) ->
  KernelNetModel.npoint self = t_nrows x ->
  GaussianKernel.sigma (KernelNetModel.kernel self) <> 0 ->
  (0 < t_nrows data)%nat ->
  KernelNetModel.kernel_score data self
  = inr (kernel_objective
           (one_over (GaussianKernel.sigma_obj (KernelNetModel.kernel self)))
           (GaussianKernel.sigma (KernelNetModel.kernel self))
           (KernelNetModel.ndim self) x
           (features (KernelNetModel.network self) data)
           (INR (t_nrows data)) (KernelNetModel.alpha self),
         with_kernel_state self
           (with_pdist2 (KernelNetModel.kernel self)
              (pdist2_matrix x
                 (features (KernelNetModel.network self) data)))).
Proof.
  intros HX Hdata Hx Hn Hs HN.
  pose proof (process_data_run self data Hdata) as HY.
  fold (features (KernelNetModel.network self) data) in HY.
  set (Y := features (KernelNetModel.network self) data) in *.
  set (so := GaussianKernel.sigma_obj (KernelNetModel.kernel self)).
  set (s1 := with_kernel_state self
               (with_pdist2 (KernelNetModel.kernel self)
                  (pdist2_matrix x Y))).
  assert (Hd : t_ncols x = t_ncols Y) by exact Hx.
  destruct (kernel_score_stats_run self x Y HX Hd Hs)
    as [b [C [Hst [Hb [HC _]]]]].
  assert (HNr : Python.value (Python.Int (Z.of_nat (t_nrows data))) <> 0).
  { rewrite value_of_nat. apply not_0_INR. lia. }
  assert (Hsq : Python.value (Python.pow so 2) <> 0).
  { rewrite value_pow. now apply pow_nonzero. }
  unfold KernelNetModel.kernel_score.
  rewrite (bind_inr _ _ _ _ _ HY). rewrite bind_get.
  rewrite (bind_inr _ _ _ _ _ Hst). cbv beta iota zeta. fold so s1.
  rewrite (bind_inr _ _ _ _ _ (div_float_run 1 _ s1 HNr)).
  rewrite (bind_inr _ _ _ _ _ (div_float_run _ so s1 Hs)).
  rewrite (bind_inr _ _ _ _ _ (div_float_run 0.5 _ s1 HNr)).
  rewrite (bind_inr _ _ _ _ _ (div_float_run _ _ s1 Hsq)).
  unfold ret, kernel_objective. cbn [Python.value]. rewrite value_pow.
  change (IZR (Z.of_nat (t_nrows data)))
    with (Python.value (Python.Int (Z.of_nat (t_nrows data)))).
  rewrite value_of_nat. rewrite Hn.
  fold (GaussianKernel.sigma (KernelNetModel.kernel self)).
  apply f_equal. apply (f_equal (fun v => (v, _))).
  apply f_equal2; apply f_equal.
  - apply rsum_ext; intros i Hi. apply f_equal. now apply Hb.
  - apply rsum2_ext; intros i j Hi Hj. apply (f_equal (fun v => v * _)).
    apply f_equal. now apply HC.
Qed.

(** X7.  On a model whose [alpha] has one entry per stored feature, with
    a bandwidth that is not zero and a batch that is not empty,
    [score_original] and [kernel_score] both return and leave the same
    state; their values differ by the term in which [kernel_score] uses
    the quotient [1/sigma] of the host language, so they are equal when
    that quotient is the real one: for every float bandwidth.  The first
    contracts the data axis inside the square, the second builds the
    statistics [b] and [C] first. *)
Theorem score_original_is_kernel_score (self : KernelNetModel.t)
  (data x : tensor2 R) :
  KernelNetModel.X self = Some x ->
  t_ncols data = Network.ndim_in (KernelNetModel.network self) ->
  t_ncols x = Network.ndim_out (KernelNetModel.network self) ->
  KernelNetModel.npoint self = t_nrows x ->
  GaussianKernel.sigma (KernelNetModel.kernel self) <> 0 ->
  (0 < t_nrows data)%nat ->
  exists J J' self',
    KernelNetModel.score_original data self = inr (J, self') /\
    KernelNetModel.kernel_score data self = inr (J', self') /\
    J' = J
         + (one_over (GaussianKernel.sigma_obj (KernelNetModel.kernel self))
            - 1 / GaussianKernel.sigma (KernelNetModel.kernel self))
           * (1 / INR (t_nrows data)
              / GaussianKernel.sigma (KernelNetModel.kernel self))
           * rsum (t_nrows x) (fun i =>
               get1 (KernelNetModel.alpha self) i
               * rsum (t_nrows data) (fun j =>
                   get2 (gram_matrix
                           (GaussianKernel.sigma (KernelNetModel.kernel self))
                           x (features (KernelNetModel.network self) data))
                     i j
                   * sqdist x (features (KernelNetModel.network self) data)
                       i j)) /\
    (forall s,
       GaussianKernel.sigma_obj (KernelNetModel.kernel self) = Python.Float s ->
       J' = J).
Proof.
  intros HX Hdata Hx Hn Hs HN.
  set (Y := features (KernelNetModel.network self) data).
  set (sigma := GaussianKernel.sigma (KernelNetModel.kernel self)) in *.
  set (c := one_over (GaussianKernel.sigma_obj (KernelNetModel.kernel self))).
  assert (HrY : t_nrows Y = t_nrows data) by apply t_nrows_features.
  assert (Hgap :
    kernel_objective c sigma (KernelNetModel.ndim self) x Y
      (INR (t_nrows data)) (KernelNetModel.alpha self)
    = (rsum (t_nrows x) (fun i => rsum (t_nrows Y) (fun j =>
         get1 (KernelNetModel.alpha self) i
         * get2 (gram_matrix sigma x Y) i j
         * get2 (map (map (fun p =>
                   1 / sigma * p - INR (KernelNetModel.ndim self)))
                   (pdist2_matrix x Y)) i j))
       * 1 / INR (t_nrows data) / sigma
       + 0.5 / INR (t_nrows data) / sigma ^ 2
         * rsum (t_nrows Y) (fun j => rsum (t_ncols x) (fun l =>
             rsum (t_nrows x) (fun i =>
               get1 (KernelNetModel.alpha self) i
               * (at2 x i l - at2 Y j l)
               * get2 (gram_matrix sigma x Y) i j) ^ 2)))
      + (c - 1 / sigma) * (1 / INR (t_nrows data) / sigma)
        * rsum (t_nrows x) (fun i =>
            get1 (KernelNetModel.alpha self) i
            * rsum (t_nrows data) (fun j =>
                get2 (gram_matrix sigma x Y) i j * sqdist x Y i j))).
  { unfold kernel_objective.
    assert (Hd : t_ncols x = t_ncols Y) by exact Hx.
    assert (E1 : rsum (t_nrows x) (fun i => rsum (t_nrows Y) (fun j =>
                   get1 (KernelNetModel.alpha self) i
                   * get2 (gram_matrix sigma x Y) i j
                   * get2 (map (map (fun p =>
                             1 / sigma * p - INR (KernelNetModel.ndim self)))
                             (pdist2_matrix x Y)) i j))
                 = rsum (t_nrows x) (fun i =>
                     get1 (KernelNetModel.alpha self) i
                     * stats_b (1 / sigma) sigma
                         (KernelNetModel.ndim self) x Y i)).
    { apply rsum_ext; intros i Hi. unfold stats_b.
      rewrite <- !rsum_scal, <- rsum_plus, <- rsum_scal.
      apply rsum_ext; intros j Hj.
      destruct (pdist2_matrix_shape x Y) as [Hm Hn'].
      rewrite (get2_map2 _ _ _ _ i j Hm Hn' Hi Hj).
      rewrite (pdist2_matrix_sqdist x Y i j Hd Hi Hj).
      unfold sqdist. ring. }
    assert (E2 : rsum (t_nrows x) (fun i =>
                   get1 (KernelNetModel.alpha self) i
                   * stats_b c sigma (KernelNetModel.ndim self) x Y i)
                 = rsum (t_nrows x) (fun i =>
                     get1 (KernelNetModel.alpha self) i
                     * stats_b (1 / sigma) sigma
                         (KernelNetModel.ndim self) x Y i)
                   + (c - 1 / sigma)
                     * rsum (t_nrows x) (fun i =>
                         get1 (KernelNetModel.alpha self) i
                         * rsum (t_nrows data) (fun j =>
                             get2 (gram_matrix sigma x Y) i j
                             * sqdist x Y i j))).
    { rewrite <- rsum_scal, <- rsum_plus. apply rsum_ext; intros i _.
      unfold stats_b, sqdist. rewrite HrY. ring. }
    assert (E3 : rsum (t_nrows x) (fun i => rsum (t_nrows x) (fun j =>
                   get1 (KernelNetModel.alpha self) i
                   * stats_C sigma x Y i j
                   * get1 (KernelNetModel.alpha self) j))
                 = rsum (t_nrows Y) (fun j => rsum (t_ncols x) (fun l =>
                     rsum (t_nrows x) (fun i =>
                       get1 (KernelNetModel.alpha self) i
                       * (at2 x i l - at2 Y j l)
                       * get2 (gram_matrix sigma x Y) i j) ^ 2))).
    { unfold stats_C.
      rewrite (gram_bilinear (t_nrows x) (t_nrows Y) (t_ncols x)
                 (get1 (KernelNetModel.alpha self))
                 (get1 (KernelNetModel.alpha self))
                 (stats_A sigma x Y)).
      apply rsum2_ext; intros k l _ _.
      simpl pow. rewrite Rmult_1_r. apply f_equal2.
      - apply rsum_ext; intros i _. unfold stats_A. ring.
      - apply rsum_ext; intros i _. unfold stats_A. ring. }
    rewrite E1, E2, E3. unfold Rdiv. ring. }
  exists (rsum (t_nrows x) (fun i => rsum (t_nrows Y) (fun j =>
            get1 (KernelNetModel.alpha self) i
            * get2 (gram_matrix sigma x Y) i j
            * get2 (map (map (fun p =>
                      1 / sigma * p - INR (KernelNetModel.ndim self)))
                      (pdist2_matrix x Y)) i j))
          * 1 / INR (t_nrows data) / sigma
          + 0.5 / INR (t_nrows data) / sigma ^ 2
            * rsum (t_nrows Y) (fun j => rsum (t_ncols x) (fun l =>
                rsum (t_nrows x) (fun i =>
                  get1 (KernelNetModel.alpha self) i
                  * (at2 x i l - at2 Y j l)
                  * get2 (gram_matrix sigma x Y) i j) ^ 2))).
  do 2 eexists.
  split; [exact (score_original_run self data x HX Hdata Hx Hs HN)|].
  split; [exact (kernel_score_value self data x HX Hdata Hx Hn Hs HN)|].
  fold Y sigma c. split; [exact Hgap|].
  intros s Hf. rewrite Hgap.
  assert (Hc : c = 1 / sigma).
  { unfold c, sigma, GaussianKernel.sigma. now rewrite Hf. }
  rewrite Hc. ring.
Qed.

Lemma score_original_is_kernel_score_witness :
  exists J self',
    KernelNetModel.score_original Examples2.data2 Examples.ready_model2
    = inr (J, self') /\
    KernelNetModel.kernel_score Examples2.data2 Examples.ready_model2
    = inr (J, self').
Proof.
  assert (HN : (0 < t_nrows Examples2.data2)%nat)
    by (unfold t_nrows; simpl; lia).
  destruct (score_original_is_kernel_score Examples.ready_model2
              Examples2.data2 (mk2 [[0]; [1]] 1)
              eq_refl eq_refl eq_refl eq_refl sigma_ready_model2 HN)
    as [J [J' [self' [H1 [H2 [_ Hf]]]]]].
  exists J, self'. split; [exact H1|].
  now rewrite H2, (Hf 1 eq_refl).
Defined.

Lemma get2_column (b : list R) (i : nat) :
  get2 (map (fun v => [v]) b) i 0 = get1 b i.
Proof.
  unfold get2, get1. revert i.
  induction b as [|v b IH]; intros [|i]; simpl; auto.
Qed.

Lemma dec_half : 0.5 = 1 / 2.
Proof. lra. Qed.

(** X8.  With a solver whose answers solve the system it was given,
    [kernel_fit] either leaves with the solver's rejection or stores the
    coefficients that minimise [kernel_score] on the same data: no other
    coefficient vector gives a smaller value. *)
Theorem kernel_fit_minimises
  (matrix_solve : list (list R) -> list (list R) -> option (list (list R)))
  (self : KernelNetModel.t) (data x : tensor2 R) (lam : R) :
  KernelNetModel.X self = Some x ->
  t_ncols data = Network.ndim_in (KernelNetModel.network self) ->
  t_ncols x = Network.ndim_out (KernelNetModel.network self) ->
  KernelNetModel.npoint self = t_nrows x ->
  KernelNetModel.npoint self <> 1%nat ->
  GaussianKernel.sigma (KernelNetModel.kernel self) <> 0 ->
  (0 < t_nrows data)%nat ->
  (forall A rhs z, matrix_solve A rhs = Some z ->
     forall i, (i < KernelNetModel.npoint self)%nat ->
       rsum (KernelNetModel.npoint self) (fun j => get2 A i j * get2 z j 0)
       = get2 rhs i 0) ->
  KernelNetModel.kernel_fit matrix_solve data lam self
  = inl InvalidArgumentError \/
  exists a self',
    KernelNetModel.kernel_fit matrix_solve data lam self = inr (a, self') /\
    KernelNetModel.alpha self' = a /\
    exists J s2,
      KernelNetModel.kernel_score data self' = inr (J, s2) /\
      forall a', length a' = KernelNetModel.npoint self ->
        exists J' s3,
          KernelNetModel.kernel_score data (with_alpha self' a')
          = inr (J', s3) /\
          J <= J'.
Proof.
  intros HX Hdata Hx Hn Hnp Hs HN Hsolve.
  set (net := KernelNetModel.network self).
  set (Y := features net data).
  set (sigma := GaussianKernel.sigma (KernelNetModel.kernel self)).
  set (c := one_over (GaussianKernel.sigma_obj (KernelNetModel.kernel self))).
  assert (Hd : t_ncols x = t_ncols Y) by exact Hx.
  destruct (kernel_score_stats_run self x Y HX Hd Hs)
    as [b [C [Hst [Hb [HC Hlen]]]]].
  assert (Hnb : KernelNetModel.npoint
                  (with_kernel_state self
                     (with_pdist2 (KernelNetModel.kernel self)
                        (pdist2_matrix x Y))) = length b)
    by (rewrite Hlen; exact Hn).
  assert (Hb1 : length b <> 1%nat) by (rewrite Hlen, <- Hn; exact Hnp).
  rewrite (kernel_fit_run matrix_solve self data lam b C _ Hdata Hst
             Hnb Hb1).
  destruct (matrix_solve C (map (fun v => [v]) b)) as [z|] eqn:Hz;
    [right | now left].
  unfold KernelNetModel.squeeze.
  apply Nat.eqb_neq in Hb1. rewrite Hb1.
  unfold KernelNetModel.assign_alpha. rewrite Hlen, <- Hn.
  set (ahat := tabulate (KernelNetModel.npoint self) (fun i =>
                 get2 (map (map (fun v => - sigma * v)) z) i 0)).
  set (self' := with_alpha
                  (with_kernel_state self
                     (with_pdist2 (KernelNetModel.kernel self)
                        (pdist2_matrix x Y))) ahat).
  exists ahat, self'. split; [reflexivity|]. split; [reflexivity|].
  assert (Hahat : forall j, (j < t_nrows x)%nat ->
            get1 ahat j = - sigma * get2 z j 0).
  { intros j Hj. unfold ahat. rewrite get1_tabulate by (now rewrite Hn).
    apply get2_scaled. }
  do 2 eexists. split.
  { apply (kernel_score_value self' data x HX Hdata Hx Hn Hs HN). }
  intros a' Ha'. do 2 eexists. split.
  { apply (kernel_score_value (with_alpha self' a') data x HX Hdata Hx Hn
             Hs HN). }
  change (kernel_objective c sigma (KernelNetModel.ndim self) x Y
            (INR (t_nrows data)) ahat
          <= kernel_objective c sigma (KernelNetModel.ndim self) x Y
               (INR (t_nrows data)) a').
  assert (HNr : 0 < INR (t_nrows data)) by (now apply lt_0_INR).
  assert (Hc : 1 / INR (t_nrows data) / sigma
               = 2 * sigma * (0.5 / INR (t_nrows data) / sigma ^ 2)).
  { rewrite dec_half. field. split; [lra | exact Hs]. }
  assert (Hsol : forall i, (i < t_nrows x)%nat ->
            rsum (t_nrows x) (fun j =>
              rsum (t_nrows Y) (fun k => rsum (t_ncols x) (fun l =>
                stats_A sigma x Y i k l * stats_A sigma x Y j k l))
              * get1 ahat j)
            = - sigma * stats_b c sigma (KernelNetModel.ndim self) x Y i).
  { intros i Hi.
    transitivity
      (- sigma * rsum (KernelNetModel.npoint self) (fun j =>
                   get2 C i j * get2 z j 0)).
    - rewrite Hn, <- rsum_scal. apply rsum_ext; intros j Hj.
      rewrite (Hahat j Hj), (HC i j Hi Hj). unfold stats_A, sigma. ring.
    - rewrite (Hsolve _ _ _ Hz i) by (now rewrite Hn).
      rewrite get2_column, (Hb i Hi). reflexivity. }
  pose proof (objective_gap (t_nrows x) (t_nrows Y) (t_ncols x)
                (1 / INR (t_nrows data) / sigma)
                (0.5 / INR (t_nrows data) / sigma ^ 2) sigma
                (stats_b c sigma (KernelNetModel.ndim self) x Y)
                (stats_A sigma x Y) (get1 ahat) (get1 a') Hsol Hc) as G.
  assert (Hc2 : 0 <= 0.5 / INR (t_nrows data) / sigma ^ 2).
  { unfold Rdiv. apply Rmult_le_pos; [apply Rmult_le_pos; [lra|]|].
    - left. now apply Rinv_0_lt_compat.
    - left. apply Rinv_0_lt_compat.
      replace (sigma ^ 2) with (Rsqr sigma) by (unfold Rsqr; ring).
      now apply Rsqr_pos_lt. }
  assert (HQ : 0 <= rsum (t_nrows Y) (fun k => rsum (t_ncols x) (fun l =>
                 rsum (t_nrows x) (fun i =>
                   (get1 a' i - get1 ahat i) * stats_A sigma x Y i k l)
                 * rsum (t_nrows x) (fun i =>
                     (get1 a' i - get1 ahat i) * stats_A sigma x Y i k l)))).
  { apply rsum_nonneg; intros k _. apply rsum_nonneg; intros l _. nra. }
  unfold kernel_objective, stats_C. nra.
Qed.

Lemma solve2_exact (A rhs z : list (list R)) :
  Examples2.solve2 A rhs = Some z ->
  forall i, (i < 2)%nat ->
    rsum 2 (fun j => get2 A i j * get2 z j 0) = get2 rhs i 0.
Proof.
  unfold Examples2.solve2.
  destruct (Req_EM_T _ 0) as [|Hdet]; [discriminate|].
  intros Hz i Hi. injection Hz as <-.
  rewrite !rsum_S, rsum_0.
  destruct i as [|[|i]]; [| |lia];
    cbn [get2 get1 nth]; field; exact Hdet.
Qed.

Lemma kernel_fit_minimises_witness :
  KernelNetModel.kernel_fit Examples2.solve2 Examples2.data2 0.01
    Examples.ready_model2 = inl InvalidArgumentError \/
  exists a self',
    KernelNetModel.kernel_fit Examples2.solve2 Examples2.data2 0.01
      Examples.ready_model2 = inr (a, self') /\
    KernelNetModel.alpha self' = a /\
    exists J s2,
      KernelNetModel.kernel_score Examples2.data2 self' = inr (J, s2) /\
      forall a', length a' = 2%nat ->
        exists J' s3,
          KernelNetModel.kernel_score Examples2.data2 (with_alpha self' a')
          = inr (J', s3) /\
          J <= J'.
Proof.
  apply (kernel_fit_minimises Examples2.solve2 Examples.ready_model2
           Examples2.data2 (mk2 [[0]; [1]] 1) 0.01
           eq_refl eq_refl eq_refl eq_refl).
  - simpl. discriminate.
  - simpl. lra.
  - unfold t_nrows. simpl. lia.
  - intros A rhs z Hz i Hi. now apply solve2_exact.
Defined.

(** ** The input Jacobian of the base class *)

Lemma Network_get_grad_data_run {S} (net : Network.t) (s : S) :
  (0 < Network.batch_size net)%nat -> (0 < Network.ndim_in net)%nat ->
  Network.Network_get_grad_data net s
  = inr (autodiff_grad net,
         output_expr net (ph_tensor (batch_ph net)), batch_ph net, s).
Proof.
  intros Hb Hd. unfold Network.Network_get_grad_data.
  rewrite (bind_inr _ _ _ _ _ (SumOutputNet_init_run net s)).
  cbn [Network.sum_output Network.batch Network.output].
  assert (E : tabulate (Network.ndim_out net) (fun oi =>
                tf_gradients
                  (nth oi (tabulate (Network.ndim_out net)
                             (sum_output_expr net)) (Const 0))
                  (batch_ph net))
              = map (fun oi => Some (tabulate (Network.batch_size net) (fun j =>
                       tabulate (Network.ndim_in net) (fun k =>
                         or_zero (diff (sum_output_expr net oi) j k)))))
                    (seq 0 (Network.ndim_out net))).
  { apply tabulate_ext; intros oi Ho. rewrite nth_tabulate by assumption.
    now apply tf_gradients_sum_output. }
  rewrite E.
  rewrite (bind_inr _ _ _ _ _ (stack_gradients_some _ _ s)).
  reflexivity.
Qed.

Lemma eget2_const_tensor (data : tensor2 R) (j k : nat) :
  eget2 (t_rows (const_tensor data)) j k = Const (at2 data j k).
Proof.
  unfold eget2, const_tensor, at2, get2, get1. cbn [t_rows].
  change (@nil expr) with (map Const []).
  rewrite map_nth. change (Const 0) with (Const 0%R).
  now rewrite map_nth.
Qed.

(** The activation of a network at pre-activation [z]. *)
Lemma eval_out_const (net : Network.t) (data : tensor2 R) (j o : nat) :
  eval [] (out_expr net (const_tensor data) j o)
  = match Network.cls net with
    | Network.LinearNetwork => preact net (t_rows data) j o
    | Network.LinearReLUNetwork (g0, g1) =>
        Rmax (preact net (t_rows data) j o * g1)
             (preact net (t_rows data) j o * g0)
    end.
Proof.
  assert (E : eval [] (preact_expr net (const_tensor data) j o)
              = preact net (t_rows data) j o).
  { unfold preact_expr, preact. cbn [eval]. rewrite eval_esum. f_equal.
    apply rsum_ext; intros k _. now rewrite eget2_const_tensor. }
  unfold out_expr.
  destruct (Network.cls net) as [|[g0 g1]]; cbn [eval]; now rewrite !E.
Qed.

Lemma at2_features (net : Network.t) (data : tensor2 R) (j o : nat) :
  (j < t_nrows data)%nat -> (o < Network.ndim_out net)%nat ->
  at2 (features net data) j o
  = eval [] (out_expr net (const_tensor data) j o).
Proof.
  intros Hj Ho. unfold features, at2, Network.value, output_expr, eval2.
  cbn [t_rows]. rewrite map2_tabulate.
  assert (E : t_nrows (const_tensor data) = t_nrows data).
  { unfold t_nrows, const_tensor. cbn [t_rows]. apply length_map. }
  rewrite E. now rewrite get2_tabulate.
Qed.

Lemma preact_set_entry (net : Network.t) (data : tensor2 R) (j o k : nat)
  (t : R) :
  t_ncols data = Network.ndim_in net ->
  (j < t_nrows data)%nat -> (k < Network.ndim_in net)%nat ->
  preact net (t_rows (set_entry data j k t)) j o
  = preact net (t_rows data) j o
    + (t - at2 data j k) * get2 (Network.W net) o k.
Proof.
  intros Hd Hj Hk. unfold preact.
  transitivity
    (rsum (Network.ndim_in net) (fun c =>
       get2 (t_rows data) j c * get2 (Network.W net) o c
       + (if Nat.eqb c k
          then (t - at2 data j k) * get2 (Network.W net) o k else 0))
     + get1 (Network.b net) o).
  - f_equal. apply rsum_ext; intros c Hc.
    assert (E := at2_set_entry data j k t j c Hj).
    rewrite Hd in E. specialize (E Hc). unfold at2 in E. rewrite E.
    rewrite Nat.eqb_refl. cbn [andb].
    destruct (Nat.eqb c k) eqn:Ec.
    + apply Nat.eqb_eq in Ec. subst c. unfold at2. ring.
    + ring.
  - rewrite rsum_plus.
    rewrite (rsum_single _ k (fun c => if Nat.eqb c k
               then (t - at2 data j k) * get2 (Network.W net) o k else 0) Hk).
    + rewrite Nat.eqb_refl. ring.
    + intros c _ Hc. apply Nat.eqb_neq in Hc. now rewrite Hc.
Qed.

Lemma output_at_formula (net : Network.t) (data : tensor2 R) (j o k : nat)
  (t : R) :
  t_ncols data = Network.ndim_in net ->
  (j < t_nrows data)%nat -> (o < Network.ndim_out net)%nat ->
  (k < Network.ndim_in net)%nat ->
  output_at net data j o k t
  = let z := preact net (t_rows data) j o
             + (t - at2 data j k) * get2 (Network.W net) o k in
    match Network.cls net with
    | Network.LinearNetwork => z
    | Network.LinearReLUNetwork (g0, g1) => Rmax (z * g1) (z * g0)
    end.
Proof.
  intros Hd Hj Ho Hk. unfold output_at.
  assert (Hd' : t_ncols (set_entry data j k t) = Network.ndim_in net)
    by exact Hd.
  rewrite (forward_value_run net _ tt Hd').
  fold (features net (set_entry data j k t)).
  rewrite at2_features by (rewrite ?t_nrows_set_entry; assumption).
  rewrite eval_out_const, preact_set_entry by assumption.
  reflexivity.
Qed.

Lemma deriv_affine (a m x : R) :
  derivable_pt_lim (fun t => a + t * m) x m.
Proof.
  intros eps Heps. exists (mkposreal 1 Rlt_0_1). intros h Hh _.
  replace ((a + (x + h) * m - (a + x * m)) / h - m) with 0
    by (field; exact Hh).
  now rewrite Rabs_R0.
Qed.

Lemma affine_keeps_sign (z0 w t0 : R) :
  z0 <> 0 ->
  exists delta, 0 < delta /\
    forall t, t0 - delta < t < t0 + delta ->
      0 < z0 * (z0 + (t - t0) * w).
Proof.
  intros Hz.
  destruct (Req_dec w 0) as [Hw|Hw].
  - exists 1. split; [lra|]. intros t _. subst w.
    replace (z0 * (z0 + (t - t0) * 0)) with (Rsqr z0)
      by (unfold Rsqr; ring).
    now apply Rsqr_pos_lt.
  - set (delta := Rabs (z0 / w)).
    assert (Hpos : 0 < delta).
    { apply Rabs_pos_lt. unfold Rdiv.
      apply Rmult_integral_contrapositive_currified;
        [exact Hz | now apply Rinv_neq_0_compat]. }
    assert (Hsq : delta * delta * (w * w) = z0 * z0).
    { unfold delta. fold (Rsqr (Rabs (z0 / w))). rewrite <- Rsqr_abs.
      unfold Rsqr. field. exact Hw. }
    exists delta. split; [exact Hpos|]. intros t [Hlo Hhi].
    set (h := t - t0).
    assert (Hh : h * h < delta * delta) by (unfold h; nra).
    assert (Hw2 : 0 < w * w) by (now apply (Rsqr_pos_lt w)).
    assert (Hu : (h * w) * (h * w) < z0 * z0) by nra.
    assert (Hsum : 0 <= (z0 + h * w) * (z0 + h * w)) by apply Rle_0_sqr.
    nra.
Qed.

Lemma deriv_relu_affine (g0 g1 z0 w t0 : R) :
  z0 <> 0 ->
  derivable_pt_lim
    (fun t => Rmax ((z0 + (t - t0) * w) * g1) ((z0 + (t - t0) * w) * g0))
    t0 ((if Rle_dec (z0 * g0) (z0 * g1) then g1 else g0) * w).
Proof.
  intros Hz.
  set (s := if Rle_dec (z0 * g0) (z0 * g1) then g1 else g0).
  destruct (affine_keeps_sign z0 w t0 Hz) as [delta [Hpos Hsign]].
  apply (derivable_pt_lim_locally_ext
           (fun t => (z0 * s - t0 * (s * w)) + t * (s * w))
           _ t0 (t0 - delta) (t0 + delta)).
  - lra.
  - intros t Ht. specialize (Hsign t Ht).
    set (z := z0 + (t - t0) * w) in *.
    replace (z0 * s - t0 * (s * w) + t * (s * w)) with (z * s)
      by (unfold z; ring).
    unfold s, Rmax.
    destruct (Rle_dec (z0 * g0) (z0 * g1)) as [H0|H0];
      destruct (Rle_dec (z * g1) (z * g0)) as [H1|H1];
      try reflexivity.
    + destruct (Rtotal_order z0 0) as [Hn|[He|Hp]]; [|contradiction|]; nra.
    + destruct (Rtotal_order z0 0) as [Hn|[He|Hp]]; [|contradiction|]; nra.
  - apply (deriv_to _ _ _ _ (deriv_affine _ (s * w) t0)). reflexivity.
Qed.

(** X9.  On a batch of the placeholder's shape, the Jacobian the base
    class builds with [tf.gradients] is the derivative of the forward
    pass: entry [[o, j, k]] is the partial derivative of output [[j, o]]
    in the input coordinate [[j, k]], for a [LinearNetwork] everywhere and
    for a [LinearReLUNetwork], whatever its slopes, wherever the
    pre-activation is not zero.  The node [son.output] evaluates to the
    forward pass on the batch. *)
Theorem autodiff_jacobian_is_derivative (net : Network.t) (data : tensor2 R)
  (S : Type) (s : S) :
  (0 < Network.batch_size net)%nat -> (0 < Network.ndim_in net)%nat ->
  t_ncols data = Network.ndim_in net ->
  t_nrows data = Network.batch_size net ->
  exists grad out x,
    Network.Network_get_grad_data net s = inr (grad, out, x, s) /\
    forall o j k,
      (o < Network.ndim_out net)%nat -> (j < Network.batch_size net)%nat ->
      (k < Network.ndim_in net)%nat ->
      at2 (Network.value (t_rows data) out) j o
      = output_at net data j o k (at2 data j k) /\
      (Network.cls net = Network.LinearNetwork \/
       preact net (t_rows data) j o <> 0 ->
       derivable_pt_lim (output_at net data j o k) (at2 data j k)
         (get3 (eval3 (t_rows data) grad) o j k)).
Proof.
  intros Hb Hin Hd Hn.
  do 3 eexists. split; [exact (Network_get_grad_data_run net s Hb Hin)|].
  intros o j k Ho Hj Hk.
  assert (Hj' : (j < t_nrows data)%nat) by (now rewrite Hn).
  split.
  - rewrite at2_output_value, eval_out_expr by assumption.
    rewrite output_at_formula by assumption. cbv zeta.
    replace (preact net (t_rows data) j o
             + (at2 data j k - at2 data j k) * get2 (Network.W net) o k)
      with (preact net (t_rows data) j o) by ring.
    reflexivity.
  - intros Hcase.
    rewrite autodiff_grad_entry by assumption.
    apply (derivable_pt_lim_ext _ _ _ _
             (fun t => eq_sym (output_at_formula net data j o k t
                                 Hd Hj' Ho Hk))).
    cbv zeta. unfold autodiff_slope.
    destruct (Network.cls net) as [|[g0 g1]].
    + apply (derivable_pt_lim_ext
               (fun t => (preact net (t_rows data) j o
                          - at2 data j k * get2 (Network.W net) o k)
                         + t * get2 (Network.W net) o k)).
      * intros t. ring.
      * apply (deriv_to _ _ _ _ (deriv_affine _ _ _)). ring.
    + destruct Hcase as [Hc|Hz]; [discriminate|].
      apply deriv_relu_affine. exact Hz.
Qed.

Lemma autodiff_jacobian_is_derivative_witness :
  exists grad out x,
    Network.Network_get_grad_data Examples2.leaky_net tt
    = inr (grad, out, x, tt) /\
    derivable_pt_lim
      (output_at Examples2.leaky_net Examples2.batch2 1 0 1)
      (at2 Examples2.batch2 1 1)
      (get3 (eval3 (t_rows Examples2.batch2) grad) 0 1 1).
Proof.
  assert (Hb : (0 < Network.batch_size Examples2.leaky_net)%nat)
    by (simpl; lia).
  assert (Hi : (0 < Network.ndim_in Examples2.leaky_net)%nat)
    by (simpl; lia).
  destruct (autodiff_jacobian_is_derivative Examples2.leaky_net
              Examples2.batch2 unit tt Hb Hi eq_refl eq_refl)
    as [grad [out [x [Hrun Hent]]]].
  exists grad, out, x. split; [exact Hrun|].
  destruct (Hent 0%nat 1%nat 1%nat) as [_ HD]; try (simpl; lia).
  apply HD. right.
  unfold preact, Examples2.leaky_net, Examples2.batch2.
  cbn [Network.ndim_in Network.W Network.b t_rows].
  rewrite !rsum_S, rsum_0. cbn [get2 get1 nth]. lra.
Defined.

(** X10.  Where the slopes are ordered [0 <= lin_grads[0] <= lin_grads[1]]
    and no pre-activation is zero (and on every batch for a
    [LinearNetwork]), the Jacobian of the subclass override
    [get_grad_data] equals, entry by entry, the Jacobian the base class
    builds with [tf.gradients]; both return the same output and
    the same placeholder. *)
Theorem override_matches_autodiff (net : Network.t) (feed : list (list R))
  (S : Type) (s : S) :
  (0 < Network.batch_size net)%nat -> (0 < Network.ndim_in net)%nat ->
  off_kink net feed ->
  exists gA gB out x,
    Network.get_grad_data net feed s
    = inr (gA, Network.value feed out, x, s) /\
    Network.Network_get_grad_data net s = inr (gB, out, x, s) /\
    forall o j k,
      (o < Network.ndim_out net)%nat -> (j < Network.batch_size net)%nat ->
      (k < Network.ndim_in net)%nat ->
      get3 gA o j k = get3 (eval3 feed gB) o j k.
Proof.
  intros Hb Hin Hoff.
  destruct (analytic_grad_entry net feed s) as [gA [HA EA]].
  exists gA, (autodiff_grad net),
    (output_expr net (ph_tensor (batch_ph net))), (batch_ph net).
  split; [exact HA|].
  split; [exact (Network_get_grad_data_run net s Hb Hin)|].
  intros o j k Ho Hj Hk.
  rewrite (EA o j k Ho Hj Hk), autodiff_grad_entry by assumption.
  now rewrite (slopes_agree net feed j o Hoff Hj Ho).
Qed.

Lemma override_matches_autodiff_witness :
  exists gA gB out x,
    Network.get_grad_data Examples2.leaky_net (t_rows Examples2.batch2) tt
    = inr (gA, Network.value (t_rows Examples2.batch2) out, x, tt) /\
    Network.Network_get_grad_data Examples2.leaky_net tt
    = inr (gB, out, x, tt) /\
    get3 gA 0 1 1 = get3 (eval3 (t_rows Examples2.batch2) gB) 0 1 1.
Proof.
  assert (Hb : (0 < Network.batch_size Examples2.leaky_net)%nat)
    by (simpl; lia).
  assert (Hi : (0 < Network.ndim_in Examples2.leaky_net)%nat)
    by (simpl; lia).
  assert (Hoff : off_kink Examples2.leaky_net (t_rows Examples2.batch2)).
  { unfold off_kink. cbn [Network.cls Examples2.leaky_net].
    split; [lra|]. intros j o Hj Ho.
    unfold preact, Examples2.leaky_net, Examples2.batch2 in *.
    cbn [Network.ndim_in Network.W Network.b Network.batch_size
         Network.ndim_out t_rows] in *.
    rewrite !rsum_S, rsum_0.
    destruct o as [|o]; [|lia].
    destruct j as [|[|j]]; [| |lia]; cbn [get2 get1 nth]; lra. }
  destruct (override_matches_autodiff Examples2.leaky_net
              (t_rows Examples2.batch2) unit tt Hb Hi Hoff)
    as [gA [gB [out [x [HA [HB E]]]]]].
  exists gA, gB, out, x. split; [exact HA|]. split; [exact HB|].
  apply E; simpl; lia.
Defined.



(** ** DeepNetwork: what the constructor accepts, and the forward pass *)

Lemma check_from_ok (tensor St : Type) (self : DeepNetwork.t tensor)
  (layers : list (DeepNetwork.layer tensor)) (s : St) :
  DeepNetwork.self_nlayer tensor self = length layers ->
  (forall i, consistent_at layers (DeepNetwork.self_batch_size tensor self) i)
  ->
  forall rest pre, layers = pre ++ rest ->
    DeepNetwork.check_from tensor self layers (length pre) rest s
    = inr (tt, s).
Proof.
  intros Hn Hcons rest. induction rest as [|l rest IH]; intros pre Hl.
  - reflexivity.
  - cbn [DeepNetwork.check_from]. unfold bind, assert_.
    destruct (Hcons (length pre) l) as [Hnet [Hbs Hnext]].
    { rewrite Hl. apply nth_error_middle. }
    rewrite Hnet. cbn [ret].
    assert (Hlen : DeepNetwork.self_nlayer tensor self
                   = (length pre + S (length rest))%nat)
      by (rewrite Hn, Hl, length_app; reflexivity).
    assert (Hadj : (if Nat.ltb (length pre)
                         (DeepNetwork.self_nlayer tensor self - 1)
                    then
                      match nth_error layers (length pre + 1) with
                      | None => raise IndexError
                      | Some next =>
                          match DeepNetwork.ndim_out tensor l with
                          | DeepNetwork.Tuple s0 =>
                              if DeepNetwork.tuple_eqb
                                   (DeepNetwork.ndim_in tensor next) s0
                              then ret tt else raise AssertionError
                          | DeepNetwork.Int n =>
                              if DeepNetwork.tuple_eqb
                                   (DeepNetwork.ndim_in tensor next) [n]
                              then ret tt else raise AssertionError
                          end
                      end
                    else ret tt) s
                   = (inr (tt, s) : Error + unit * St)).
    { rewrite Nat.add_1_r.
      destruct rest as [|l' rest'].
      - replace (Nat.ltb (length pre)
                   (DeepNetwork.self_nlayer tensor self - 1)) with false
          by (symmetry; apply Nat.ltb_ge; simpl in Hlen; lia).
        reflexivity.
      - replace (Nat.ltb (length pre)
                   (DeepNetwork.self_nlayer tensor self - 1)) with true
          by (symmetry; apply Nat.ltb_lt; simpl in Hlen; lia).
        assert (Hl' : nth_error layers (S (length pre)) = Some l')
          by (rewrite Hl, nth_error_after; reflexivity).
        rewrite Hl'. specialize (Hnext l' Hl').
        unfold DeepNetwork.out_shape in Hnext.
        destruct (DeepNetwork.ndim_out tensor l) as [s0|n];
          apply tuple_eqb_eq in Hnext; now rewrite Hnext. }
    rewrite Hadj. rewrite Hbs, Nat.eqb_refl. cbn [ret].
    specialize (IH (pre ++ [l])).
    rewrite length_app, Nat.add_1_r in IH. cbn [length] in IH.
    apply IH. rewrite <- app_assoc. exact Hl.
Qed.

(** X12.  [DeepNetwork(layers)] accepts every consistent non-empty list:
    when each layer is a [Network] with the batch size of the first and
    each layer's input shape is the output shape of the one before it,
    the constructor returns an object whose [nlayer] is the number of
    layers, whose [ndim_in] and [batch_size] are those of the first layer
    and whose [ndim_out] is that of the last. *)
Theorem deep_network_accepts_consistent (tensor : Type)
  (first : DeepNetwork.layer tensor) (rest : list (DeepNetwork.layer tensor)) :
  (forall i, consistent_at (first :: rest)
               (DeepNetwork.batch_size tensor first) i) ->
  exists net,
    DeepNetwork.init tensor (first :: rest) = inr net /\
    DeepNetwork.self_nlayer tensor net = S (length rest) /\
    DeepNetwork.self_layers tensor net = first :: rest /\
    DeepNetwork.self_ndim_in tensor net = DeepNetwork.ndim_in tensor first /\
    DeepNetwork.self_batch_size tensor net
    = DeepNetwork.batch_size tensor first /\
    DeepNetwork.self_ndim_out tensor net
    = DeepNetwork.ndim_out tensor (last rest first).
Proof.
  intros Hcons. unfold DeepNetwork.init, DeepNetwork._check_consistency.
  match goal with
  | |- context [DeepNetwork.check_from tensor ?self ?ls 0 ?ls tt] =>
      pose proof (check_from_ok tensor unit self ls tt eq_refl Hcons ls []
                    eq_refl) as Hrun
  end.
  cbn [length] in Hrun |- *. rewrite Hrun.
  eexists. split; [reflexivity|]. cbn.
  repeat split. destruct rest; reflexivity.
Qed.

Lemma deep_network_accepts_consistent_witness :
  exists net,
    DeepNetwork.init unit [Examples.layer_a; Examples.layer_b] = inr net /\
    DeepNetwork.self_nlayer unit net = 2%nat /\
    DeepNetwork.self_ndim_in unit net = [4%nat] /\
    DeepNetwork.self_ndim_out unit net = DeepNetwork.Int 2.
Proof.
  destruct (deep_network_accepts_consistent unit Examples.layer_a
              [Examples.layer_b]) as [net [H [Hn [_ [Hin [_ Hout]]]]]].
  - intros i l Hl.
    destruct i as [|[|i]]; cbn in Hl.
    + inversion Hl; subst l. repeat split.
      intros l' Hl'. cbn in Hl'. inversion Hl'; subst l'. reflexivity.
    + inversion Hl; subst l. repeat split.
      intros l' Hl'. cbn in Hl'. discriminate.
    + destruct i; discriminate.
  - exists net. repeat split; assumption.
Defined.

Lemma init_inr_fields (tensor : Type)
  (first : DeepNetwork.layer tensor) (rest : list (DeepNetwork.layer tensor))
  (net : DeepNetwork.t tensor) :
  DeepNetwork.init tensor (first :: rest) = inr net ->
  DeepNetwork.self_ndim_in tensor net = DeepNetwork.ndim_in tensor first /\
  DeepNetwork.self_ndim_out tensor net
  = DeepNetwork.ndim_out tensor (last rest first).
Proof.
  unfold DeepNetwork.init.
  destruct (DeepNetwork._check_consistency _ _ _ tt) as [e|[u t']];
    [discriminate|].
  intros H. inversion H; subst net. cbn. split; [reflexivity|].
  destruct rest; reflexivity.
Qed.

Lemma last_map {A B} (f : A -> B) (l : list A) (d : A) :
  last (map f l) (f d) = f (last l d).
Proof.
  induction l as [|a l IH]; [reflexivity|].
  destruct l as [|a' l]; [reflexivity|]. exact IH.
Qed.

Lemma last_cons_default {A} (a d : A) (l : list A) :
  last (a :: l) d = last l a.
Proof.
  destruct l as [|b l]; [reflexivity|].
  change (last (a :: b :: l) d) with (last (b :: l) d).
  revert b. induction l as [|c l IH]; intros b; [reflexivity|].
  change (last (b :: c :: l) d) with (last (c :: l) d).
  change (last (b :: c :: l) a) with (last (c :: l) a).
  apply IH.
Qed.

Lemma t_nrows_output_expr (net : Network.t) (data : tensor2 expr) :
  t_nrows (output_expr net data) = t_nrows data.
Proof. unfold t_nrows, output_expr. cbn [t_rows]. apply length_tabulate. Qed.

(** A chain of layers, the input width of each being the output width of
    the one before, maps a batch of the first input width to a batch of
    the last output width. *)
Lemma forward_chain {St} (nets : list Network.t) (s : St) :
  (forall i n n', nth_error nets i = Some n ->
     nth_error nets (S i) = Some n' ->
     Network.ndim_in n' = Network.ndim_out n) ->
  forall first rest (data : tensor2 expr),
    nets = first :: rest ->
    t_ncols data = Network.ndim_in first ->
    exists out,
      DeepNetworkForward.forward_tensor nets data s = inr (out, s) /\
      t_ncols out = Network.ndim_out (last rest first) /\
      t_nrows out = t_nrows data.
Proof.
  induction nets as [|n nets IH]; intros Hchain first rest data Hl Hd;
    [discriminate|].
  inversion Hl; subst n nets. cbn [DeepNetworkForward.forward_tensor].
  rewrite (bind_inr _ _ _ _ _ (forward_tensor_run first data s Hd)).
  destruct rest as [|n' rest'].
  - eexists. split; [reflexivity|]. split; [reflexivity|].
    apply t_nrows_output_expr.
  - destruct (IH (fun i a b Ha Hb => Hchain (S i) a b Ha Hb) n' rest'
                (output_expr first data) eq_refl) as [out [Hrun [Hc Hr]]].
    { cbn [t_ncols output_expr]. symmetry.
      apply (Hchain 0%nat first n'); reflexivity. }
    exists out. split; [exact Hrun|].
    split; [now rewrite last_cons_default|].
    rewrite Hr. apply t_nrows_output_expr.
Qed.

(** X13.  A [DeepNetwork] that the constructor accepted, built from
    [LinearNetwork] and [LinearReLUNetwork] layers, never fails in
    [forward_tensor] on a batch of its input shape: every layer receives
    a batch of the width it expects, and the result has the batch's
    number of rows and the network's [ndim_out] as width. *)
Theorem deep_forward_safe (nets : list Network.t)
  (net : DeepNetwork.t (list (list R))) (data : tensor2 expr)
  (St : Type) (s : St) :
  DeepNetwork.init (list (list R)) (map DeepNetworkForward.as_layer nets)
  = inr net ->
  [t_ncols data] = DeepNetwork.self_ndim_in (list (list R)) net ->
  exists out,
    DeepNetworkForward.forward_tensor nets data s = inr (out, s) /\
    DeepNetwork.Tuple [t_ncols out]
    = DeepNetwork.self_ndim_out (list (list R)) net /\
    t_nrows out = t_nrows data.
Proof.
  intros Hinit Hd.
  destruct (init_consistent _ _ _ Hinit) as [fl [_ Hcons]].
  destruct nets as [|first rest]; [discriminate|].
  cbn [map] in Hinit.
  destruct (init_inr_fields _ _ _ _ Hinit) as [Hin Hout].
  rewrite Hin in Hd. cbn in Hd. inversion Hd as [Hd'].
  destruct (forward_chain (first :: rest) s) with
    (first := first) (rest := rest) (data := data)
    as [out [Hrun [Hc Hr]]]; try reflexivity; try assumption.
  - intros i n n' Hn Hn'.
    destruct (Hcons i (DeepNetworkForward.as_layer n)) as [_ [_ Hnext]].
    { change (first :: rest) with (first :: rest) in Hn.
      now rewrite nth_error_map, Hn. }
    specialize (Hnext (DeepNetworkForward.as_layer n')).
    rewrite nth_error_map, Hn' in Hnext. specialize (Hnext eq_refl).
    cbn in Hnext. now inversion Hnext.
  - exists out. split; [exact Hrun|]. split; [|exact Hr].
    rewrite Hout, Hc, last_map. reflexivity.
Qed.

Lemma deep_forward_safe_witness :
  exists net out,
    DeepNetwork.init (list (list R))
      (map DeepNetworkForward.as_layer [Examples.lin_net; Examples2.wide_net])
    = inr net /\
    DeepNetworkForward.forward_tensor [Examples.lin_net; Examples2.wide_net]
      (ph_tensor (mkph 2 2)) tt = inr (out, tt) /\
    DeepNetwork.Tuple [t_ncols out]
    = DeepNetwork.self_ndim_out (list (list R)) net.
Proof.
  assert (Hinit : exists net,
            DeepNetwork.init (list (list R))
              (map DeepNetworkForward.as_layer
                 [Examples.lin_net; Examples2.wide_net]) = inr net)
    by (eexists; reflexivity).
  destruct Hinit as [net Hinit].
  destruct (deep_forward_safe [Examples.lin_net; Examples2.wide_net] net
              (ph_tensor (mkph 2 2)) unit tt Hinit) as [out [Hrun [Hc _]]].
  - destruct (init_inr_fields _ _ _ _ Hinit) as [Hin _].
    rewrite Hin. reflexivity.
  - exists net, out. split; [exact Hinit|]. split; [exact Hrun | exact Hc].
Defined.

Lemma eval_preact_general (net : Network.t) (feed : list (list R))
  (data : tensor2 expr) (j o : nat) :
  eval feed (preact_expr net data j o)
  = rsum (Network.ndim_in net) (fun k =>
      eval feed (eget2 (t_rows data) j k) * get2 (Network.W net) o k)
    + get1 (Network.b net) o.
Proof.
  unfold preact_expr. cbn [eval]. now rewrite eval_esum.
Qed.

Lemma eget2_output_expr (net : Network.t) (data : tensor2 expr) (j o : nat) :
  (j < t_nrows data)%nat -> (o < Network.ndim_out net)%nat ->
  eget2 (t_rows (output_expr net data)) j o = out_expr net data j o.
Proof.
  intros Hj Ho. unfold output_expr. cbn [t_rows].
  now rewrite eget2_tabulate.
Qed.

(** X14.  A [DeepNetwork] of two [LinearNetwork] layers is the linear map
    with the product of the weights: its output on a batch is
    [(W2 W1) x + (W2 b1 + b2)], whatever the batch and the feed. *)
Theorem deep_linear_composes (n1 n2 : Network.t) (data : tensor2 expr)
  (feed : list (list R)) (St : Type) (s : St) :
  Network.cls n1 = Network.LinearNetwork ->
  Network.cls n2 = Network.LinearNetwork ->
  Network.ndim_in n2 = Network.ndim_out n1 ->
  t_ncols data = Network.ndim_in n1 ->
  exists out,
    DeepNetworkForward.forward_tensor [n1; n2] data s = inr (out, s) /\
    forall j o, (j < t_nrows data)%nat -> (o < Network.ndim_out n2)%nat ->
      eval feed (eget2 (t_rows out) j o)
      = rsum (Network.ndim_in n1) (fun k =>
          rsum (Network.ndim_out n1) (fun h =>
            get2 (Network.W n2) o h * get2 (Network.W n1) h k)
          * eval feed (eget2 (t_rows data) j k))
        + (rsum (Network.ndim_out n1) (fun h =>
             get2 (Network.W n2) o h * get1 (Network.b n1) h)
           + get1 (Network.b n2) o).
Proof.
  intros H1 H2 Hchain Hd.
  exists (output_expr n2 (output_expr n1 data)). split.
  - cbn [DeepNetworkForward.forward_tensor].
    rewrite (bind_inr _ _ _ _ _ (forward_tensor_run n1 data s Hd)).
    assert (Hd2 : t_ncols (output_expr n1 data) = Network.ndim_in n2)
      by (now rewrite Hchain).
    rewrite (bind_inr _ _ _ _ _
               (forward_tensor_run n2 (output_expr n1 data) s Hd2)).
    reflexivity.
  - intros j o Hj Ho.
    rewrite eget2_output_expr
      by (rewrite ?t_nrows_output_expr; assumption).
    unfold out_expr at 1. rewrite H2, eval_preact_general, Hchain.
    transitivity
      (rsum (Network.ndim_out n1) (fun h =>
         rsum (Network.ndim_in n1) (fun k =>
           get2 (Network.W n2) o h * get2 (Network.W n1) h k
           * eval feed (eget2 (t_rows data) j k))
         + get2 (Network.W n2) o h * get1 (Network.b n1) h)
       + get1 (Network.b n2) o).
    + f_equal. apply rsum_ext; intros h Hh.
      rewrite eget2_output_expr by assumption.
      unfold out_expr. rewrite H1, eval_preact_general.
      rewrite Rmult_plus_distr_r. f_equal; [|ring].
      rewrite <- rsum_scal_r. apply rsum_ext; intros k _. ring.
    + rewrite rsum_plus, rsum_swap, Rplus_assoc. f_equal.
      apply rsum_ext; intros k _. now rewrite <- rsum_scal_r.
Qed.

Lemma deep_linear_composes_witness :
  exists out,
    DeepNetworkForward.forward_tensor
      [Examples.lin_net; as_linear Examples2.wide_net]
      (ph_tensor (mkph 2 2)) tt = inr (out, tt) /\
    eval [[1; 1]; [0; 0]] (eget2 (t_rows out) 0 2) = 18.
Proof.
  destruct (deep_linear_composes Examples.lin_net
              (as_linear Examples2.wide_net) (ph_tensor (mkph 2 2))
              [[1; 1]; [0; 0]] unit tt eq_refl eq_refl eq_refl eq_refl)
    as [out [Hrun E]].
  exists out. split; [exact Hrun|].
  rewrite E by (rewrite ?t_nrows_ph_tensor; simpl; lia).
  cbn [Network.ndim_in Network.ndim_out Network.W Network.b
       Examples.lin_net Examples2.wide_net as_linear].
  rewrite !rsum_S, !rsum_0.
  rewrite !eget2_ph_tensor by (simpl; lia).
  cbn [eval get2 get1 nth]. lra.
Defined.

(** ** The stored features and the regulariser *)

Lemma kernel_score_stats_fail (self : KernelNetModel.t) (Y : tensor2 R) :
  KernelNetModel.X self = None ->
  KernelNetModel._kernel_score_stats Y self = inl AttributeError.
Proof.
  intros HX. unfold KernelNetModel._kernel_score_stats.
  now rewrite (bind_inl _ _ _ _ (get_X_fail self HX)).
Qed.

(** X15.  A model constructed without points has no [self.X]: on it every
    method that reads the stored features ([evaluate_kernel_fun], the three
    [get_kernel_fun_*] methods, [_kernel_score_stats], [kernel_score],
    [score_original], [kernel_fit]) raises [AttributeError], also on data
    of the right shape.  Constructing with points of the network's input
    width stores the network output on them; points of another width make
    the constructor fail with [AssertionError]. *)
Theorem points_required
  (matrix_solve : list (list R) -> list (list R) -> option (list (list R)))
  (kernel : GaussianKernel.t) (network : Network.t) (alpha : list R)
  (Y data : tensor2 R) (lam : R) :
  t_ncols data = Network.ndim_in network ->
  exists self,
    KernelNetModel.init kernel network alpha None = inr self /\
    KernelNetModel.evaluate_kernel_fun Y self = inl AttributeError /\
    KernelNetModel.get_kernel_fun_grad Y self = inl AttributeError /\
    KernelNetModel.get_kernel_fun_hess Y self = inl AttributeError /\
    KernelNetModel.get_kernel_fun_grad_hess Y self = inl AttributeError /\
    KernelNetModel._kernel_score_stats Y self = inl AttributeError /\
    KernelNetModel.kernel_score data self = inl AttributeError /\
    KernelNetModel.score_original data self = inl AttributeError /\
    KernelNetModel.kernel_fit matrix_solve data lam self
    = inl AttributeError /\
    (forall p, t_ncols p = Network.ndim_in network ->
       KernelNetModel.init kernel network alpha (Some p)
       = inr (with_X self (features network p))) /\
    (forall p, t_ncols p <> Network.ndim_in network ->
       KernelNetModel.init kernel network alpha (Some p)
       = inl AssertionError).
Proof.
  intros Hdata.
  set (self := KernelNetModel.mk alpha (length alpha)
                 (Network.ndim_out network) (Network.ndim_in network)
                 network kernel None).
  assert (HX : KernelNetModel.X self = None) by reflexivity.
  assert (HY : KernelNetModel._process_data data self
               = inr (features network data, self))
    by (apply (process_data_run self data Hdata)).
  exists self. split; [reflexivity|].
  split.
  { unfold KernelNetModel.evaluate_kernel_fun.
    now rewrite (bind_inl _ _ _ _ (get_X_fail self HX)). }
  split.
  { unfold KernelNetModel.get_kernel_fun_grad.
    now rewrite (bind_inl _ _ _ _ (get_X_fail self HX)). }
  split.
  { unfold KernelNetModel.get_kernel_fun_hess.
    now rewrite (bind_inl _ _ _ _ (get_X_fail self HX)). }
  split.
  { unfold KernelNetModel.get_kernel_fun_grad_hess.
    now rewrite (bind_inl _ _ _ _ (get_X_fail self HX)). }
  split; [now apply kernel_score_stats_fail|].
  split.
  { unfold KernelNetModel.kernel_score.
    rewrite (bind_inr _ _ _ _ _ HY). rewrite bind_get.
    now rewrite (bind_inl _ _ _ _ (kernel_score_stats_fail self _ HX)). }
  split.
  { unfold KernelNetModel.score_original,
      KernelNetModel.score_original_with. rewrite bind_get. cbv zeta.
    assert (HK : KernelNetModel.score_original_K
                   GaussianKernel.get_gram_matrix data self
                 = inl AttributeError).
    { unfold KernelNetModel.score_original_K. rewrite bind_get.
      rewrite (bind_inr _ _ _ _ _ (forward_value_run _ data self Hdata)).
      now rewrite (bind_inl _ _ _ _ (get_X_fail self HX)). }
    now rewrite (bind_inl _ _ _ _ HK). }
  split.
  { unfold KernelNetModel.kernel_fit. rewrite bind_get. cbv zeta.
    rewrite (bind_inr _ _ _ _ _ HY).
    now rewrite (bind_inl _ _ _ _ (kernel_score_stats_fail self _ HX)). }
  split.
  - intros p Hp. unfold KernelNetModel.init. fold self.
    unfold KernelNetModel.set_points. rewrite bind_get.
    cbn [KernelNetModel.ndim_in self]. rewrite Hp, Nat.eqb_refl.
    unfold assert_.
    rewrite (bind_inr _ _ _ _ _ (eq_refl : ret tt self = inr (tt, self))).
    rewrite (bind_inr _ _ _ _ _ (forward_value_run network p self Hp)).
    reflexivity.
  - intros p Hp. unfold KernelNetModel.init. fold self.
    unfold KernelNetModel.set_points. rewrite bind_get.
    cbn [KernelNetModel.ndim_in self].
    apply Nat.eqb_neq in Hp. rewrite Hp. reflexivity.
Qed.

Lemma points_required_witness :
  exists self,
    KernelNetModel.init Examples.kernel1 Examples.lin_net [1; 2] None
    = inr self /\
    KernelNetModel.kernel_score Examples2.batch2 self = inl AttributeError /\
    KernelNetModel.init Examples.kernel1 Examples.lin_net [1; 2]
      (Some Examples2.batch2)
    = inr (with_X self (features Examples.lin_net Examples2.batch2)).
Proof.
  destruct (points_required Examples.solve_id Examples.kernel1
              Examples.lin_net [1; 2] Examples.Y1 Examples2.batch2 0
              eq_refl)
    as [self [Hi [_ [_ [_ [_ [_ [Hks [_ [_ [Hp _]]]]]]]]]]].
  exists self. split; [exact Hi|]. split; [exact Hks|].
  apply Hp. reflexivity.
Defined.




(** ** Shapes *)

Lemma tuple_eqb_false (a b : list nat) :
  DeepNetwork.tuple_eqb a b = false <-> a <> b.
Proof.
  unfold DeepNetwork.tuple_eqb.
  destruct (list_eq_dec Nat.eq_dec a b); split; congruence.
Qed.

(** X17.  [reshape_data_tensor] returns a batch of inputs or raises
    [NameError]: an input of shape [ndim_in] becomes the batch of one
    example with [single] set, an input of shape [(n,) + ndim_in] is
    returned as it is, and every other shape raises [NameError];
    reshaping a returned batch again changes nothing.
    [reshape_data_array] is the same function of the shape, but for an
    array of rank 0 with an empty [ndim_in], on which the index
    [x[None,:]] raises [IndexError].  On rank-2 tensors and a one-element
    [ndim_in] the method of the network classes is this function. *)
Theorem reshape_data_cases (ndim_in shape : list nat) :
  match Shapes.reshape_data_tensor ndim_in shape with
  | inl e =>
      e = NameError /\ shape <> ndim_in /\ tl shape <> ndim_in
  | inr (shape', single) =>
      tl shape' = ndim_in /\
      length shape' = S (length ndim_in) /\
      (single = true <-> shape = ndim_in) /\
      (single = true -> shape' = 1%nat :: shape) /\
      (single = false -> shape' = shape) /\
      Shapes.reshape_data_tensor ndim_in shape' = inr (shape', false)
  end /\
  match ndim_in, shape with
  | [], [] => Shapes.reshape_data_array ndim_in shape = inl IndexError
  | _, _ =>
      Shapes.reshape_data_array ndim_in shape
      = Shapes.reshape_data_tensor ndim_in shape
  end /\
  forall (St T : Type) (self : Network.t) (x : tensor2 T) (s : St),
    Network.reshape_data_tensor self x s
    = match Shapes.reshape_data_tensor [Network.ndim_in self]
              [t_nrows x; t_ncols x] with
      | inl e => inl e
      | inr (_, single) => inr (x, single, s)
      end.
Proof.
  split; [|split].
  - unfold Shapes.reshape_data_tensor.
    destruct (Nat.eqb (length shape) (length ndim_in)) eqn:Hlen.
    + apply Nat.eqb_eq in Hlen.
      destruct (DeepNetwork.tuple_eqb shape ndim_in) eqn:Heq.
      * apply tuple_eqb_eq in Heq. subst shape.
        split; [reflexivity|]. split; [reflexivity|].
        split; [tauto|]. split; [reflexivity|]. split; [discriminate|].
        cbn [length tl].
        replace (Nat.eqb (S (length ndim_in)) (length ndim_in)) with false
          by (symmetry; apply Nat.eqb_neq; lia).
        assert (E : DeepNetwork.tuple_eqb ndim_in ndim_in = true)
          by (now apply tuple_eqb_eq).
        now rewrite E.
      * apply tuple_eqb_false in Heq.
        split; [reflexivity|]. split; [exact Heq|].
        intros E. destruct shape as [|n sh]; cbn in E; subst.
        -- now apply Heq.
        -- cbn in Hlen. lia.
    + apply Nat.eqb_neq in Hlen.
      destruct (DeepNetwork.tuple_eqb (tl shape) ndim_in) eqn:Heq; cbn [negb].
      * apply tuple_eqb_eq in Heq.
        split; [exact Heq|].
        split.
        { destruct shape as [|n sh]; cbn in Heq; subst;
            [exfalso; apply Hlen; reflexivity | reflexivity]. }
        split; [split; [discriminate
                       | intros E; exfalso; apply Hlen; now rewrite E]|].
        split; [discriminate|]. split; [reflexivity|].
        replace (Nat.eqb (length shape) (length ndim_in)) with false
          by (symmetry; now apply Nat.eqb_neq).
        assert (E : DeepNetwork.tuple_eqb (tl shape) ndim_in = true)
          by (now apply tuple_eqb_eq).
        now rewrite E.
      * apply tuple_eqb_false in Heq.
        split; [reflexivity|]. split; [|exact Heq].
        intros E. apply Hlen. now rewrite E.
  - unfold Shapes.reshape_data_array, Shapes.reshape_data_tensor.
    destruct ndim_in as [|m nd], shape as [|n sh]; reflexivity.
  - intros St T self x s.
    unfold Network.reshape_data_tensor, Shapes.reshape_data_tensor.
    cbn [length tl Nat.eqb].
    destruct (Nat.eqb (t_ncols x) (Network.ndim_in self)) eqn:E.
    + apply Nat.eqb_eq in E.
      assert (E' : DeepNetwork.tuple_eqb [t_ncols x] [Network.ndim_in self]
                   = true) by (apply tuple_eqb_eq; now rewrite E).
      rewrite E'. reflexivity.
    + apply Nat.eqb_neq in E.
      assert (E' : DeepNetwork.tuple_eqb [t_ncols x] [Network.ndim_in self]
                   = false) by (apply tuple_eqb_false; congruence).
      rewrite E'. reflexivity.
Qed.

(** X18.  The index string of [_construct_index] for an input of rank
    [rank]: up to rank 8 it is made of [rank] distinct lower-case letters
    from ['s'] on, none of which is one of the subscripts [i], [j], [k],
    [l] that [score], [linear_score] and [MSD_V] use themselves; from rank
    9 on it contains a character that is not a letter, and from rank 14 on
    building it fails. *)
Theorem einsum_index_letters (rank : nat) :
  ((rank <= 8)%nat ->
   exists s,
     EinsumIndex._construct_index rank = Some s /\
     String.length s = rank /\
     NoDup (String.list_ascii_of_string s) /\
     Forall (fun c => EinsumIndex.is_lower c = true /\
                      ~ In c (String.list_ascii_of_string EinsumIndex.fixed_subscripts))
       (String.list_ascii_of_string s)) /\
  ((8 < rank)%nat ->
   forall s, EinsumIndex._construct_index rank = Some s ->
     exists c, In c (String.list_ascii_of_string s) /\
               EinsumIndex.is_lower c = false) /\
  ((13 < rank)%nat -> EinsumIndex._construct_index rank = None).
Proof.
  split; [|split].
  - intros Hr.
    do 9 (destruct rank as [|rank];
          [eexists; split; [reflexivity|]; split; [reflexivity|]; split;
           [repeat constructor; cbn; intuition discriminate
           |repeat constructor; cbn; intuition discriminate]|]).
    lia.
  - intros Hr s Hs.
    unfold EinsumIndex._construct_index, EinsumIndex.construct_index in Hs.
    destruct (forallb _ _); [|discriminate].
    inversion Hs; subst s. clear Hs.
    exists (Ascii.ascii_of_nat 123). split; [|reflexivity].
    rewrite String.list_ascii_of_string_of_list_ascii.
    apply in_map. change 123%nat with (8 + 115)%nat.
    apply (in_map (fun i => (i + 115)%nat)). apply in_seq. lia.
  - intros Hr.
    unfold EinsumIndex._construct_index, EinsumIndex.construct_index.
    destruct (forallb _ _) eqn:E; [|reflexivity].
    exfalso. rewrite forallb_forall in E.
    specialize (E (13 + 115)%nat).
    assert (Hin : In (13 + 115)%nat
                    (map (fun i => (i + 115)%nat) (seq 0 rank))).
    { apply (in_map (fun i => (i + 115)%nat)). apply in_seq. lia. }
    specialize (E Hin). apply Nat.ltb_lt in E. lia.
Qed.

(** X19.  [ConvNetwork.__init__] on integer arguments.  When it returns,
    the input shape is [(c, h, h, ...)], the stride is not zero, no
    dimension is negative, [W] has shape [(size, size, c, nfil)] and [b]
    the shape [(1, nfil, size_out, size_out)] of the convolution output;
    [ndim_out] has [nfil * size_out * size_out] entries whether or not
    [flatten] is set; and for a positive stride [size_out] is the number of
    windows of width [size] at multiples of the stride that fit in [h].
    It raises [IndexError] for fewer than three input dimensions,
    [AssertionError] when height and width differ, [ZeroDivisionError]
    for a zero stride and [ValueError] for a negative dimension, and
    nothing else. *)
Theorem conv_init_cases (ndim_in : list Z) (nfil size stride batch_size : Z)
  (flatten : bool) :
  match ConvNetwork.init ndim_in nfil size stride batch_size flatten with
  | inr self =>
      exists c h rest,
        ndim_in = c :: h :: h :: rest /\
        stride <> 0%Z /\
        (0 <= size)%Z /\ (0 <= nfil)%Z /\ (0 <= c)%Z /\
        (0 <= ConvNetwork.size_out self)%Z /\
        ConvNetwork.size_out self = ((h - size) / stride + 1)%Z /\
        ConvNetwork.W_shape self = [size; size; c; nfil] /\
        ConvNetwork.b_shape self
        = [1%Z; nfil; ConvNetwork.size_out self; ConvNetwork.size_out self] /\
        fold_right Z.mul 1%Z (ConvNetwork.ndim_out self)
        = (nfil * ConvNetwork.size_out self * ConvNetwork.size_out self)%Z /\
        ((0 < stride)%Z ->
         ((ConvNetwork.size_out self - 1) * stride + size <= h)%Z /\
         (h < ConvNetwork.size_out self * stride + size)%Z)
  | inl (ConvNetwork.Raised IndexError) => (length ndim_in < 3)%nat
  | inl (ConvNetwork.Raised AssertionError) =>
      exists h w, nth_error ndim_in 1 = Some h /\
                  nth_error ndim_in 2 = Some w /\ h <> w
  | inl ConvNetwork.ZeroDivisionError => stride = 0%Z
  | inl (ConvNetwork.Raised ValueError) =>
      exists c h, nth_error ndim_in 0 = Some c /\
                  nth_error ndim_in 1 = Some h /\
                  ((size < 0)%Z \/ (nfil < 0)%Z \/ (c < 0)%Z \/
                   ((h - size) / stride + 1 < 0)%Z)
  | inl (ConvNetwork.Raised _) => False
  end.
Proof.
  unfold ConvNetwork.init.
  destruct ndim_in as [|c [|h [|w rest]]]; cbn [nth_error length];
    try lia.
  destruct (Z.eqb h w) eqn:Hhw; cbn [negb].
  2:{ apply Z.eqb_neq in Hhw. exists h, w. repeat split. exact Hhw. }
  apply Z.eqb_eq in Hhw. subst w.
  destruct (Z.eqb stride 0) eqn:Hs.
  { now apply Z.eqb_eq in Hs. }
  apply Z.eqb_neq in Hs.
  unfold ConvNetwork.randn. cbn [firstn app forallb].
  destruct (Z.leb 0 size) eqn:H1; cbn [andb].
  2:{ apply Z.leb_gt in H1. exists c, h. repeat split. now left. }
  destruct (Z.leb 0 c) eqn:H2; cbn [andb].
  2:{ apply Z.leb_gt in H2. exists c, h. repeat split. right; right; now left. }
  destruct (Z.leb 0 nfil) eqn:H3; cbn [andb].
  2:{ apply Z.leb_gt in H3. exists c, h. repeat split. right; now left. }
  replace (Z.leb 0 1) with true by reflexivity. cbn [andb].
  destruct (Z.leb 0 ((h - size) / stride + 1)) eqn:H4; cbn [andb].
  2:{ apply Z.leb_gt in H4. exists c, h. repeat split.
      right; right; now right. }
  apply Z.leb_le in H1, H2, H3, H4.
  exists c, h, rest. cbn [ConvNetwork.size_out ConvNetwork.W_shape
    ConvNetwork.b_shape ConvNetwork.ndim_out].
  repeat (split; [first [reflexivity | assumption]|]).
  split.
  - destruct flatten; cbn [fold_right]; [rewrite Z.pow_2_r|]; ring.
  - intros Hpos.
    pose proof (Z.mul_div_le (h - size) stride Hpos).
    pose proof (Z.mul_succ_div_gt (h - size) stride Hpos).
    nia.
Qed.

(** ** KernelNetMSD *)

Lemma msd_init_ok (kernel : GaussianKernel.t) (network : Network.t)
  (self : KernelNetMSD.t) :
  KernelNetMSD.init kernel network = inr self -> msd_ok self.
Proof.
  unfold KernelNetMSD.init. cbn [KernelNetMSD.ndim KernelNetMSD.network].
  rewrite Nat.eqb_refl. intros H. inversion H. repeat split.
Qed.

Lemma get_grad_data_jacobian {S} (net : Network.t) (feed : list (list R))
  (s : S) :
  exists dydx,
    Network.get_grad_data net feed s
    = inr (dydx, batch_features net feed, batch_ph net, s) /\
    forall o j k,
      (o < Network.ndim_out net)%nat -> (j < Network.batch_size net)%nat ->
      (k < Network.ndim_in net)%nat ->
      get3 dydx o j k = jacobian_entry net feed o j k.
Proof. exact (analytic_grad_entry net feed s). Qed.

Lemma t_nrows_batch_features (net : Network.t) (feed : list (list R)) :
  t_nrows (batch_features net feed) = Network.batch_size net.
Proof. apply t_nrows_output_value. Qed.

Lemma msd_with_kernel_run {A} (c : M GaussianKernel.t A)
  (self : KernelNetMSD.t) (a : A) (k' : GaussianKernel.t) :
  c (KernelNetMSD.kernel self) = inr (a, k') ->
  KernelNetMSD.with_kernel c self
  = inr (a, KernelNetMSD.mk (KernelNetMSD.batch_size self)
              (KernelNetMSD.ndim self) (KernelNetMSD.ndim_in self)
              (KernelNetMSD.network self) k' (KernelNetMSD.points self)).
Proof. intros H. unfold KernelNetMSD.with_kernel. now rewrite H. Qed.

Lemma msd_with_kernel_fail {A} (c : M GaussianKernel.t A)
  (self : KernelNetMSD.t) (e : Error) :
  c (KernelNetMSD.kernel self) = inl e ->
  KernelNetMSD.with_kernel c self = inl e.
Proof. intros H. unfold KernelNetMSD.with_kernel. now rewrite H. Qed.

Lemma rsum3_ext (a n d : nat) (f g : nat -> nat -> nat -> R) :
  (forall s k l, (s < a)%nat -> (k < n)%nat -> (l < d)%nat ->
     f s k l = g s k l) ->
  rsum a (fun s => rsum n (fun k => rsum d (fun l => f s k l)))
  = rsum a (fun s => rsum n (fun k => rsum d (fun l => g s k l))).
Proof.
  intros H. apply rsum_ext; intros s Hs. apply rsum2_ext; intros k l Hk Hl.
  now apply H.
Qed.

Lemma MSD_V_run (self : KernelNetMSD.t) (X Y dp_dx dp_dy : list (list R)) :
  msd_ok self ->
  GaussianKernel.sigma (KernelNetMSD.kernel self) <> 0 ->
  exists self',
    KernelNetMSD.MSD_V X Y dp_dx dp_dy self
    = inr (rsum (KernelNetMSD.batch_size self) (fun i =>
             rsum (KernelNetMSD.batch_size self) (fun j =>
               msd_h self X Y dp_dx dp_dy i j))
           / INR (KernelNetMSD.batch_size self) ^ 2, self').
Proof.
  intros [Hn [Hd Hi]] Hsig.
  set (net := KernelNetMSD.network self).
  set (sigma := GaussianKernel.sigma (KernelNetMSD.kernel self)) in *.
  set (ZX := batch_features net X). set (ZY := batch_features net Y).
  destruct (get_grad_data_jacobian net X self) as [JX [HJX EX]].
  destruct (get_grad_data_jacobian net Y self) as [JY [HJY EY]].
  assert (Hc : t_ncols ZX = t_ncols ZY) by reflexivity.
  assert (HrX : t_nrows ZX = Network.batch_size net)
    by apply t_nrows_batch_features.
  assert (HrY : t_nrows ZY = Network.batch_size net)
    by apply t_nrows_batch_features.
  assert (HcX : t_ncols ZX = Network.ndim_out net) by reflexivity.
  assert (Hrun : GaussianKernel.get_two_grad_cross_hess ZX ZY
                   (KernelNetMSD.kernel self)
                 = inr (map (map (map Ropp)) (grad_tensor sigma ZX ZY),
                        grad_tensor sigma ZX ZY,
                        tabulate (t_nrows ZX) (fun i =>
                          tabulate (t_nrows ZY) (fun j =>
                            tabulate (t_ncols ZX) (fun k =>
                              tabulate (t_ncols ZX) (fun l =>
                                get2 (gram_matrix sigma ZX ZY) i j
                                * (get2 (GaussianKernel.eye_over_sigma sigma
                                           (t_ncols ZX)) k l
                                   - get4 (GaussianKernel.outer (t_nrows ZX)
                                             (t_nrows ZY) (t_ncols ZX)
                                             (GaussianKernel.diff_over_sigma
                                                sigma ZX ZY)) i j k l))))),
                        gram_matrix sigma ZX ZY,
                        with_pdist2 (KernelNetMSD.kernel self)
                          (pdist2_matrix ZX ZY))).
  { unfold GaussianKernel.get_two_grad_cross_hess.
    rewrite (bind_inr _ _ _ _ _ (get_gram_matrix_run _ ZX ZY Hc Hsig)).
    reflexivity. }
  eexists. unfold KernelNetMSD.MSD_V.
  rewrite bind_get. fold net.
  rewrite (bind_inr _ _ _ _ _ HJX). cbv beta iota zeta.
  rewrite (bind_inr _ _ _ _ _ HJY). cbv beta iota zeta.
  fold ZX ZY.
  rewrite (bind_inr _ _ _ _ _ (msd_with_kernel_run _ self _ _ Hrun)).
  cbv beta iota zeta. unfold ret.
  apply f_equal. apply (f_equal (fun v => (v, _))).
  apply (f_equal (fun v => v / _)).
  rewrite Hn, Hd, Hi. fold net.
  apply rsum2_ext; intros i j Hi' Hj'.
  rewrite get2_tabulate by assumption.
  assert (HiX : (i < t_nrows ZX)%nat) by (now rewrite HrX).
  assert (HjY : (j < t_nrows ZY)%nat) by (now rewrite HrY).
  assert (HG : get2 (gram_matrix sigma ZX ZY) i j
               = exp (-0.5 / sigma * sqdist ZX ZY i j)).
  { rewrite get2_gram_matrix by assumption.
    now rewrite pdist2_matrix_sqdist. }
  unfold msd_h. cbv zeta. fold net sigma ZX ZY.
  rewrite HG.
  apply f_equal2; [apply f_equal2; [apply f_equal2|]|].
  - reflexivity.
  - apply rsum_ext; intros s Hs. apply f_equal.
    rewrite get3_tabulate by assumption.
    apply rsum_ext; intros k Hk.
    unfold grad_tensor. rewrite get3_map3 by (rewrite ?HcX; assumption).
    rewrite get3_diff_over_sigma by (rewrite ?HcX; assumption).
    rewrite HG, (EX k i s Hk Hi' Hs). reflexivity.
  - apply rsum_ext; intros s Hs. apply f_equal.
    rewrite get3_tabulate by assumption.
    apply rsum_ext; intros k Hk.
    rewrite grad_tensor_entry by (rewrite ?HcX; assumption).
    rewrite (EY k j s Hk Hj' Hs). reflexivity.
  - apply rsum_ext; intros s Hs.
    rewrite get3_tabulate by assumption.
    apply rsum2_ext; intros k l Hk Hl.
    rewrite get4_tabulate by (rewrite ?HcX; assumption).
    unfold GaussianKernel.outer.
    rewrite get4_tabulate by (rewrite ?HcX; assumption).
    rewrite get2_eye_over_sigma by (rewrite ?HcX; assumption).
    rewrite !get3_diff_over_sigma by (rewrite ?HcX; assumption).
    rewrite HG, (EX k i s Hk Hi' Hs), (EY l j s Hl Hj' Hs). reflexivity.
Qed.

Lemma msd_h_sym (self : KernelNetMSD.t) (X Y dp_dx dp_dy : list (list R))
  (i j : nat) :
  msd_h self Y X dp_dy dp_dx i j = msd_h self X Y dp_dx dp_dy j i.
Proof.
  unfold msd_h. cbv zeta.
  set (net := KernelNetMSD.network self).
  set (sigma := GaussianKernel.sigma (KernelNetMSD.kernel self)).
  set (ZX := batch_features net X). set (ZY := batch_features net Y).
  assert (Hc : t_ncols ZY = t_ncols ZX) by reflexivity.
  rewrite (sqdist_sym ZY ZX i j Hc).
  set (G := exp (-0.5 / sigma * sqdist ZX ZY j i)).
  assert (T1 : rsum (Network.ndim_in net) (fun s =>
                 get2 dp_dy i s * get2 dp_dx j s)
               = rsum (Network.ndim_in net) (fun s =>
                   get2 dp_dx j s * get2 dp_dy i s)).
  { apply rsum_ext; intros s _. ring. }
  assert (T2 : rsum (Network.ndim_in net) (fun s =>
                 get2 dp_dx j s * rsum (Network.ndim_out net) (fun k =>
                   - (G * ((at2 ZY i k - at2 ZX j k) / sigma))
                   * jacobian_entry net Y k i s))
               = rsum (Network.ndim_in net) (fun s =>
                   get2 dp_dx j s * rsum (Network.ndim_out net) (fun k =>
                     G * ((at2 ZX j k - at2 ZY i k) / sigma)
                     * jacobian_entry net Y k i s))).
  { apply rsum_ext; intros s _. apply f_equal.
    apply rsum_ext; intros k _. unfold Rdiv. ring. }
  assert (T3 : rsum (Network.ndim_in net) (fun s =>
                 get2 dp_dy i s * rsum (Network.ndim_out net) (fun k =>
                   G * ((at2 ZY i k - at2 ZX j k) / sigma)
                   * jacobian_entry net X k j s))
               = rsum (Network.ndim_in net) (fun s =>
                   get2 dp_dy i s * rsum (Network.ndim_out net) (fun k =>
                     - (G * ((at2 ZX j k - at2 ZY i k) / sigma))
                     * jacobian_entry net X k j s))).
  { apply rsum_ext; intros s _. apply f_equal.
    apply rsum_ext; intros k _. unfold Rdiv. ring. }
  assert (T4 : rsum (Network.ndim_in net) (fun s =>
                 rsum (Network.ndim_out net) (fun k =>
                   rsum (Network.ndim_out net) (fun l =>
                     G * ((if Nat.eqb k l then 1 else 0) / sigma
                          - (at2 ZY i k - at2 ZX j k) / sigma
                            * ((at2 ZY i l - at2 ZX j l) / sigma))
                     * jacobian_entry net Y k i s
                     * jacobian_entry net X l j s)))
               = rsum (Network.ndim_in net) (fun s =>
                   rsum (Network.ndim_out net) (fun k =>
                     rsum (Network.ndim_out net) (fun l =>
                       G * ((if Nat.eqb k l then 1 else 0) / sigma
                            - (at2 ZX j k - at2 ZY i k) / sigma
                              * ((at2 ZX j l - at2 ZY i l) / sigma))
                       * jacobian_entry net X k j s
                       * jacobian_entry net Y l i s)))).
  { apply rsum_ext; intros s _.
    rewrite rsum_swap. apply rsum2_ext; intros k l _ _.
    rewrite (Nat.eqb_sym l k). unfold Rdiv. ring. }
  rewrite T1, T2, T3, T4. ring.
Qed.

(** X20.  The statistic of [MSD_V] is symmetric in its two samples: on an
    object built by the constructor on a kernel whose bandwidth is not
    zero, and for every four feeds, exchanging the batch [X] with the
    batch [Y] and the scores [dp_dx] with the scores [dp_dy] leaves the
    returned value [h] unchanged; the method returns on every feed. *)
Theorem MSD_V_symmetric (kernel : GaussianKernel.t) (network : Network.t)
  (self : KernelNetMSD.t) (X Y dp_dx dp_dy : list (list R)) :
  KernelNetMSD.init kernel network = inr self ->
  GaussianKernel.sigma kernel <> 0 ->
  exists h s1 s2,
    KernelNetMSD.MSD_V X Y dp_dx dp_dy self = inr (h, s1) /\
    KernelNetMSD.MSD_V Y X dp_dy dp_dx self = inr (h, s2).
Proof.
  intros Hinit Hsig. pose proof (msd_init_ok _ _ _ Hinit) as Hok.
  assert (Hs' : GaussianKernel.sigma (KernelNetMSD.kernel self) <> 0).
  { unfold KernelNetMSD.init in Hinit.
    destruct (Nat.eqb _ _) in Hinit; [|discriminate].
    injection Hinit as <-. exact Hsig. }
  destruct (MSD_V_run self X Y dp_dx dp_dy Hok Hs') as [s1 H1].
  destruct (MSD_V_run self Y X dp_dy dp_dx Hok Hs') as [s2 H2].
  do 3 eexists. split; [exact H1|]. rewrite H2.
  apply f_equal. apply (f_equal (fun v => (v, _))).
  apply (f_equal (fun v => v / _)).
  rewrite rsum_swap. apply rsum2_ext; intros i j _ _.
  apply msd_h_sym.
Qed.

Lemma MSD_V_symmetric_witness :
  exists h s1 s2,
    KernelNetMSD.MSD_V [[1; 0]; [0; 1]] [[2; 1]; [0; 3]]
      [[1; 1]; [0; 2]] [[3; 0]; [1; 1]]
      (KernelNetMSD.mk 2 1 2 Examples2.leaky_net Examples.kernel1 None)
    = inr (h, s1) /\
    KernelNetMSD.MSD_V [[2; 1]; [0; 3]] [[1; 0]; [0; 1]]
      [[3; 0]; [1; 1]] [[1; 1]; [0; 2]]
      (KernelNetMSD.mk 2 1 2 Examples2.leaky_net Examples.kernel1 None)
    = inr (h, s2).
Proof.
  assert (Hs : GaussianKernel.sigma Examples.kernel1 <> 0)
    by (simpl; lra).
  exact (MSD_V_symmetric Examples.kernel1 Examples2.leaky_net _
           [[1; 0]; [0; 1]] [[2; 1]; [0; 3]] [[1; 1]; [0; 2]]
           [[3; 0]; [1; 1]] eq_refl Hs).
Defined.

Lemma get_grad_gram_returns (k : GaussianKernel.t) (X Y : tensor2 R) :
  t_ncols X = t_ncols Y -> GaussianKernel.sigma k <> 0 ->
  exists K g,
    GaussianKernel.get_grad_gram X Y k
    = inr (K, g, with_pdist2 k (pdist2_matrix X Y)).
Proof.
  intros Hd Hs. unfold GaussianKernel.get_grad_gram.
  rewrite (bind_inr _ _ _ _ _ (get_gram_matrix_run k X Y Hd Hs)).
  do 2 eexists. reflexivity.
Qed.

(** X21.  [FSSD] never returns.  Whatever the object, the points, the
    feeds and the host's einsum, it leaves with an exception:
    [AssertionError] when the points do not have the width of the network
    output, else [ZeroDivisionError] when the bandwidth is zero, else
    [ValueError] when the host rejects the einsum over the points axis,
    and otherwise [NameError], because it reads [d2k_dZXdZY], a name that
    only [MSD_V] binds. *)
Theorem FSSD_never_returns (einsum_axis_ok : nat -> nat -> bool)
  (self : KernelNetMSD.t) (points : tensor2 R)
  (X Y dp_dx dp_dy : list (list R)) :
  exists e,
    KernelNetMSD.FSSD einsum_axis_ok points X Y dp_dx dp_dy self = inl e /\
    (e = AssertionError \/ e = ZeroDivisionError \/ e = ValueError \/
     e = NameError) /\
    (t_ncols points <> Network.ndim_out (KernelNetMSD.network self) ->
     e = AssertionError) /\
    (t_ncols points = Network.ndim_out (KernelNetMSD.network self) ->
     GaussianKernel.sigma (KernelNetMSD.kernel self) = 0 ->
     e = ZeroDivisionError) /\
    (t_ncols points = Network.ndim_out (KernelNetMSD.network self) ->
     GaussianKernel.sigma (KernelNetMSD.kernel self) <> 0 ->
     einsum_axis_ok (t_nrows points) (KernelNetMSD.batch_size self) = false ->
     e = ValueError) /\
    (t_ncols points = Network.ndim_out (KernelNetMSD.network self) ->
     GaussianKernel.sigma (KernelNetMSD.kernel self) <> 0 ->
     einsum_axis_ok (t_nrows points) (KernelNetMSD.batch_size self) = true ->
     e = NameError).
Proof.
  set (net := KernelNetMSD.network self).
  destruct (get_grad_data_jacobian net X self) as [JX [HJX _]].
  destruct (get_grad_data_jacobian net Y self) as [JY [HJY _]].
  unfold KernelNetMSD.FSSD. rewrite bind_get. fold net.
  rewrite (bind_inr _ _ _ _ _ HJX). cbv beta iota zeta.
  rewrite (bind_inr _ _ _ _ _ HJY). cbv beta iota zeta.
  destruct (Nat.eq_dec (t_ncols points) (Network.ndim_out net)) as [Hd|Hd].
  - assert (HdX : t_ncols (batch_features net X) = t_ncols points)
      by (now rewrite Hd).
    assert (HdY : t_ncols (batch_features net Y) = t_ncols points)
      by (now rewrite Hd).
    destruct (Req_EM_T (GaussianKernel.sigma (KernelNetMSD.kernel self)) 0)
      as [Hs|Hs].
    { rewrite (bind_inl _ _ _ _
                 (msd_with_kernel_fail _ self _
                    (get_grad_gram_zero _ _ points HdX Hs))).
      exists ZeroDivisionError. split; [reflexivity|].
      split; [right; now left|].
      split; [intros H; contradiction|].
      split; [reflexivity|].
      split; intros _ H; contradiction. }
    destruct (get_grad_gram_returns (KernelNetMSD.kernel self)
                (batch_features net X) points HdX Hs) as [K1 [g1 H1]].
    rewrite (bind_inr _ _ _ _ _ (msd_with_kernel_run _ self _ _ H1)).
    cbv beta iota zeta.
    match goal with
    | |- context [bind (KernelNetMSD.with_kernel _) _ ?s] => set (s1 := s)
    end.
    assert (Hs1 : GaussianKernel.sigma (KernelNetMSD.kernel s1) <> 0)
      by exact Hs.
    destruct (get_grad_gram_returns (KernelNetMSD.kernel s1)
                (batch_features net Y) points HdY Hs1) as [K2 [g2 H2]].
    rewrite (bind_inr _ _ _ _ _ (msd_with_kernel_run _ s1 _ _ H2)).
    cbv beta iota zeta.
    cbn [KernelNetMSD.batch_size s1].
    destruct (einsum_axis_ok (t_nrows points) (KernelNetMSD.batch_size self))
      eqn:He.
    + exists NameError. split; [reflexivity|].
      split; [right; right; now right|].
      split; [intros H; contradiction|].
      split; [intros _ H; contradiction|].
      split; [discriminate | reflexivity].
    + exists ValueError. split; [reflexivity|].
      split; [right; right; now left|].
      split; [intros H; contradiction|].
      split; [intros _ H; contradiction|].
      split; [reflexivity | discriminate].
  - assert (HdX : t_ncols (batch_features net X) <> t_ncols points)
      by (intros E; apply Hd; now rewrite <- E).
    rewrite (bind_inl _ _ _ _
               (msd_with_kernel_fail _ self _
                  (get_grad_gram_fail _ _ points HdX))).
    exists AssertionError. split; [reflexivity|].
    split; [now left|].
    split; [reflexivity|].
    split; [intros H; contradiction|].
    split; intros H; contradiction.
Qed.

(** ** The inherited methods on a SquareNetwork *)















(** ** The score is the score-matching objective *)







